(** * uproot: the ROOT file writer and the partition planner

    A shallow embedding of [newwriter.py] (class [NewWriter]) and of
    [uproot/partition.py] ([PartitionSet], [PartitionSet.fill], [iterator]),
    with the properties of the specification stated over it.

    Python integers are unbounded, so every offset and counter is a [Z].
    Python [bytes] and [str] values are [string]s; [encode("utf-8")] is the
    identity on them.  A [dict] whose iteration order matters is an
    association list with unique keys in insertion order. *)

From Stdlib Require Import ZArith Lia Bool Ascii String.
From stdpp Require Import base list strings.

Local Open Scope Z_scope.

(** ** Python helpers shared by both modules *)

(** The exceptions the modelled code can raise. *)
Inductive Exn :=
| AssertionError
| AttributeError
| IndexError
| KeyError (key : string)
| TypeError
| UnpackError                                   (* ValueError of a tuple unpacking *)
| EmptyChoices                                  (* ValueError of min() on an empty list *)
| BranchNotFound (branch path prev : string)    (* partition.py line 253 *)
| DtypeDiffers (branch path prev : string)      (* partition.py line 257 *)
| CounterNotFound (branch path prev : string)   (* partition.py line 262 *)
| CounterDiffers (branch path prev : string)    (* partition.py line 266 *)
| CannotSatisfy (branch : string) (entry : Z) (path : string) (* line 319 *)
| UnboundLocalError
| OutOfFuel.   (* not a Python exception: a loop of the model ran out of steps *)

(** A computation that returns a value or raises. *)
Inductive result (A : Type) :=
| Ok (a : A)
| Raise (e : Exn).
Arguments Ok {A} a.
Arguments Raise {A} e.

#[global] Instance result_ret : MRet result := fun A a => Ok a.
#[global] Instance result_bind : MBind result := fun A B k r =>
  match r with
  | Ok a => k a
  | Raise e => Raise e
  end.

Definition raises {A} (r : result A) : bool :=
  match r with Ok _ => false | Raise _ => true end.

Definition len {A} (l : list A) : Z := Z.of_nat (length l).

(** [l[i]] for a non-negative index. *)
Definition getitem {A} (l : list A) (i : Z) : result A :=
  if i <? 0 then Raise IndexError
  else match l !! Z.to_nat i with
       | Some a => Ok a
       | None => Raise IndexError
       end.

(** [l[-1]]. *)
Definition getlast {A} (l : list A) : result A :=
  match last l with
  | Some a => Ok a
  | None => Raise IndexError
  end.

(** An insertion-ordered [dict] with string keys. *)
Definition dict (V : Type) := list (string * V).

Fixpoint dict_get {V} (d : dict V) (k : string) : option V :=
  match d with
  | [] => None
  | (k', v) :: d => if String.eqb k' k then Some v else dict_get d k
  end.

Definition dict_mem {V} (d : dict V) (k : string) : bool :=
  match dict_get d k with Some _ => true | None => false end.

(** [d[k] = v]: an existing key keeps its position. *)
Fixpoint dict_set {V} (d : dict V) (k : string) (v : V) : dict V :=
  match d with
  | [] => [(k, v)]
  | (k', v') :: d =>
      if String.eqb k' k then (k', v) :: d else (k', v') :: dict_set d k v
  end.

(** [del d[k]]. *)
Fixpoint dict_del {V} (d : dict V) (k : string) : dict V :=
  match d with
  | [] => []
  | (k', v') :: d =>
      if String.eqb k' k then d else (k', v') :: dict_del d k
  end.

(** [dict(pairs)]. *)
Definition dict_of_list {V} (pairs : list (string * V)) : dict V :=
  fold_left (fun d kv => dict_set d (fst kv) (snd kv)) pairs [].

Definition dict_keys {V} (d : dict V) : list string := map fst d.

(** * The ROOT file writer ([newwriter.py]) *)

Module NewWriter.

(** ** The growable buffer *)

(** Modelled from the spec: the growable buffer ([write.diskarray.DiskArray],
    not part of the sources): "a resizable byte vector with random-access
    patch and copy-range operations".  A byte is a [Z] in [0, 256); bytes that
    were never written read as zero. *)
Record DiskArray := mkDiskArray { da_size : Z; da_data : Z -> Z }.

Definition da_new : DiskArray := mkDiskArray 0 (fun _ => 0).

Definition in_range (pos n i : Z) : bool := (pos <=? i) && (i <? pos + n).

(** [file.resize(n)] *)
Definition da_resize (n : Z) (f : DiskArray) : DiskArray :=
  mkDiskArray n (fun i => if i <? n then da_data f i else 0).

(** the sink stores [bs] at [pos], growing the buffer when needed *)
Definition da_patch (pos : Z) (bs : list Z) (f : DiskArray) : DiskArray :=
  mkDiskArray (Z.max (da_size f) (pos + len bs))
    (fun i => if in_range pos (len bs) i
              then default 0 (bs !! Z.to_nat (i - pos))
              else da_data f i).

(** [file[dst:dst+n] = file[src:src+n]] *)
Definition da_copy (dst src n : Z) (f : DiskArray) : DiskArray :=
  mkDiskArray (Z.max (da_size f) (dst + n))
    (fun i => if in_range dst n i then da_data f (src + (i - dst))
              else da_data f i).

(** [file[pos:pos+n]] *)
Definition da_read (f : DiskArray) (pos : Z) (n : nat) : list Z :=
  map (fun k => da_data f (pos + Z.of_nat k)) (seq 0 n).

(** ** Layout records *)

Record Header := mkHeader {
  fBEGIN : Z; fEND : Z; fSeekFree : Z; fSeekInfo : Z;
  fNbytesInfo : Z; fNbytesName : Z; fCompress : Z; hName : string }.

Inductive KeyClass := begin_key | streamer_key | head_key_class | junk_key | string_key.

Record Key := mkKey {
  kclass : KeyClass; kName : string;
  fNbytes : Z; fKeylen : Z; fObjlen : Z; fSeekKey : Z }.

Record DirectoryInfo := mkDirectoryInfo {
  fNbytesKeys : Z; dNbytesName : Z; fSeekKeys : Z }.

Definition hdr_set_fEND (v : Z) (h : Header) : Header :=
  mkHeader (fBEGIN h) v (fSeekFree h) (fSeekInfo h) (fNbytesInfo h)
    (fNbytesName h) (fCompress h) (hName h).
Definition hdr_set_fSeekFree (v : Z) (h : Header) : Header :=
  mkHeader (fBEGIN h) (fEND h) v (fSeekInfo h) (fNbytesInfo h)
    (fNbytesName h) (fCompress h) (hName h).
Definition hdr_set_fSeekInfo (v : Z) (h : Header) : Header :=
  mkHeader (fBEGIN h) (fEND h) (fSeekFree h) v (fNbytesInfo h)
    (fNbytesName h) (fCompress h) (hName h).
Definition hdr_set_fNbytesInfo (v : Z) (h : Header) : Header :=
  mkHeader (fBEGIN h) (fEND h) (fSeekFree h) (fSeekInfo h) v
    (fNbytesName h) (fCompress h) (hName h).

Definition key_set_fNbytes (v : Z) (k : Key) : Key :=
  mkKey (kclass k) (kName k) v (fKeylen k) (fObjlen k) (fSeekKey k).
Definition key_set_fKeylen (v : Z) (k : Key) : Key :=
  mkKey (kclass k) (kName k) (fNbytes k) v (fObjlen k) (fSeekKey k).
Definition key_set_fObjlen (v : Z) (k : Key) : Key :=
  mkKey (kclass k) (kName k) (fNbytes k) (fKeylen k) v (fSeekKey k).

Definition dir_set_fNbytesKeys (v : Z) (d : DirectoryInfo) : DirectoryInfo :=
  mkDirectoryInfo v (dNbytesName d) (fSeekKeys d).
Definition dir_set_fSeekKeys (v : Z) (d : DirectoryInfo) : DirectoryInfo :=
  mkDirectoryInfo (fNbytesKeys d) (dNbytesName d) v.

(** The value stored under a name. *)
Inductive Item :=
| TObjString (s : string)
| OtherObject (typename : string).

(** ** The sink and the record constructors *)

(** The record classes and the sink ([write.header], [write.begin_key],
    [write.sink], ...) are outside the sources.  The writer only depends on
    the field values a fresh record starts with and on the bytes each record
    serializes to, so both are taken as an interface. *)
Class Layout := {
  Header_new : string -> Z -> Header;          (* Header(fName, fCompress) *)
  Begin_Key : string -> Key;                   (* Begin_Key(fName) *)
  StreamerKey : Z -> Z -> Key;                 (* StreamerKey(cursor, 0) *)
  HeadKey : Z -> Z -> string -> Key;           (* HeadKey(fNbytes, fSeekKey, fName) *)
  JunkKey : string -> Key;                     (* JunkKey(name) *)
  StringKey : string -> Z -> Key;              (* StringKey(name, pointcheck) *)
  ser_header : Header -> list Z;
  ser_key : Key -> list Z;
  ser_directoryinfo : DirectoryInfo -> list Z;
  ser_strings : string -> list Z;
  ser_object : string -> list Z;
  ser_numbers : Z -> list Z;                   (* struct.pack(">i", n) *)
  ser_allstreamers : list Z;                   (* AllStreamers(size=1).write() *)
  ser_tobjstringstreamers : list Z             (* TObjStringStreamers.write() *)
}.

(** ** The writer *)

(** What the writer does to the file and to the two header offsets.  The
    trace is a ghost field, never read by the writer; it is kept latest event
    first. *)
Inductive Event :=
| Resize (n : Z)
| CopyRange (dst src n : Z)
| SetHeader (pos : Z) (h : Header)
| SetKey (pos : Z) (k : Key)
| SetStrings (pos : Z) (s : string)
| SetDirectoryInfo (pos : Z) (d : DirectoryInfo)
| SetObject (pos : Z) (s : string)
| SetNumbers (pos : Z) (n : Z)
| WriteStreamers (pos : Z)
| Flush
| AssignEND (v : Z)
| AssignSeekFree (v : Z).

Record Writer := mkWriter {
  file : DiskArray;
  bytename : string;
  cursor : Z;
  streamers : list string;
  objend : Z;
  expander : Z;
  expanderpow : Z;
  header : Header;
  directory_pointcheck : Z;
  directory : DirectoryInfo;
  streamerend : Z;
  streamerlimit : Z;
  keystart : Z;
  keyend : Z;
  keylimit : Z;
  head_key_pointcheck : Z;
  head_key : Key;
  head_key_end : Z;
  nkeys : Z;
  trace : list Event }.

Definition set_file (v : DiskArray) (w : Writer) : Writer :=
  mkWriter v (bytename w) (cursor w) (streamers w) (objend w) (expander w)
    (expanderpow w) (header w) (directory_pointcheck w) (directory w)
    (streamerend w) (streamerlimit w) (keystart w) (keyend w) (keylimit w)
    (head_key_pointcheck w) (head_key w) (head_key_end w) (nkeys w) (trace
    w).
Definition set_cursor (v : Z) (w : Writer) : Writer :=
  mkWriter (file w) (bytename w) v (streamers w) (objend w) (expander w)
    (expanderpow w) (header w) (directory_pointcheck w) (directory w)
    (streamerend w) (streamerlimit w) (keystart w) (keyend w) (keylimit w)
    (head_key_pointcheck w) (head_key w) (head_key_end w) (nkeys w) (trace
    w).
Definition set_streamers (v : list string) (w : Writer) : Writer :=
  mkWriter (file w) (bytename w) (cursor w) v (objend w) (expander w)
    (expanderpow w) (header w) (directory_pointcheck w) (directory w)
    (streamerend w) (streamerlimit w) (keystart w) (keyend w) (keylimit w)
    (head_key_pointcheck w) (head_key w) (head_key_end w) (nkeys w) (trace
    w).
Definition set_header (v : Header) (w : Writer) : Writer :=
  mkWriter (file w) (bytename w) (cursor w) (streamers w) (objend w)
    (expander w) (expanderpow w) v (directory_pointcheck w) (directory w)
    (streamerend w) (streamerlimit w) (keystart w) (keyend w) (keylimit w)
    (head_key_pointcheck w) (head_key w) (head_key_end w) (nkeys w) (trace
    w).
Definition set_directory_pointcheck (v : Z) (w : Writer) : Writer :=
  mkWriter (file w) (bytename w) (cursor w) (streamers w) (objend w)
    (expander w) (expanderpow w) (header w) v (directory w) (streamerend w)
    (streamerlimit w) (keystart w) (keyend w) (keylimit w)
    (head_key_pointcheck w) (head_key w) (head_key_end w) (nkeys w) (trace
    w).
Definition set_directory (v : DirectoryInfo) (w : Writer) : Writer :=
  mkWriter (file w) (bytename w) (cursor w) (streamers w) (objend w)
    (expander w) (expanderpow w) (header w) (directory_pointcheck w) v
    (streamerend w) (streamerlimit w) (keystart w) (keyend w) (keylimit w)
    (head_key_pointcheck w) (head_key w) (head_key_end w) (nkeys w) (trace
    w).
Definition set_streamerend (v : Z) (w : Writer) : Writer :=
  mkWriter (file w) (bytename w) (cursor w) (streamers w) (objend w)
    (expander w) (expanderpow w) (header w) (directory_pointcheck w)
    (directory w) v (streamerlimit w) (keystart w) (keyend w) (keylimit w)
    (head_key_pointcheck w) (head_key w) (head_key_end w) (nkeys w) (trace
    w).
Definition set_streamerlimit (v : Z) (w : Writer) : Writer :=
  mkWriter (file w) (bytename w) (cursor w) (streamers w) (objend w)
    (expander w) (expanderpow w) (header w) (directory_pointcheck w)
    (directory w) (streamerend w) v (keystart w) (keyend w) (keylimit w)
    (head_key_pointcheck w) (head_key w) (head_key_end w) (nkeys w) (trace
    w).
Definition set_keystart (v : Z) (w : Writer) : Writer :=
  mkWriter (file w) (bytename w) (cursor w) (streamers w) (objend w)
    (expander w) (expanderpow w) (header w) (directory_pointcheck w)
    (directory w) (streamerend w) (streamerlimit w) v (keyend w) (keylimit
    w) (head_key_pointcheck w) (head_key w) (head_key_end w) (nkeys w)
    (trace w).
Definition set_keyend (v : Z) (w : Writer) : Writer :=
  mkWriter (file w) (bytename w) (cursor w) (streamers w) (objend w)
    (expander w) (expanderpow w) (header w) (directory_pointcheck w)
    (directory w) (streamerend w) (streamerlimit w) (keystart w) v (keylimit
    w) (head_key_pointcheck w) (head_key w) (head_key_end w) (nkeys w)
    (trace w).
Definition set_keylimit (v : Z) (w : Writer) : Writer :=
  mkWriter (file w) (bytename w) (cursor w) (streamers w) (objend w)
    (expander w) (expanderpow w) (header w) (directory_pointcheck w)
    (directory w) (streamerend w) (streamerlimit w) (keystart w) (keyend w)
    v (head_key_pointcheck w) (head_key w) (head_key_end w) (nkeys w) (trace
    w).
Definition set_head_key_pointcheck (v : Z) (w : Writer) : Writer :=
  mkWriter (file w) (bytename w) (cursor w) (streamers w) (objend w)
    (expander w) (expanderpow w) (header w) (directory_pointcheck w)
    (directory w) (streamerend w) (streamerlimit w) (keystart w) (keyend w)
    (keylimit w) v (head_key w) (head_key_end w) (nkeys w) (trace w).
Definition set_head_key (v : Key) (w : Writer) : Writer :=
  mkWriter (file w) (bytename w) (cursor w) (streamers w) (objend w)
    (expander w) (expanderpow w) (header w) (directory_pointcheck w)
    (directory w) (streamerend w) (streamerlimit w) (keystart w) (keyend w)
    (keylimit w) (head_key_pointcheck w) v (head_key_end w) (nkeys w) (trace
    w).
Definition set_head_key_end (v : Z) (w : Writer) : Writer :=
  mkWriter (file w) (bytename w) (cursor w) (streamers w) (objend w)
    (expander w) (expanderpow w) (header w) (directory_pointcheck w)
    (directory w) (streamerend w) (streamerlimit w) (keystart w) (keyend w)
    (keylimit w) (head_key_pointcheck w) (head_key w) v (nkeys w) (trace w).
Definition set_nkeys (v : Z) (w : Writer) : Writer :=
  mkWriter (file w) (bytename w) (cursor w) (streamers w) (objend w)
    (expander w) (expanderpow w) (header w) (directory_pointcheck w)
    (directory w) (streamerend w) (streamerlimit w) (keystart w) (keyend w)
    (keylimit w) (head_key_pointcheck w) (head_key w) (head_key_end w) v
    (trace w).
Definition set_trace (v : list Event) (w : Writer) : Writer :=
  mkWriter (file w) (bytename w) (cursor w) (streamers w) (objend w)
    (expander w) (expanderpow w) (header w) (directory_pointcheck w)
    (directory w) (streamerend w) (streamerlimit w) (keystart w) (keyend w)
    (keylimit w) (head_key_pointcheck w) (head_key w) (head_key_end w)
    (nkeys w) v.

Section WithLayout.
Context {L : Layout}.

Definition record (e : Event) (w : Writer) : Writer :=
  set_trace (e :: trace w) w.

(** A [Cursor] argument: one of the writer's own cursor objects, which the
    sink advances in place, or a fresh [Cursor(index)] that is dropped after
    the call. *)
Inductive CursorRef :=
| self_cursor
| self_keyend
| self_streamerend
| Cursor (index : Z).

Definition cursor_index (c : CursorRef) (w : Writer) : Z :=
  match c with
  | self_cursor => cursor w
  | self_keyend => keyend w
  | self_streamerend => streamerend w
  | Cursor index => index
  end.

Definition cursor_advance (c : CursorRef) (n : Z) (w : Writer) : Writer :=
  match c with
  | self_cursor => set_cursor (cursor w + n) w
  | self_keyend => set_keyend (keyend w + n) w
  | self_streamerend => set_streamerend (streamerend w + n) w
  | Cursor _ => w
  end.

(** Modelled from the spec: every sink operation stores the serialized
    record at the cursor and advances the cursor by the bytes written. *)
Definition sink_put (c : CursorRef) (bs : list Z) (e : Z -> Event)
    (w : Writer) : Writer :=
  let pos := cursor_index c w in
  cursor_advance c (len bs)
    (record (e pos) (set_file (da_patch pos bs (file w)) w)).

Definition set_header_at (c : CursorRef) (h : Header) : Writer -> Writer :=
  sink_put c (ser_header h) (fun pos => SetHeader pos h).
Definition set_key (c : CursorRef) (k : Key) : Writer -> Writer :=
  sink_put c (ser_key k) (fun pos => SetKey pos k).
Definition set_strings (c : CursorRef) (s : string) : Writer -> Writer :=
  sink_put c (ser_strings s) (fun pos => SetStrings pos s).
Definition set_directoryinfo (c : CursorRef) (d : DirectoryInfo) : Writer -> Writer :=
  sink_put c (ser_directoryinfo d) (fun pos => SetDirectoryInfo pos d).
Definition set_object (c : CursorRef) (s : string) : Writer -> Writer :=
  sink_put c (ser_object s) (fun pos => SetObject pos s).
Definition set_numbers (c : CursorRef) (n : Z) : Writer -> Writer :=
  sink_put c (ser_numbers n) (fun pos => SetNumbers pos n).
(** [AllStreamers(sink, c, size=1).write()], [TObjStringStreamers(sink, c).write()] *)
Definition write_streamers (c : CursorRef) (bs : list Z) : Writer -> Writer :=
  sink_put c bs WriteStreamers.

Definition file_resize (n : Z) (w : Writer) : Writer :=
  record (Resize n) (set_file (da_resize n (file w)) w).
Definition file_copy (dst src n : Z) (w : Writer) : Writer :=
  record (CopyRange dst src n) (set_file (da_copy dst src n (file w)) w).
Definition file_flush (w : Writer) : Writer := record Flush w.

Definition assign_fEND (v : Z) (w : Writer) : Writer :=
  record (AssignEND v) (set_header (hdr_set_fEND v (header w)) w).
Definition assign_fSeekFree (v : Z) (w : Writer) : Writer :=
  record (AssignSeekFree v) (set_header (hdr_set_fSeekFree v (header w)) w).

(** [filename[(filename.rfind("/") + 1):]] *)
Fixpoint basename (filename : string) : string :=
  match filename with
  | EmptyString => EmptyString
  | String c rest =>
      if existsb (Ascii.eqb "/"%char) (String.list_ascii_of_string rest) then basename rest
      else if Ascii.eqb c "/"%char then rest
      else filename
  end.

(** The attributes [__init__] has not assigned yet hold placeholders. *)
Definition blank (name : string) : Writer :=
  mkWriter da_new name 0 [] 0 500 2 (Header_new name 0)
    0 (mkDirectoryInfo 0 0 0) 0 0 0 0 0 0 (HeadKey 0 0 name) 0 0
    [AssignSeekFree (fSeekFree (Header_new name 0));
     AssignEND (fEND (Header_new name 0))].

(** [NewWriter.__init__], lines 20-111, in the five blocks of the source.
    [self.streamerend = self.cursor] (line 77) and [self.keyend = self.cursor]
    (lines 90, 107) share the cursor object; [self.cursor] is rebound to a new
    object (lines 81, 118) before the shared object moves again, except for
    lines 99-105, after which line 107 reads it afresh: copying the index is
    the same. *)

(** Lines 21-49: the header, the begin key and the junk strings. *)
Definition init_begin (filename : string) : Writer :=
  let w := blank (basename filename) in                           (* 21-35 *)
  let w := set_header_at self_cursor (header w) w in              (* 36 *)
  let w := set_cursor (fBEGIN (header w)) w in                    (* 39 *)
  let pointcheck := cursor w in
  let fName := bytename w in
  let key := Begin_Key fName in
  let w := set_key self_cursor key w in
  let key := key_set_fKeylen (cursor w - pointcheck) key in
  let key := key_set_fObjlen (fNbytes key - fKeylen key) key in
  let w := set_key (Cursor pointcheck) key w in
  set_strings self_cursor fName w.                                (* 49 *)

(** Lines 52-59: the directory. *)
Definition init_directory (w : Writer) : Writer :=
  let w := set_directory_pointcheck (cursor w) w in
  let w := set_directory (mkDirectoryInfo 0 (fNbytesName (header w)) 0) w in
  let w := set_directoryinfo self_cursor (directory w) w in
  set_header (hdr_set_fSeekInfo (cursor w) (header w)) w.

(** Lines 62-70: the streamer key. *)
Definition init_streamerkey (w : Writer) : Writer :=
  let pointcheck := cursor w in
  let key := StreamerKey (cursor w) 0 in
  let w := set_key self_cursor key w in
  let key := key_set_fKeylen (cursor w - pointcheck) key in
  let key := key_set_fNbytes (fKeylen key + fObjlen key) key in
  let w := set_key (Cursor pointcheck) key w in
  let w := set_header (hdr_set_fNbytesInfo (fNbytes key) (header w)) w in
  set_header_at (Cursor 0) (header w) w.

(** Lines 73-85: the space for the streamers. *)
Definition init_streamers (w : Writer) : Writer :=
  let streamerstart := cursor w in
  let w := file_resize (cursor w + expander w) w in
  let w := write_streamers self_cursor ser_allstreamers w in
  let w := set_streamerend (cursor w) w in
  let w := set_streamerlimit (cursor w + expander w) w in
  let w := set_cursor (streamerstart + expander w) w in           (* 81 *)
  let w := set_directory (dir_set_fSeekKeys (cursor w) (directory w)) w in
  set_directoryinfo (Cursor (directory_pointcheck w)) (directory w) w.

(** Lines 88-111: the space for the keys, the head key, the key counter. *)
Definition init_keys (w : Writer) : Writer :=
  let w := set_keystart (cursor w) w in
  let w := file_resize (cursor w + expander w) w in
  let w := set_keyend (cursor w) w in
  let w := set_keylimit (keystart w + expander w) w in
  let w := set_head_key_pointcheck (cursor w) w in                (* 94 *)
  let fNbytes := fNbytesKeys (directory w) in
  let fSeekKey := fSeekKeys (directory w) in
  let fName := bytename w in
  let w := set_head_key (HeadKey fNbytes fSeekKey fName) w in
  let w := set_key self_cursor (head_key w) w in
  let w := set_head_key_end (cursor w) w in
  let w := set_nkeys 0 w in
  let w := set_numbers self_cursor (nkeys w) w in
  let w := set_keyend (cursor w) w in                             (* 107 *)
  let w := assign_fSeekFree (cursor w) w in
  let w := assign_fEND (fSeekFree (header w) + expander w) w in
  set_header_at (Cursor 0) (header w) w.

Definition __init__ (filename : string) : Writer :=
  init_keys (init_streamers (init_streamerkey (init_directory (init_begin filename)))).

(** Lines 124-133: the junk key and the object, at the cursor. *)
Definition place_object (keyname s : string) (w : Writer) : Writer :=
  let pointcheck := cursor w in
  let junkkey := JunkKey keyname in
  let w := set_key self_cursor junkkey w in
  let junkkey := key_set_fKeylen (cursor w - pointcheck) junkkey in
  let junkkey := key_set_fNbytes (fKeylen junkkey + fObjlen junkkey) junkkey in
  let w := set_key (Cursor pointcheck) junkkey w in
  set_object self_cursor s w.

(** Lines 139-147: the check for key re-allocation. *)
Definition key_realloc (w : Writer) : Writer :=
  if keylimit w - keyend w <? 200 then
    let w := file_resize (fEND (header w) + expander w ^ expanderpow w) w in
    let w := file_copy (fEND (header w)) (fSeekKeys (directory w)) (expander w) w in
    let w := set_keyend (fEND (header w) + keyend w - fSeekKeys (directory w)) w in
    let w := set_directory (dir_set_fSeekKeys (fEND (header w)) (directory w)) w in
    let w := set_keylimit (fEND (header w) + expander w ^ expanderpow w) w in
    let w := assign_fEND (keylimit w) w in
    let w := assign_fSeekFree (keylimit w) w in
    set_directoryinfo (Cursor (directory_pointcheck w)) (directory w) w
  else w.

(** Lines 149-153: the key of the object, at [keyend]. *)
Definition place_key (key : Key) (w : Writer) : Writer :=
  let pointcheck := keyend w in
  let w := set_key self_keyend key w in
  let key := key_set_fKeylen (keyend w - pointcheck) key in
  let key := key_set_fNbytes (fKeylen key + fObjlen key) key in
  set_key (Cursor pointcheck) key w.

(** Lines 162-169: the check for streamer reallocation. *)
Definition streamer_realloc (w : Writer) : Writer :=
  if streamerlimit w - streamerend w <? 500 then
    let w := file_copy (fEND (header w)) (fSeekInfo (header w)) (expander w) w in
    let w := set_streamerend
               (fEND (header w) + streamerend w - fSeekInfo (header w)) w in
    let w := set_header (hdr_set_fSeekInfo (fEND (header w)) (header w)) w in
    let w := set_streamerlimit (fEND (header w) + expander w ^ expanderpow w) w in
    let w := assign_fEND (streamerlimit w) w in
    assign_fSeekFree (streamerlimit w) w
  else w.

(** Lines 156-171.  [tobjstring] holds the cursor object that
    [self.streamerend] names when [write] is called. *)
Definition place_streamers (w : Writer) : Writer :=
  if negb (existsb (String.eqb "TObjString") (streamers w)) then
    let w := set_streamers (streamers w ++ ["TObjString"%string]) w in
    let w := streamer_realloc w in
    write_streamers self_streamerend ser_tobjstringstreamers w
  else w.

(** Lines 173-186: the key counter, the directory and the head key. *)
Definition update_keys (w : Writer) : Writer :=
  let w := set_nkeys (nkeys w + 1) w in
  let w := set_numbers (Cursor (head_key_end w)) (nkeys w) w in
  let w := set_directory
             (dir_set_fNbytesKeys (fEND (header w) - keyend w) (directory w)) w in
  let w := set_directoryinfo (Cursor (directory_pointcheck w)) (directory w) w in
  let w := set_head_key (key_set_fNbytes (fNbytesKeys (directory w)) (head_key w)) w in
  let w := set_head_key
             (key_set_fKeylen (head_key_end w - head_key_pointcheck w) (head_key w)) w in
  let w := set_head_key
             (key_set_fObjlen (fNbytes (head_key w) - fKeylen (head_key w)) (head_key w)) w in
  set_key (Cursor (head_key_pointcheck w)) (head_key w) w.

(** Lines 188-195: the header, and the flush. *)
Definition update_header (w : Writer) : Writer :=
  let w := if cursor w >? fEND (header w) then
             let w := assign_fSeekFree (cursor w) w in
             assign_fEND (cursor w) w
           else w in
  let w := set_header_at (Cursor 0) (header w) w in
  file_flush w.

(** Lines 122-171: the branch taken for a [TObjString]. *)
Definition place_tobjstring (keyname s : string) (w : Writer) : Writer :=
  let pointcheck := cursor w in                                   (* 123 *)
  let w := place_object keyname s w in
  let key := StringKey keyname pointcheck in                      (* 136 *)
  let w := key_realloc w in
  let w := place_key key w in
  place_streamers w.

(** [NewWriter.__setitem__], lines 114-195. *)
Definition __setitem__ (keyname : string) (item : Item) (w : Writer) : Writer :=
  let w := set_cursor (fEND (header w)) w in                      (* 118 *)
  let w :=
    match item with
    | TObjString s => place_tobjstring keyname s w
    | OtherObject _ => w
    end in
  update_header (update_keys w).

(** A writer after a sequence of [w[name] = item] statements. *)
Definition inserts (ops : list (string * Item)) (w : Writer) : Writer :=
  fold_left (fun w op => __setitem__ (fst op) (snd op) w) ops w.

End WithLayout.
End NewWriter.

(** ** A concrete layout

    The ROOT on-disk layout of the records (big-endian integers, strings with
    a one-byte length prefix), used to run the writer on concrete inserts. *)
Module RootLayout.
Import NewWriter.

(** [n] as [width] big-endian bytes (two's complement). *)
Fixpoint be_bytes (width : nat) (n : Z) : list Z :=
  match width with
  | O => []
  | S width' => Z.land (Z.shiftr n (8 * Z.of_nat width')) 255 :: be_bytes width' n
  end.

(** The unsigned value of big-endian bytes. *)
Definition be_value (bs : list Z) : Z :=
  fold_left (fun acc b => acc * 256 + b) bs 0.

Definition str_bytes (s : string) : list Z :=
  map (fun c => Z.of_nat (nat_of_ascii c)) (String.list_ascii_of_string s).

Definition root_string (s : string) : list Z :=
  len (str_bytes s) :: str_bytes s.

Definition class_name (c : KeyClass) : string :=
  match c with
  | begin_key => "TFile"
  | streamer_key => "TList"
  | head_key_class => "TFile"
  | junk_key => "TObjString"
  | string_key => "TObjString"
  end.

Definition class_title (c : KeyClass) : string :=
  match c with
  | streamer_key => "Doubly linked list"
  | junk_key | string_key => "Collectable string class"
  | _ => ""
  end.

Definition key_bytes (k : Key) : list Z :=
  be_bytes 4 (fNbytes k) ++ be_bytes 2 4 ++ be_bytes 4 (fObjlen k)
  ++ be_bytes 4 0 ++ be_bytes 2 (fKeylen k) ++ be_bytes 2 1
  ++ be_bytes 4 (fSeekKey k) ++ be_bytes 4 100
  ++ root_string (class_name (kclass k)) ++ root_string (kName k)
  ++ root_string (class_title (kclass k)).

Definition header_bytes (h : Header) : list Z :=
  str_bytes "root" ++ be_bytes 4 61400 ++ be_bytes 4 (fBEGIN h)
  ++ be_bytes 4 (fEND h) ++ be_bytes 4 (fSeekFree h) ++ be_bytes 4 0
  ++ be_bytes 4 0 ++ be_bytes 4 (fNbytesName h) ++ [4]
  ++ be_bytes 4 (fCompress h) ++ be_bytes 4 (fSeekInfo h)
  ++ be_bytes 4 (fNbytesInfo h) ++ replicate 18 0.

Definition directoryinfo_bytes (d : DirectoryInfo) : list Z :=
  be_bytes 2 5 ++ be_bytes 4 0 ++ be_bytes 4 0 ++ be_bytes 4 (fNbytesKeys d)
  ++ be_bytes 4 (dNbytesName d) ++ be_bytes 4 100 ++ be_bytes 4 0
  ++ be_bytes 4 (fSeekKeys d).

Definition object_bytes (s : string) : list Z :=
  be_bytes 4 (len (str_bytes s) + 11) ++ be_bytes 2 1 ++ be_bytes 2 1
  ++ be_bytes 4 0 ++ be_bytes 4 50331648 ++ root_string s.

#[export] Instance root_layout : Layout := {|
  Header_new name compress :=
    mkHeader 100 0 0 0 0 (36 + 2 * len (str_bytes name)) compress name;
  Begin_Key name := mkKey begin_key name 0 0 0 100;
  StreamerKey index objlen := mkKey streamer_key "StreamerInfo" 0 0 objlen index;
  HeadKey nbytes seekkey name := mkKey head_key_class name nbytes 0 0 seekkey;
  JunkKey name := mkKey junk_key name 0 0 17 0;
  StringKey name pointcheck := mkKey string_key name 0 0 17 pointcheck;
  ser_header := header_bytes;
  ser_key := key_bytes;
  ser_directoryinfo := directoryinfo_bytes;
  ser_strings name := root_string name ++ root_string "";
  ser_object := object_bytes;
  ser_numbers := be_bytes 4;
  ser_allstreamers := be_bytes 4 1073741840 ++ be_bytes 2 5 ++ be_bytes 2 1
                      ++ replicate 8 0 ++ be_bytes 4 0;
  ser_tobjstringstreamers := replicate 120 1
|}.

End RootLayout.

(** * The partition planner ([uproot/partition.py]) *)

Module Planner.

(** A numpy [dtype], by its canonical name ([str(dtype)]). *)
Definition dtype := string.

Record BasketData := mkBasketData {
  bd_path : string;
  bd_branchname : string;
  bd_dtype : dtype;
  bd_itemdims : list Z;
  bd_entrystart : Z;
  bd_entryend : Z;
  bd_numbytes : Z;
  bd_pathi : Z }.                        (* the attribute [_pathi] of line 307 *)

Definition bd_numentries (x : BasketData) : Z := bd_entryend x - bd_entrystart x.

Record Range := mkRange {
  path : string;
  entrystart : Z;
  entryend : Z;
  rpathi : Z }.                          (* the attribute [_pathi] set by [fill] *)

Definition range_numentries (r : Range) : Z := entryend r - entrystart r.

Record Partition := mkPartition {
  index : Z;
  ranges : list Range }.

Definition sumZ (l : list Z) : Z := fold_right Z.add 0 l.

Definition partition_numentries (p : Partition) : Z :=
  sumZ (map range_numentries (ranges p)).

Record PartitionSet := mkPartitionSet {
  treepath : string;
  branchdtypes : dict dtype;
  branchcounters : dict string;
  numpartitions : Z;
  numentries : Z;
  partitions : list Partition }.

(** One positional argument of [PartitionSet(..., *partitions)]: a
    [Partition], or, as [fromJson] passes it, a whole list. *)
Inductive PartitionArg :=
| a_partition (p : Partition)
| a_list (l : list Partition).

(** [x.index]: the field of a [Partition], the bound method of a [list]. *)
Inductive IndexAttr :=
| index_int (i : Z)
| index_method.

Definition arg_index (x : PartitionArg) : IndexAttr :=
  match x with
  | a_partition p => index_int (index p)
  | a_list _ => index_method
  end.

(** [[x.index for x in partitions] == list(range(n))] *)
Fixpoint indices_are_range (xs : list PartitionArg) (i : Z) : bool :=
  match xs with
  | [] => true
  | x :: xs =>
      match arg_index x with
      | index_int j => (j =? i) && indices_are_range xs (i + 1)
      | index_method => false
      end
  end.

(** [x.numentries], [x.ranges]: a [list] has neither attribute. *)
Definition arg_partition (x : PartitionArg) : result Partition :=
  match x with
  | a_partition p => Ok p
  | a_list _ => Raise AttributeError
  end.

Fixpoint mapM {A B} (f : A -> result B) (l : list A) : result (list B) :=
  match l with
  | [] => Ok []
  | a :: l => b ← f a; bs ← mapM f l; Ok (b :: bs)
  end.

(** Lines 132-140: the walk over all ranges.  [lastpath] starts as [None]. *)
Fixpoint check_ranges (lastpath : option string) (last : Z) (rs : list Range) : bool :=
  match rs with
  | [] => true
  | r :: rs =>
      (if negb (bool_decide (lastpath = Some (path r))) then entrystart r =? 0
       else entrystart r =? last)
      && check_ranges (Some (path r)) (entryend r) rs
  end.

(** [PartitionSet.__init__], lines 128-147: the constructor once
    [branchdtypes] has passed the check of lines 126-127, as it does in every
    call made by this module ([fill], line 244, and [fromJson], line 163,
    pass a [dict]).  The check itself is in [PartitionSet__init__] below. *)
Definition PartitionSet_init (treepath : string) (branchdtypes : dict dtype)
    (branchcounters : dict string) (numpartitions numentries : Z)
    (partitions : list PartitionArg) : result PartitionSet :=
  if negb (numpartitions =? len partitions) then Raise AssertionError
  else if negb (indices_are_range partitions 0) then Raise AssertionError
  else
    ps ← mapM arg_partition partitions;
    if negb (numentries =? sumZ (map partition_numentries ps)) then Raise AssertionError
    else if negb (check_ranges None 0 (concat (map ranges ps))) then Raise AssertionError
    else Ok (mkPartitionSet treepath branchdtypes branchcounters
               numpartitions numentries ps).

(** What a caller may pass as [branchdtypes]: a [dict], or any other
    object. *)
Inductive BranchDtypesArg :=
  | bd_dict (d : dict dtype)
  | bd_other.

(** [PartitionSet.__init__], lines 125-147, for any [branchdtypes]: lines
    126-127 raise [TypeError] before any assertion is evaluated. *)
Definition PartitionSet__init__ (treepath : string) (branchdtypes : BranchDtypesArg)
    (branchcounters : dict string) (numpartitions numentries : Z)
    (partitions : list PartitionArg) : result PartitionSet :=
  match branchdtypes with
  | bd_other => Raise TypeError
  | bd_dict d =>
      PartitionSet_init treepath d branchcounters numpartitions numentries partitions
  end.

(** ** The tree reader *)

(** Modelled from the spec: the opaque tree reader ([uproot.tree], not part
    of the sources) exposes [numentries], [allbranches], per branch [name],
    [dtype], [itemdims], [numbaskets], [basketstart(i)], [basketentries(i)],
    [basketbytes(i)], and a [counter] mapping. *)
Record Branch := mkBranch {
  name : string;
  b_dtype : option dtype;          (* [getattr(branch, "dtype", None)] *)
  itemdims : list Z;
  numbaskets : Z;
  basketstart : Z -> Z;
  basketentries : Z -> Z;
  basketbytes : Z -> Z }.

Record TTree := mkTTree {
  t_numentries : Z;
  allbranches : list Branch;
  counter : dict string }.         (* countee -> [counter.branch] *)

(** [tree[branchname]] *)
Fixpoint tree_getitem (bs : list Branch) (branchname : string) : result Branch :=
  match bs with
  | [] => Raise (KeyError branchname)
  | b :: bs => if String.eqb (name b) branchname then Ok b else tree_getitem bs branchname
  end.

(** Modelled from the spec: the selection normalizer
    ([TTree._normalizeselection]) for a [branchdtypes] given as a function
    from branches to a dtype or [None]: the branches mapped to a dtype, in
    the order of [allbranches]. *)
Definition normalizeselection (branchdtypes : Branch -> option dtype)
    (branches : list Branch) : list (Branch * dtype) :=
  omap (fun b => match branchdtypes b with Some d => Some (b, d) | None => None end)
       branches.

(** ** Schema validation, lines 250-266 *)

(** Python does not fix the order in which a [set] is iterated; the model
    walks the keys of the first dict, then the new keys of the second. *)
Definition set_union (a b : list string) : list string :=
  a ++ List.filter (fun k => negb (existsb (String.eqb k) a)) b.

(** Lines 251-257, over the keys [ks] of the union. *)
Fixpoint check_branches (here prev : string) (toget : dict dtype)
    (newtoget : dict dtype) (ks : list string) : result (dict dtype) :=
  match ks with
  | [] => Ok newtoget
  | key :: ks =>
      match dict_get newtoget key with
      | None => Raise (BranchNotFound key here prev)
      | Some dnew =>
          match dict_get toget key with
          | None => check_branches here prev toget (dict_del newtoget key) ks
          | Some dold =>
              if negb (String.eqb dnew dold) then Raise (DtypeDiffers key here prev)
              else check_branches here prev toget newtoget ks
          end
      end
  end.

(** Lines 260-266, over the keys [ks] of the union. *)
Fixpoint check_counters (here prev : string) (counters : dict string)
    (newcounters : dict string) (ks : list string) : result (dict string) :=
  match ks with
  | [] => Ok newcounters
  | key :: ks =>
      match dict_get newcounters key with
      | None => Raise (CounterNotFound key here prev)
      | Some cnew =>
          match dict_get counters key with
          | None => check_counters here prev counters (dict_del newcounters key) ks
          | Some cold =>
              if negb (String.eqb cnew cold) then Raise (CounterDiffers key here prev)
              else check_counters here prev counters newcounters ks
          end
      end
  end.

(** ** [PartitionSet.fill] *)

Section Fill.

(** The expanded [paths] (lines 226-240) with the tree that
    [uproot.open(path)[treepath]] gives for each, and the arguments of [fill]:
    [branchdtypes] as a function on branches, [by] and [under]. *)
Variable files : list (string * TTree).
Variable treepath : string.
Variable branchdtypes_arg : Branch -> option dtype.
Variable by_ : list Partition -> result Partition.
Variable under : list BasketData -> bool.

Definition paths : list string := map fst files.

(** [dict((b.name, d) for b, d in _normalizeselection(branchdtypes, t.allbranches))] *)
Definition selection (t : TTree) : dict dtype :=
  dict_of_list (map (fun bd => (name (fst bd), snd bd))
                    (normalizeselection branchdtypes_arg (allbranches t))).

(** [dict((countee, counter.branch) for countee, counter in t.counter.items())] *)
Definition counters_of (t : TTree) : dict string := dict_of_list (counter t).

(** [paths[i]] inside an error message. *)
Definition path_at (i : Z) : string := default ""%string (paths !! Z.to_nat i).

(** [tree(i)], lines 246-268.  [trees] caches the opened trees, so a file is
    validated when it is first opened; validation depends on the file only, so
    the model validates at every call.  [trees[0]] is stored unvalidated at
    line 243. *)
Definition tree (toget : dict dtype) (counters : dict string) (i : Z) : result TTree :=
  '(here, t) ← getitem files i;
  if i =? 0 then Ok t
  else
    let newtoget := selection t in
    _ ← check_branches here (path_at (i - 1)) toget newtoget
          (set_union (dict_keys toget) (dict_keys newtoget));
    let newcounters := counters_of t in
    _ ← check_counters here (path_at (i - 1)) counters newcounters
          (set_union (dict_keys counters) (dict_keys newcounters));
    Ok t.

(** [tree(i)[branchname]] *)
Definition tree_branch (toget : dict dtype) (counters : dict string)
    (i : Z) (branchname : string) : result Branch :=
  t ← tree toget counters i; tree_getitem (allbranches t) branchname.

(** Lines 285-287; [basketi] keeps its previous value when the range is empty. *)
Fixpoint search_basket (branch : Branch) (entryi : Z) (candidates : list Z)
    (basketi : Z) : Z :=
  match candidates with
  | [] => basketi
  | b :: rest =>
      if (b + 1 =? numbaskets branch) || (basketstart branch (b + 1) >? entryi)
      then b
      else search_basket branch entryi rest b
  end.

(** [range(n)] *)
Definition range (n : Z) : list Z := map Z.of_nat (seq 0 (Z.to_nat n)).

(** Lines 300-307: the [BasketData] appended for basket [basketi] of [branch]
    under the path of file [pathi]. *)
Definition basket_datum (p branchname : string) (dt : dtype) (branch : Branch)
    (pathi basketi : Z) : BasketData :=
  mkBasketData p branchname dt (itemdims branch)
    (basketstart branch basketi)
    (basketstart branch basketi + basketentries branch basketi)
    (basketbytes branch basketi) pathi.

(** Lines 291-316, the loop [while True].  Line 298 binds the branch of the
    next file to the name [basket], which is never read: [branch] stays the
    branch the loop started with.  Returns [pathi], [basketi], [basketdata]. *)
Fixpoint accumulate (fuel : nat) (toget : dict dtype) (counters : dict string)
    (branchname : string) (dt : dtype) (branch : Branch)
    (pathi basketi : Z) (basketdata : list BasketData)
    : result (Z * Z * list BasketData) :=
  match fuel with
  | O => Raise OutOfFuel
  | S fuel =>
      let append pathi basketi :=
        p ← getitem paths pathi;
        let basketdata :=
          basketdata ++ [basket_datum p branchname dt branch pathi basketi] in
        if existsb (fun x => bd_entrystart x =? bd_entryend x) basketdata
        then Raise AssertionError
        else if negb (under basketdata)
             then Ok (pathi, basketi, removelast basketdata)
             else accumulate fuel toget counters branchname dt branch
                    pathi (basketi + 1) basketdata in
      if basketi >=? numbaskets branch then
        let pathi := pathi + 1 in
        let basketi := 0 in
        if pathi >=? len paths then Ok (pathi, basketi, basketdata)
        else
          basket ← tree_branch toget counters pathi branchname;
          append pathi basketi
      else append pathi basketi
  end.

(** Enough steps for the loop above to end. *)
Definition accumulate_fuel (branch : Branch) (pathi basketi : Z) : nat :=
  S (S (Z.to_nat (Z.max 0 (len paths - pathi) * (Z.max (numbaskets branch) 1 + 1)
                  + Z.max 0 (numbaskets branch - basketi)))).

(** Lines 322-328. *)
Definition set_entryend (v : Z) (r : Range) : Range :=
  mkRange (path r) (entrystart r) v (rpathi r).
Definition set_entrystart (v : Z) (r : Range) : Range :=
  mkRange (path r) v (entryend r) (rpathi r).

Fixpoint make_ranges (basketdata : list BasketData) (ranges : list Range)
    : list Range :=
  match basketdata with
  | [] => ranges
  | x :: basketdata =>
      match last ranges with
      | Some r =>
          if negb (rpathi r =? bd_pathi x)
          then make_ranges basketdata
                 (ranges ++ [mkRange (bd_path x) (bd_entrystart x) (bd_entryend x) (bd_pathi x)])
          else make_ranges basketdata
                 (removelast ranges ++ [set_entryend (bd_entryend x) r])
      | None =>
          make_ranges basketdata
            (ranges ++ [mkRange (bd_path x) (bd_entrystart x) (bd_entryend x) (bd_pathi x)])
      end
  end.

(** Where the growth of one branch starts, lines 276-287:
    [pathi], [basketi], [entryi], [branch]. *)
Definition growth_start (toget : dict dtype) (counters : dict string)
    (partitions : list Partition) (basketi : Z) (branchname : string)
    : result (Z * Z * Z * Branch) :=
  match last partitions with
  | None =>
      branch ← tree_branch toget counters 0 branchname;
      Ok (0, 0, 0, branch)
  | Some lastp =>
      r ← getlast (ranges lastp);
      let pathi := rpathi r in
      let entryi := entryend r in
      branch ← tree_branch toget counters pathi branchname;
      Ok (pathi, search_basket branch entryi (range (numbaskets branch)) basketi,
          entryi, branch)
  end.

(** Lines 330-334: the first range starts where the last partition ended. *)
Definition align_first (partitions : list Partition) (ranges : list Range)
    : result (list Range) :=
  match last partitions with
  | None => Ok ranges
  | Some lastp =>
      r ← getlast (Planner.ranges lastp);
      match ranges with
      | [] => Raise IndexError
      | r0 :: rest =>
          if rpathi r =? rpathi r0 then Ok (set_entrystart (entryend r) r0 :: rest)
          else Ok (set_entrystart 0 r0 :: rest)
      end
  end.

(** The body of the loop over the branches, lines 275-336: the candidate
    partition of one branch, and the value [basketi] is left with. *)
Definition candidate (toget : dict dtype) (counters : dict string)
    (partitions : list Partition) (partitioni basketi : Z)
    (branchname : string) (dt : dtype) : result (Partition * Z) :=
  '(pathi, basketi, entryi, branch) ←
     growth_start toget counters partitions basketi branchname;
  '(pathi, basketi, basketdata) ←
     accumulate (accumulate_fuel branch pathi basketi) toget counters
       branchname dt branch pathi basketi [];
  if len basketdata =? 0 then
    p ← getitem paths pathi;
    Raise (CannotSatisfy branchname entryi p)
  else
    ranges ← align_first partitions (make_ranges basketdata []);
    Ok (mkPartition partitioni
          (List.filter (fun r => negb (entrystart r =? entryend r)) ranges),
        basketi).

(** Lines 273-336: the candidates of all branches, in the order of [toget]. *)
Fixpoint candidates (toget0 : dict dtype) (counters : dict string)
    (partitions : list Partition) (partitioni basketi : Z)
    (branches : dict dtype) (possiblenext : list Partition)
    : result (list Partition * Z) :=
  match branches with
  | [] => Ok (possiblenext, basketi)
  | (branchname, dt) :: branches =>
      '(c, basketi) ← candidate toget0 counters partitions partitioni basketi
                        branchname dt;
      candidates toget0 counters partitions partitioni basketi branches
        (possiblenext ++ [c])
  end.

(** The condition of the loop, line 272. *)
Definition more_to_do (toget : dict dtype) (counters : dict string)
    (partitions : list Partition) : result bool :=
  match last partitions with
  | None => Ok true
  | Some lastp =>
      r ← getlast (ranges lastp);
      lastpath ← getlast paths;
      if negb (String.eqb (path r) lastpath) then Ok true
      else
        t ← tree toget counters (len paths - 1);
        Ok (entryend r <? t_numentries t)
  end.

(** Lines 272-345.  Line 342 reads [partitions[-1].ranges[0]]; dropping the
    cached trees has no other effect in the model. *)
Fixpoint fill_loop (fuel : nat) (toget : dict dtype) (counters : dict string)
    (partitions : list Partition) (partitioni basketi : Z)
    : result (list Partition) :=
  more ← more_to_do toget counters partitions;
  if more : bool then
    match fuel with
    | O => Raise OutOfFuel
    | S fuel =>
        '(possiblenext, basketi) ←
           candidates toget counters partitions partitioni basketi toget [];
        chosen ← by_ possiblenext;
        _ ← getitem (ranges chosen) 0;
        fill_loop fuel toget counters (partitions ++ [chosen]) (partitioni + 1) basketi
    end
  else Ok partitions.

(** [PartitionSet.fill], lines 242-347; [fuel] bounds the number of
    partitions. *)
Definition fill (fuel : nat) : result PartitionSet :=
  '(_, tree0) ← getitem files 0;
  let toget := selection tree0 in
  let counters := counters_of tree0 in
  partitions ← fill_loop fuel toget counters [] 0 0;
  PartitionSet_init treepath toget counters (len partitions)
    (sumZ (map partition_numentries partitions))
    (map a_partition partitions).

End Fill.

(** ** JSON, lines 79-84, 104-109, 152-174 *)

(** The values [json.loads] produces (without floats). *)
#[local] Unset Elimination Schemes.
Inductive json :=
| JNull
| JBool (b : bool)
| JInt (n : Z)
| JStr (s : string)
| JList (items : list json)
| JObj (members : list (string * json)).
#[local] Set Elimination Schemes.

Definition Range_toJson (r : Range) : json :=
  JObj [("path", JStr (path r)); ("entrystart", JInt (entrystart r));
        ("entryend", JInt (entryend r))]%string.

Definition Partition_toJson (p : Partition) : json :=
  JObj [("index", JInt (index p));
        ("ranges", JList (map Range_toJson (ranges p)))]%string.

(** [PartitionSet.toJson]; a dtype is written as [str(d)], its name. *)
Definition toJson (ps : PartitionSet) : json :=
  JObj [("treepath", JStr (treepath ps));
        ("branchdtypes", JObj (map (fun bd => (fst bd, JStr (snd bd))) (branchdtypes ps)));
        ("branchcounters", JObj (map (fun bc => (fst bc, JStr (snd bc))) (branchcounters ps)));
        ("numpartitions", JInt (numpartitions ps));
        ("numentries", JInt (numentries ps));
        ("partitions", JList (map Partition_toJson (partitions ps)))]%string.

(** [obj[key]] *)
Definition json_getitem (obj : json) (key : string) : result json :=
  match obj with
  | JObj members =>
      match dict_get members key with
      | Some v => Ok v
      | None => Raise (KeyError key)
      end
  | _ => Raise TypeError
  end.

(** The fields of the records are typed; a JSON value of another type than
    the shape of the format has is rejected with [TypeError]. *)
Definition as_str (v : json) : result string :=
  match v with JStr s => Ok s | _ => Raise TypeError end.
Definition as_int (v : json) : result Z :=
  match v with JInt n => Ok n | _ => Raise TypeError end.
Definition as_list (v : json) : result (list json) :=
  match v with JList l => Ok l | _ => Raise TypeError end.
Definition as_str_dict (v : json) : result (dict string) :=
  match v with
  | JObj members =>
      mapM (fun kv => s ← as_str (snd kv); Ok (fst kv, s)) members
  | _ => Raise TypeError
  end.

(** [Range.fromJson]; the range has no [_pathi], modelled as [-1]. *)
Definition Range_fromJson (obj : json) : result Range :=
  p ← json_getitem obj "path" ≫= as_str;
  s ← json_getitem obj "entrystart" ≫= as_int;
  e ← json_getitem obj "entryend" ≫= as_int;
  Ok (mkRange p s e (-1)).

Definition Partition_fromJson (obj : json) : result Partition :=
  i ← json_getitem obj "index" ≫= as_int;
  rs ← json_getitem obj "ranges" ≫= as_list;
  rs ← mapM Range_fromJson rs;
  Ok (mkPartition i rs).

Section FromJson.

(** [numpy.dtype(name)], and [json.loads]. *)
Variable numpy_dtype : string -> result dtype.
Variable json_loads : string -> result json.

(** [b, d = x] for one element [x] of the iteration in line 163. *)
Definition unpack_pair (x : json) : result (string * string) :=
  match x with
  | JStr (String c1 (String c2 EmptyString)) =>
      Ok (String c1 EmptyString, String c2 EmptyString)
  | JStr _ => Raise UnpackError
  | JList [b; d] => b ← as_str b; d ← as_str d; Ok (b, d)
  | JList _ => Raise UnpackError
  | JObj [(k1, _); (k2, _)] => Ok (k1, k2)
  | JObj _ => Raise UnpackError
  | _ => Raise TypeError
  end.

(** What [for x in v] walks: the keys of an object, the items of a list, the
    characters of a string. *)
Definition iterate (v : json) : result (list json) :=
  match v with
  | JObj members => Ok (map (fun kv => JStr (fst kv)) members)
  | JList items => Ok items
  | JStr s => Ok (map (fun c => JStr (String c EmptyString)) (String.list_ascii_of_string s))
  | _ => Raise TypeError
  end.

(** [dict((b, numpy.dtype(d)) for b, d in v)], line 163. *)
Definition read_branchdtypes (v : json) : result (dict dtype) :=
  xs ← iterate v;
  pairs ← mapM (fun x => '(b, d) ← unpack_pair x; d ← numpy_dtype d; Ok (b, d)) xs;
  Ok (dict_of_list pairs).

(** [PartitionSet.fromJson], lines 161-167: the list of partitions is passed
    as one positional argument. *)
Definition fromJson (obj : json) : result PartitionSet :=
  tp ← json_getitem obj "treepath" ≫= as_str;
  bd ← json_getitem obj "branchdtypes" ≫= read_branchdtypes;
  bc ← json_getitem obj "branchcounters" ≫= as_str_dict;
  np ← json_getitem obj "numpartitions" ≫= as_int;
  ne ← json_getitem obj "numentries" ≫= as_int;
  ps ← json_getitem obj "partitions" ≫= as_list;
  ps ← mapM Partition_fromJson ps;
  PartitionSet_init tp bd bc np ne [a_list ps].

(** [PartitionSet.fromJsonString], line 174. *)
Definition fromJsonString (s : string) : result PartitionSet :=
  obj ← json_loads s; fromJson obj.

End FromJson.

(** ** [iterator], lines 349-438 *)

Section Iterator.

(** Arrays come from numpy and from the tree reader, both outside the
    sources: [array] with [numpy.concatenate] and the empty array of a
    dtype; [tree.iterator(entries, ..., reportentries=True)] of the tree
    opened at a path, as the list of [(entrystart, entryend, arrays)] it
    yields; and the conversion of the arrays of a partition to [outputtype]
    (lines 402-409).  The model covers an [outputtype] other than
    [namedtuple]. *)
Variable array : Type.
Variable output_value : Type.
Variable concatenate : list array -> array.
Variable empty_array : dtype -> array.
Variable tree_iterator : string -> list (Z * Z) -> list (Z * Z * dict array).
Variable outputtype : dict array -> output_value.

Variable partitionset : PartitionSet.

Definition TreeData := dict (list (Z * Z * dict array)).

Definition matches (filerange : Range) (x : Z * Z * dict array) : bool :=
  (fst (fst x) =? entrystart filerange) && (snd (fst x) =? entryend filerange).

(** [complete], lines 375-379, for a partition. *)
Definition complete_partition (treedata : TreeData) (p : Partition) : bool :=
  forallb (fun filerange =>
             match dict_get treedata (path filerange) with
             | None => false
             | Some l => existsb (matches filerange) l
             end)
          (ranges p).

Definition complete (treedata : TreeData) (nextpartition : Z) : result bool :=
  p ← getitem (partitions partitionset) nextpartition;
  Ok (complete_partition treedata p).

(** Lines 386-387: [arraylists[name].append(array)] for the items of [arrays]. *)
Fixpoint append_arrays (arrays : dict array) (arraylists : dict (list array))
    : result (dict (list array)) :=
  match arrays with
  | [] => Ok arraylists
  | (nm, a) :: arrays =>
      match dict_get arraylists nm with
      | None => Raise (KeyError nm)
      | Some l => append_arrays arrays (dict_set arraylists nm (l ++ [a]))
      end
  end.

(** Lines 384-388, the loop over [enumerate(treedata[filerange.path])]:
    the value [used] is left with and the array lists. *)
Fixpoint scan (filerange : Range) (l : list (Z * Z * dict array)) (i : Z)
    (used : option Z) (arraylists : dict (list array))
    : result (option Z * dict (list array)) :=
  match l with
  | [] => Ok (used, arraylists)
  | x :: l =>
      if matches filerange x then
        arraylists ← append_arrays (snd x) arraylists;
        Ok (Some i, arraylists)
      else scan filerange l (i + 1) (Some i) arraylists
  end.

(** Lines 383-391, the loop over the ranges of the partition. *)
Fixpoint consume (rs : list Range) (used : option Z) (treedata : TreeData)
    (arraylists : dict (list array)) : result (TreeData * dict (list array)) :=
  match rs with
  | [] => Ok (treedata, arraylists)
  | filerange :: rs =>
      match dict_get treedata (path filerange) with
      | None => Raise (KeyError (path filerange))
      | Some l =>
          '(used, arraylists) ← scan filerange l 0 used arraylists;
          match used with
          | None => Raise UnboundLocalError
          | Some u =>
              let rest := drop (Z.to_nat (u + 1)) l in
              let treedata := dict_set treedata (path filerange) rest in
              let treedata := if len rest =? 0
                              then dict_del treedata (path filerange)
                              else treedata in
              consume rs (Some u) treedata arraylists
          end
      end
  end.

(** Lines 393-400. *)
Definition outarray (nm : string) (arraylist : list array) : result array :=
  match arraylist with
  | [] => match dict_get (branchdtypes partitionset) nm with
          | Some d => Ok (empty_array d)
          | None => Raise (KeyError nm)
          end
  | [a] => Ok a
  | _ => Ok (concatenate arraylist)
  end.

(** [output], lines 381-409: the new [treedata] and the value to yield. *)
Definition output (treedata : TreeData) (nextpartition : Z)
    : result (TreeData * output_value) :=
  p ← getitem (partitions partitionset) nextpartition;
  let arraylists := map (fun bd => (fst bd, @nil array)) (branchdtypes partitionset) in
  '(treedata, arraylists) ← consume (ranges p) None treedata arraylists;
  outarrays ← mapM (fun na => a ← outarray (fst na) (snd na); Ok (fst na, a)) arraylists;
  Ok (treedata, outputtype outarrays).

(** One [yield]: the index of the partition, the [treedata] that [complete]
    saw (a ghost of the model), and the value. *)
Record Yield := mkYield {
  y_index : Z;
  y_treedata : TreeData;
  y_value : output_value }.

(** The state of the generator; [failure] holds the exception that ended it. *)
Record Iter := mkIter {
  treedata_ : TreeData;
  oldpath : option string;
  entries : list (Z * Z);
  nextpartition_ : Z;
  yields : list Yield;
  failure : option Exn }.

(** Lines 423-428 and 433-438: the loop
    [while nextpartition < len(partitionset.partitions)]; it runs at most
    once per partition, which [fuel] counts. *)
Fixpoint emit (fuel : nat) (st : Iter) : Iter :=
  match fuel with
  | O => st
  | S fuel =>
      if nextpartition_ st <? len (partitions partitionset) then
        match complete (treedata_ st) (nextpartition_ st) with
        | Raise e => mkIter (treedata_ st) (oldpath st) (entries st)
                       (nextpartition_ st) (yields st) (Some e)
        | Ok false => st
        | Ok true =>
            match output (treedata_ st) (nextpartition_ st) with
            | Raise e => mkIter (treedata_ st) (oldpath st) (entries st)
                           (nextpartition_ st) (yields st) (Some e)
            | Ok (treedata, v) =>
                emit fuel
                  (mkIter treedata (oldpath st) (entries st)
                     (nextpartition_ st + 1)
                     (yields st ++ [mkYield (nextpartition_ st) (treedata_ st) v])
                     None)
            end
        end
      else st
  end.

(** Lines 414-421, for one range. *)
Definition walk_range (st : Iter) (filerange : Range) : Iter :=
  let st :=
    if negb (bool_decide (oldpath st = Some (path filerange))) then
      let treedata :=
        match oldpath st with
        | Some old => dict_set (treedata_ st) old (tree_iterator old (entries st))
        | None => treedata_ st
        end in
      mkIter treedata (oldpath st) [] (nextpartition_ st) (yields st) (failure st)
    else st in
  mkIter (treedata_ st) (Some (path filerange))
    (entries st ++ [(entrystart filerange, entryend filerange)])
    (nextpartition_ st) (yields st) (failure st).

(** Lines 413-428, the loop over the partitions; an exception ends it. *)
Fixpoint walk (ps : list Partition) (st : Iter) : Iter :=
  match ps with
  | [] => st
  | partition :: ps =>
      let st := fold_left walk_range (ranges partition) st in
      let st := emit (length (partitions partitionset)) st in
      match failure st with
      | Some _ => st
      | None => walk ps st
      end
  end.

(** [iterator], lines 411-438. *)
Definition iterator : Iter :=
  let st := walk (partitions partitionset) (mkIter [] None [] 0 [] None) in
  match failure st with
  | Some _ => st
  | None =>
      let treedata :=
        match oldpath st with
        | Some old => dict_set (treedata_ st) old (tree_iterator old (entries st))
        | None => treedata_ st
        end in
      emit (length (partitions partitionset))
        (mkIter treedata (oldpath st) (entries st) (nextpartition_ st) (yields st) None)
  end.

End Iterator.

(** The default [by]: [min(choices, key=lambda x: x.numentries)], the first
    of the smallest. *)
Fixpoint min_by_numentries (best : Partition) (choices : list Partition) : Partition :=
  match choices with
  | [] => best
  | c :: choices =>
      if partition_numentries c <? partition_numentries best
      then min_by_numentries c choices
      else min_by_numentries best choices
  end.

Definition default_by (choices : list Partition) : result Partition :=
  match choices with
  | [] => Raise EmptyChoices
  | c :: choices => Ok (min_by_numentries c choices)
  end.

(** The default [under]: [sum(x.numbytes for x in baskets) < 10*1024**2]. *)
Definition default_under (baskets : list BasketData) : bool :=
  sumZ (map bd_numbytes baskets) <? 10 * 1024 ^ 2.

(** The default [branchdtypes]: [lambda branch: getattr(branch, "dtype", None)]. *)
Definition default_branchdtypes (branch : Branch) : option dtype := b_dtype branch.

End Planner.

(** * The vocabulary of the properties *)

Module WriterSpec.
Import NewWriter.

(** The values assigned to [header.fEND] and to [header.fSeekFree], oldest
    first; each list starts with the value of the fresh header. *)
Definition fEND_history (t : list Event) : list Z :=
  reverse (omap (fun e => match e with AssignEND v => Some v | _ => None end) t).
Definition fSeekFree_history (t : list Event) : list Z :=
  reverse (omap (fun e => match e with AssignSeekFree v => Some v | _ => None end) t).

(** No element is smaller than the one before it. *)
Definition nondecreasing (l : list Z) : Prop :=
  forall i a b, l !! i = Some a -> l !! S i = Some b -> a <= b.

(** The object payloads stored so far, latest first. *)
Definition objects_written (t : list Event) : list string :=
  omap (fun e => match e with SetObject _ s => Some s | _ => None end) t.

(** What [__init__] establishes and every step of [__setitem__] keeps. *)
Record offsets_ok (w : Writer) : Prop := {
  ok_expander : expander w = 500;
  ok_expanderpow : expanderpow w = 2;
  ok_END_sorted : nondecreasing (fEND_history (trace w));
  ok_Free_sorted : nondecreasing (fSeekFree_history (trace w));
  ok_END_last : last (fEND_history (trace w)) = Some (fEND (header w));
  ok_Free_last : last (fSeekFree_history (trace w)) = Some (fSeekFree (header w));
  ok_Free_le_END : fSeekFree (header w) <= fEND (header w) }.

(** Two writers with the same constants, header offsets and histories. *)
Definition same_offsets (w w' : Writer) : Prop :=
  expander w' = expander w /\ expanderpow w' = expanderpow w
  /\ fEND (header w') = fEND (header w)
  /\ fSeekFree (header w') = fSeekFree (header w)
  /\ fEND_history (trace w') = fEND_history (trace w)
  /\ fSeekFree_history (trace w') = fSeekFree_history (trace w).

(** The constructor blocks before the key list leave the two offsets of the
    fresh header alone and only move the cursor forward. *)
Definition init_block_ok (h0 : Header) (w : Writer) : Prop :=
  expander w = 500 /\ expanderpow w = 2
  /\ fEND (header w) = fEND h0 /\ fSeekFree (header w) = fSeekFree h0
  /\ fEND_history (trace w) = [fEND h0]
  /\ fSeekFree_history (trace w) = [fSeekFree h0]
  /\ fBEGIN h0 <= cursor w.

(** The strings of the [TObjString] values among the inserts, oldest first. *)
Definition strings_of (ops : list (string * Item)) : list string :=
  omap (fun op => match snd op with TObjString s => Some s | _ => None end) ops.

(** Two writers with the same key counter and the same objects stored. *)
Definition same_counts (w w' : Writer) : Prop :=
  nkeys w' = nkeys w
  /\ objects_written (trace w') = objects_written (trace w).

(** The directory and the head key after lines 179-185. *)
Definition updated_directory (w : Writer) : DirectoryInfo :=
  dir_set_fNbytesKeys (fEND (header w) - keyend w) (directory w).
Definition updated_head_key (w : Writer) : Key :=
  mkKey (kclass (head_key w)) (kName (head_key w))
    (fEND (header w) - keyend w)
    (head_key_end w - head_key_pointcheck w)
    (fEND (header w) - keyend w - (head_key_end w - head_key_pointcheck w))
    (fSeekKey (head_key w)).

(** The constants of the writer and the order of the two header offsets. *)
Definition offsets_consistent (w : Writer) : Prop :=
  expander w = 500 /\ expanderpow w = 2
  /\ fSeekFree (header w) <= fEND (header w).

(** The bytes of the key list in use: from [fSeekKeys] to [keyend]. *)
Definition keylist_length (w : Writer) : Z := keyend w - fSeekKeys (directory w).


(** The type registry before and after the first [TObjString]. *)
Definition registry_ok (w : Writer) : Prop :=
  (streamers w = [] /\ streamerlimit w - streamerend w = 500)
  \/ streamers w = ["TObjString"%string].

(** The key counters stored so far, each with its offset, latest first. *)
Definition numbers_written (t : list Event) : list (Z * Z) :=
  omap (fun e => match e with SetNumbers pos n => Some (pos, n) | _ => None end) t.

(** What the steps of [__setitem__] other than the key steps leave alone:
    the fixed offsets, the key counter and where it was stored, and the
    length of the key list. *)
Definition quiet_keys (w w' : Writer) : Prop :=
  head_key_pointcheck w' = head_key_pointcheck w
  /\ head_key_end w' = head_key_end w
  /\ directory_pointcheck w' = directory_pointcheck w
  /\ nkeys w' = nkeys w
  /\ numbers_written (trace w') = numbers_written (trace w)
  /\ keylist_length w' = keylist_length w.

(** What the steps other than the streamer step leave alone. *)
Definition quiet_streamers (w w' : Writer) : Prop :=
  streamers w' = streamers w
  /\ streamerend w' = streamerend w
  /\ streamerlimit w' = streamerlimit w
  /\ fSeekInfo (header w') = fSeekInfo (header w).

(** The counters [first], [first + 1], ... of [n] stores at [pos], latest
    first. *)
Definition counters_at (pos first : Z) (n : nat) : list (Z * Z) :=
  reverse (map (fun k => (pos, first + Z.of_nat k)) (seq 0 n)).

(** What the steps that store no object leave alone. *)
Definition quiet_header (w w' : Writer) : Prop :=
  cursor w' = cursor w /\ header w' = header w.

(** A key whose lengths add up. *)
Definition key_ok (k : Key) : Prop := fNbytes k = fKeylen k + fObjlen k.

(** The key stored last at the offset [pos]. *)
Fixpoint newest_key (t : list Event) (pos : Z) : option Key :=
  match t with
  | [] => None
  | SetKey p k :: t => if p =? pos then Some k else newest_key t pos
  | _ :: t => newest_key t pos
  end.

(** A step after which every key stored last at an offset is consistent or
    is the key that was there before. *)
Definition stores_ok_keys (w w' : Writer) : Prop :=
  forall pos k, newest_key (trace w') pos = Some k ->
                key_ok k \/ newest_key (trace w) pos = Some k.

(** A string without the character ["/"]. *)
Definition no_slash (s : string) : Prop :=
  existsb (Ascii.eqb "/"%char) (String.list_ascii_of_string s) = false.

Section WithLayout.
Context {L : Layout}.


(** The bytes lines 124-133 store for a [TObjString]: the junk key and the
    object. *)
Definition stored_bytes (keyname s : string) : Z :=
  len (ser_key (JunkKey keyname)) + len (ser_object s).

(** The file after the key-list relocation, byte by byte. *)
Definition relocated_file (w : Writer) (d : DirectoryInfo) (i : Z) : Z :=
  let e := fEND (header w) in
  let grown := da_resize (e + 250000) (file w) in
  if in_range (directory_pointcheck w) (len (ser_directoryinfo d)) i
  then default 0 (ser_directoryinfo d !! Z.to_nat (i - directory_pointcheck w))
  else if in_range e 500 i
       then da_data grown (fSeekKeys (directory w) + (i - e))
       else da_data grown i.

End WithLayout.

End WriterSpec.

(** The writer on concrete inserts, with the ROOT layout. *)
Module WriterSamples.
Import NewWriter RootLayout.

(** [n] strings ["x"] stored under the names ["a"], ["b"], ... *)
Definition sample (n : nat) : list (string * Item) :=
  map (fun i => (String (ascii_of_nat (97 + i)) "", TObjString "x")) (seq 0 n).

(** The four bytes that follow the head key at [directory.fSeekKeys]. *)
Definition key_count_bytes (w : Writer) : list Z :=
  da_read (file w) (fSeekKeys (directory w) + len (ser_key (head_key w))) 4.

(** The writer at line 118 of the sixth insert. *)
Definition sixth_insert_start : Writer :=
  let w := inserts (sample 5) (__init__ "dir/a.root") in
  set_cursor (fEND (header w)) w.

(** The writer just before the key-list check of the sixth insert. *)
Definition before_sixth_check : Writer :=
  place_object "f" "x" (inserts (sample 5) (__init__ "dir/a.root")).

End WriterSamples.

Module PlannerSpec.
Import Planner.

(** The selection of a later file once the keys [ks] have been walked: the
    keys that the first file does not select are deleted. *)
Definition drop_unselected (toget newtoget : dict dtype) (ks : list string) : dict dtype :=
  fold_left (fun cur k => if dict_mem toget k then cur else dict_del cur k) ks newtoget.

(** A key of [ks] that makes lines 252-257 raise. *)
Definition offending (toget newtoget : dict dtype) (k : string) : Prop :=
  dict_get newtoget k = None
  \/ exists dnew dold, dict_get newtoget k = Some dnew
                       /\ dict_get toget k = Some dold /\ dnew <> dold.

(** The error of line 319. *)
Definition is_cannot_satisfy (e : Exn) : bool :=
  match e with CannotSatisfy _ _ _ => true | _ => false end.

(** The errors of a failed lookup and of the schema validation. *)
Definition lookup_error (e : Exn) : bool :=
  match e with
  | IndexError | KeyError _ | BranchNotFound _ _ _ | DtypeDiffers _ _ _
  | CounterNotFound _ _ _ | CounterDiffers _ _ _ => true
  | _ => false
  end.

(** A range as JSON keeps it: without the attribute [_pathi]. *)
Definition forget_pathi (r : Range) : Range :=
  mkRange (path r) (entrystart r) (entryend r) (-1).

(** What lines 132-140 ask of the ranges of all partitions, in order: the
    first range starts at entry 0, and every other range starts where the
    range before it ended when both lie in one file, and at entry 0 when the
    file changes. *)
Definition ranges_chained (rs : list Range) : Prop :=
  (forall r, rs !! 0%nat = Some r -> entrystart r = 0)
  /\ forall i r1 r2, rs !! i = Some r1 -> rs !! S i = Some r2 ->
       (path r1 = path r2 -> entrystart r2 = entryend r1)
       /\ (path r1 <> path r2 -> entrystart r2 = 0).

(** Baskets the accumulation has accepted: [under] holds of every
    non-empty prefix, and no basket is empty. *)
Definition accepted (under : list BasketData -> bool) (bd : list BasketData) : Prop :=
  (forall n, (0 < n <= length bd)%nat -> under (take n bd) = true)
  /\ forall x, x ∈ bd -> bd_entrystart x <> bd_entryend x.

(** A partition as [fill] makes it: it has a range, and no range of it is
    empty. *)
Definition solid (p : Partition) : Prop :=
  ranges p <> [] /\ forall r, r ∈ ranges p -> entrystart r <> entryend r.

(** The baskets of a branch lie one after the other, none is empty, and
    together they hold the entries from 0 to [n]. *)
Definition consecutive_baskets (b : Branch) (n : Z) : Prop :=
  0 < numbaskets b
  /\ basketstart b 0 = 0
  /\ (forall i, 0 <= i < numbaskets b -> 0 < basketentries b i)
  /\ (forall i, 0 <= i -> i + 1 < numbaskets b ->
        basketstart b (i + 1) = basketstart b i + basketentries b i)
  /\ basketstart b (numbaskets b - 1) + basketentries b (numbaskets b - 1) = n.

(** Partitions grown over the one file [F] of [n] entries, up to entry [e]:
    each is one range of [F] that starts where the partition before it
    ended. *)
Inductive grown (F : string) (n : Z) : list Partition -> Z -> Prop :=
| grown_nil : grown F n [] 0
| grown_snoc ps e0 i e :
    grown F n ps e0 -> e0 < e <= n ->
    grown F n (ps ++ [mkPartition i [mkRange F e0 e 0]]) e.

(** The baskets [b0], ..., [b0 + k - 1] of [branch], as lines 300-307 record
    them for the file [pathi] at the path [p]. *)
Definition basket_run (p branchname : string) (dt : dtype) (branch : Branch)
    (pathi b0 : Z) (k : nat) : list BasketData :=
  map (fun j => basket_datum p branchname dt branch pathi (b0 + Z.of_nat j)) (seq 0 k).

(** Neighbouring ranges lie in different files. *)
Definition files_alternate (rs : list Range) : Prop :=
  forall i r1 r2, rs !! i = Some r1 -> rs !! S i = Some r2 -> rpathi r1 <> rpathi r2.

(** The range [r] spans baskets of one file among [all]: it takes its path
    and its first entry from one of them and its end from another. *)
Definition spans (all : list BasketData) (r : Range) : Prop :=
  exists a b, a ∈ all /\ b ∈ all
    /\ bd_pathi a = rpathi r /\ bd_pathi b = rpathi r
    /\ path r = bd_path a /\ entrystart r = bd_entrystart a
    /\ entryend r = bd_entryend b.

(** Every entry of [d] is an entry of [d']. *)
Definition dict_included {V} (d d' : dict V) : Prop :=
  forall k v, dict_get d k = Some v -> dict_get d' k = Some v.

(** The four errors of the validation of the file [here] against [prev]. *)
Definition schema_error (here prev : string) (e : Exn) : Prop :=
  exists k, e = BranchNotFound k here prev \/ e = DtypeDiffers k here prev
            \/ e = CounterNotFound k here prev \/ e = CounterDiffers k here prev.

Section Growth.
Variable files : list (string * TTree).
Variable branchdtypes_arg : Branch -> option dtype.
Variable by_ : list Partition -> result Partition.
Variable under : list BasketData -> bool.
Variable toget : dict dtype.
Variable counters : dict string.

(** The states in which the loop of line 272 is entered: the partitions made
    so far, [partitioni], and the value left in [basketi]. *)
Inductive loop_state : list Partition -> Z -> Z -> Prop :=
| loop_first : loop_state [] 0 0
| loop_next partitions partitioni basketi possiblenext basketi' chosen r0 :
    loop_state partitions partitioni basketi ->
    more_to_do files branchdtypes_arg toget counters partitions = Ok true ->
    candidates files branchdtypes_arg under toget counters partitions partitioni basketi toget [] = Ok (possiblenext, basketi') ->
    by_ possiblenext = Ok chosen ->
    getitem (ranges chosen) 0 = Ok r0 ->
    loop_state (partitions ++ [chosen]) (partitioni + 1) basketi'.

(** The growth of [branchname] after [partitions] ends with no basket: it
    starts at entry [entryi], and [p] is the path of the file the
    accumulation stopped in. *)
Definition zero_baskets (partitions : list Partition) (basketi : Z)
    (branchname : string) (dt : dtype) (entryi : Z) (p : string) : Prop :=
  exists pathi basketi0 branch pathi' basketi',
    growth_start files branchdtypes_arg toget counters partitions basketi branchname = Ok (pathi, basketi0, entryi, branch)
    /\ accumulate files branchdtypes_arg under (accumulate_fuel files branch pathi basketi0) toget counters
         branchname dt branch pathi basketi0 [] = Ok (pathi', basketi', [])
    /\ getitem (paths files) pathi' = Ok p.

(** Lines 292-298 on the first pass of the loop of line 291: the file and
    the basket that the first [BasketData] describes. *)
Definition first_basket (branch : Branch) (pathi basketi0 : Z) : Z * Z :=
  if basketi0 >=? numbaskets branch then (pathi + 1, 0) else (pathi, basketi0).

(** The first basket of the growth of [branchname] after [partitions]
    violates [under]: the growth starts at entry [entryi]; when the branch has
    no basket left in its file, the next file opens and has the branch; the
    first basket lies in the file at path [p] and is not empty (line 310);
    and [under] rejects the list of this one basket. *)
Definition first_basket_rejected (partitions : list Partition) (basketi : Z)
    (branchname : string) (dt : dtype) (entryi : Z) (p : string) : Prop :=
  exists pathi basketi0 branch,
    growth_start files branchdtypes_arg toget counters partitions basketi branchname = Ok (pathi, basketi0, entryi, branch)
    /\ (basketi0 >= numbaskets branch ->
          raises (tree_branch files branchdtypes_arg toget counters (pathi + 1) branchname) = false)
    /\ getitem (paths files) (fst (first_basket branch pathi basketi0)) = Ok p
    /\ basketentries branch (snd (first_basket branch pathi basketi0)) <> 0
    /\ under [basket_datum p branchname dt branch
                (fst (first_basket branch pathi basketi0))
                (snd (first_basket branch pathi basketi0))] = false.

(** In some growth of the run, the first basket of the branch [branchname]
    violates [under]: the loop of line 272 has reached [partitions] and goes
    on, the candidates of the branches selected before [branchname] were
    made, and the growth of [branchname] starts with a rejected basket. *)
Definition some_first_basket_rejected (branchname : string) (entryi : Z)
    (p : string) : Prop :=
  exists partitions partitioni basketi pre dt post possiblenext basketi',
    loop_state partitions partitioni basketi
    /\ more_to_do files branchdtypes_arg toget counters partitions = Ok true
    /\ toget = pre ++ (branchname, dt) :: post
    /\ candidates files branchdtypes_arg under toget counters partitions partitioni basketi pre [] = Ok (possiblenext, basketi')
    /\ first_basket_rejected partitions basketi' branchname dt entryi p.

End Growth.

Section Order.
Variable array : Type.
Variable output_value : Type.
Variable partitionset : PartitionSet.

(** The partitions 0, 1, ... were yielded, each when it was complete, and
    [nextpartition] counts them. *)
Definition in_order (st : Iter array output_value) : Prop :=
  nextpartition_ _ _ st = len (yields _ _ st)
  /\ map (y_index _ _) (yields _ _ st) = range (len (yields _ _ st))
  /\ (forall y, y ∈ yields _ _ st ->
        complete array partitionset (y_treedata _ _ y) (y_index _ _ y) = Ok true).

(** The arrays of one reported range as [output] returns them: one per
    selected branch, in the order of [branchdtypes]; a branch the range has
    no array for gets the empty array of its dtype. *)
Definition arrays_of_range (empty_array : dtype -> array) (arrays : dict array)
    : dict array :=
  map (fun bd => (fst bd,
                  match dict_get arrays (fst bd) with
                  | Some a => a
                  | None => empty_array (snd bd)
                  end))
      (branchdtypes partitionset).

(** [treedata] once only the entries [post] of the file [p] are left. *)
Definition treedata_left (treedata : TreeData array) (p : string)
    (post : list (Z * Z * dict array)) : TreeData array :=
  if len post =? 0 then dict_del (dict_set treedata p post) p
  else dict_set treedata p post.

End Order.

End PlannerSpec.

(** The planner on concrete files. *)
Module PlannerRuns.
Import Planner.

(** A branch of [int32] values from the entries and bytes of its baskets. *)
Definition branch_of (nm : string) (baskets : list (Z * Z)) : Branch :=
  mkBranch nm (Some "int32"%string) [] (len baskets)
    (fun i => sumZ (take (Z.to_nat i) (map fst baskets)))
    (fun i => default 0 (map fst baskets !! Z.to_nat i))
    (fun i => default 0 (map snd baskets !! Z.to_nat i)).

(** Two files with one branch ["x"]: 100 entries in one basket, then 50
    entries in one basket. *)
Definition file_A : string * TTree :=
  ("A.root"%string, mkTTree 100 [branch_of "x" [(100, 400)]] []).
Definition file_B : string * TTree :=
  ("B.root"%string, mkTTree 50 [branch_of "x" [(50, 200)]] []).

Definition fill_AB (fuel : nat) : result PartitionSet :=
  fill [file_A; file_B] "tree" default_branchdtypes default_by default_under fuel.

(** What [fill] returns for these two files. *)
Definition partitionset_AB : PartitionSet :=
  mkPartitionSet "tree" [("x", "int32")]%string [] 1 200
    [mkPartition 0 [mkRange "A.root" 0 100 0; mkRange "B.root" 0 100 1]].

(** A third file in which the branch is called ["y"]. *)
Definition file_C : string * TTree :=
  ("C.root"%string, mkTTree 100 [branch_of "y" [(100, 400)]] []).

(** An [under] that accepts every list of baskets. *)
Definition under_anything (baskets : list BasketData) : bool := true.

(** The ranges of a partition set that lie in the file [p], in order. *)
Definition ranges_of_path (p : string) (ps : PartitionSet) : list Range :=
  List.filter (fun r => String.eqb (path r) p) (concat (map ranges (partitions ps))).

(** The ranges start at [start], each starts where the one before ended, and
    the last ends at [stop]. *)
Fixpoint tiles (start : Z) (rs : list Range) (stop : Z) : bool :=
  match rs with
  | [] => start =? stop
  | r :: rs => (entrystart r =? start) && tiles (entryend r) rs stop
  end.

(** Grouped by path, the ranges tile [0, numentries) of every file. *)
Definition tiling (files : list (string * TTree)) (ps : PartitionSet) : bool :=
  forallb (fun f => tiles 0 (ranges_of_path (fst f) ps) (t_numentries (snd f))) files.

(** An [under] that rejects every list of baskets. *)
Definition under_nothing (baskets : list BasketData) : bool := false.

(** One file with one branch ["x"] of three baskets: 10, 20 and 30 entries. *)
Definition branch_D : Branch := branch_of "x" [(10, 40); (20, 80); (30, 120)].
Definition file_D : string * TTree :=
  ("D.root"%string, mkTTree 60 [branch_D] []).

(** An [under] that accepts at most two baskets. *)
Definition under_two (baskets : list BasketData) : bool := len baskets <=? 2.

(** What [fill] returns for the file [file_D] under [under_two]. *)
Definition partitionset_D : PartitionSet :=
  mkPartitionSet "tree" [("x", "int32")]%string [] 2 60
    [mkPartition 0 [mkRange "D.root" 0 30 0];
     mkPartition 1 [mkRange "D.root" 30 60 0]].

(** One partition over the 100 entries of the file ["A.root"], and the
    entry its tree reader reports for it. *)
Definition partitionset_A : PartitionSet :=
  mkPartitionSet "tree" [("x", "int32")]%string [] 1 100
    [mkPartition 0 [mkRange "A.root" 0 100 0]].
Definition reported_A : Z * Z * dict (list Z) := (0, 100, [("x"%string, [1; 2; 3])]).

(** A [branchdtypes] that selects no branch. *)
Definition select_nothing (branch : Branch) : option dtype := None.

(** A file whose branch ["x"] has no basket. *)
Definition branch_E : Branch := branch_of "x" [].
Definition file_E : string * TTree := ("E.root"%string, mkTTree 0 [branch_E] []).

(** A tree reader that reports no entries. *)
Definition silent_reader (p : string) (entries : list (Z * Z))
    : list (Z * Z * dict (list Z)) := [].

End PlannerRuns.

(** * Properties of the writer *)

Module WriterProps.
Import NewWriter WriterSpec.

Section WithLayout.
Context {L : Layout}.

(** C5: the key-list capacity check of [__setitem__].  When fewer than 200
    bytes are left below [keylimit], the file grows to the old [fEND] plus
    250000, the 500 bytes at [fSeekKeys] are copied to the old [fEND],
    [keyend] keeps its offset within the region, [fSeekKeys] becomes the old
    [fEND], [keylimit], [fEND] and [fSeekFree] become the old [fEND] plus
    250000, and the directory record is stored again at its fixed offset;
    otherwise the step changes nothing. *)
Theorem key_realloc_spec (w : Writer) :
  expander w = 500 -> expanderpow w = 2 ->
  let w' := key_realloc w in
  let e := fEND (header w) in
  (keylimit w - keyend w < 200 ->
     trace w' =
       [SetDirectoryInfo (directory_pointcheck w) (directory w');
        AssignSeekFree (e + 250000); AssignEND (e + 250000);
        CopyRange e (fSeekKeys (directory w)) 500; Resize (e + 250000)]
       ++ trace w
     /\ (forall i, da_data (file w') i = relocated_file w (directory w') i)
     /\ keyend w' - fSeekKeys (directory w') = keyend w - fSeekKeys (directory w)
     /\ fSeekKeys (directory w') = e
     /\ keylimit w' = e + 250000
     /\ fEND (header w') = e + 250000
     /\ fSeekFree (header w') = e + 250000
     /\ fNbytesKeys (directory w') = fNbytesKeys (directory w)
     /\ directory_pointcheck w' = directory_pointcheck w)
  /\ (200 <= keylimit w - keyend w -> w' = w).
Proof.
  intros Hexp Hpow w' e. subst w' e. unfold key_realloc.
  destruct (Z.ltb_spec (keylimit w - keyend w) 200) as [Hlt | Hge].
  - split; [intros _ | lia].
    cbn. rewrite Hexp, Hpow. change (500 ^ 2) with 250000.
    repeat split; lia.
  - split; [lia | reflexivity].
Qed.

(** *** The two header offsets never decrease *)

Lemma nondecreasing_snoc (l : list Z) (a v : Z) :
  nondecreasing l -> last l = Some a -> a <= v -> nondecreasing (l ++ [v]).
Proof.
  intros Hl Hlast Hle i x y Hx Hy.
  destruct (decide (S i < length l)%nat) as [Hlt | Hge].
  - rewrite lookup_app_l in Hx by lia. rewrite lookup_app_l in Hy by lia. eauto.
  - assert (Hi : S i = length l).
    { apply lookup_lt_Some in Hy. rewrite length_app in Hy. simpl in Hy. lia. }
    rewrite lookup_app_l in Hx by lia.
    rewrite lookup_app_r in Hy by lia.
    replace (S i - length l)%nat with 0%nat in Hy by lia. simpl in Hy.
    rewrite last_lookup in Hlast.
    replace (pred (length l)) with i in Hlast by lia.
    congruence.
Qed.

Lemma same_offsets_ok (w w' : Writer) :
  same_offsets w w' -> offsets_ok w -> offsets_ok w'.
Proof.
  intros (H1 & H2 & H3 & H4 & H5 & H6) [].
  split; rewrite ?H1, ?H2, ?H3, ?H4, ?H5, ?H6; assumption.
Qed.

Ltac same := repeat split; reflexivity.

Lemma place_object_offsets keyname s w :
  same_offsets w (place_object keyname s w).
Proof. same. Qed.

Lemma place_key_offsets key w : same_offsets w (place_key key w).
Proof. same. Qed.

Lemma set_cursor_offsets v w : same_offsets w (set_cursor v w).
Proof. same. Qed.

Lemma update_keys_offsets w : same_offsets w (update_keys w).
Proof. same. Qed.

Lemma assign_both_ok (v : Z) (w : Writer) :
  offsets_ok w -> fEND (header w) <= v ->
  offsets_ok (assign_fSeekFree v (assign_fEND v w)).
Proof.
  intros [] Hv. split; try assumption.
  - change (nondecreasing (fEND_history (AssignEND v :: trace w))).
    unfold fEND_history. simpl. rewrite reverse_cons.
    eapply nondecreasing_snoc; eauto.
  - change (nondecreasing (fSeekFree_history (AssignSeekFree v :: trace w))).
    unfold fSeekFree_history. simpl. rewrite reverse_cons.
    eapply nondecreasing_snoc; eauto. lia.
  - change (last (fEND_history (AssignEND v :: trace w)) = Some v).
    unfold fEND_history. simpl. rewrite reverse_cons. apply last_snoc.
  - change (last (fSeekFree_history (AssignSeekFree v :: trace w)) = Some v).
    unfold fSeekFree_history. simpl. rewrite reverse_cons. apply last_snoc.
  - cbn. lia.
Qed.

Lemma assign_swap_ok (v : Z) (w : Writer) :
  offsets_ok w -> fEND (header w) <= v ->
  offsets_ok (assign_fEND v (assign_fSeekFree v w)).
Proof.
  intros Hok Hv.
  eapply same_offsets_ok; [|exact (assign_both_ok v w Hok Hv)]. same.
Qed.

Lemma key_realloc_ok w : offsets_ok w -> offsets_ok (key_realloc w).
Proof.
  intros Hok. unfold key_realloc.
  destruct (keylimit w - keyend w <? 200); [|assumption].
  eapply same_offsets_ok;
    [|apply (assign_both_ok (fEND (header w) + 250000) w Hok); lia].
  destruct Hok as [He Hp _ _ _ _ _].
  repeat split; try reflexivity; cbn; rewrite He, Hp; reflexivity.
Qed.

Lemma streamer_realloc_ok w : offsets_ok w -> offsets_ok (streamer_realloc w).
Proof.
  intros Hok. unfold streamer_realloc.
  destruct (streamerlimit w - streamerend w <? 500); [|assumption].
  eapply same_offsets_ok;
    [|apply (assign_both_ok (fEND (header w) + 250000) w Hok); lia].
  destruct Hok as [He Hp _ _ _ _ _].
  repeat split; try reflexivity; cbn; rewrite He, Hp; reflexivity.
Qed.

Lemma place_streamers_ok w : offsets_ok w -> offsets_ok (place_streamers w).
Proof.
  intros Hok. unfold place_streamers.
  destruct (negb _); [|assumption].
  eapply same_offsets_ok with (w := streamer_realloc _); [same |].
  apply streamer_realloc_ok.
  eapply same_offsets_ok; [|exact Hok]. same.
Qed.

Lemma update_header_ok w : offsets_ok w -> offsets_ok (update_header w).
Proof.
  intros Hok. unfold update_header.
  destruct (Z.gtb_spec (cursor w) (fEND (header w))) as [Hgt | Hle].
  - eapply same_offsets_ok; [|apply (assign_swap_ok (cursor w) w Hok); lia]. same.
  - eapply same_offsets_ok; [|exact Hok]. same.
Qed.

Lemma setitem_ok keyname item w :
  offsets_ok w -> offsets_ok (__setitem__ keyname item w).
Proof.
  intros Hok. unfold __setitem__.
  apply update_header_ok.
  eapply same_offsets_ok; [apply update_keys_offsets |].
  assert (Hok0 : offsets_ok (set_cursor (fEND (header w)) w)).
  { eapply same_offsets_ok; [apply set_cursor_offsets | exact Hok]. }
  destruct item as [s | t]; [|exact Hok0].
  unfold place_tobjstring.
  apply place_streamers_ok.
  eapply same_offsets_ok; [apply place_key_offsets |].
  apply key_realloc_ok.
  eapply same_offsets_ok; [apply place_object_offsets | exact Hok0].
Qed.

Lemma inserts_ok ops w : offsets_ok w -> offsets_ok (inserts ops w).
Proof.
  revert w. induction ops as [| op ops IH]; intros w Hok; [exact Hok |].
  apply IH. apply setitem_ok. exact Hok.
Qed.

Lemma init_begin_ok filename :
  init_block_ok (Header_new (basename filename) 0) (init_begin filename).
Proof.
  repeat split; try reflexivity.
  cbn. unfold len. lia.
Qed.

Lemma init_directory_ok h0 w :
  init_block_ok h0 w -> init_block_ok h0 (init_directory w).
Proof.
  intros (H1 & H2 & H3 & H4 & H5 & H6 & H7).
  repeat split; try assumption.
  cbn. unfold len. lia.
Qed.

Lemma init_streamerkey_ok h0 w :
  init_block_ok h0 w -> init_block_ok h0 (init_streamerkey w).
Proof.
  intros (H1 & H2 & H3 & H4 & H5 & H6 & H7).
  repeat split; try assumption.
  cbn. unfold len. lia.
Qed.

Lemma init_streamers_ok h0 w :
  init_block_ok h0 w -> init_block_ok h0 (init_streamers w).
Proof.
  intros (H1 & H2 & H3 & H4 & H5 & H6 & H7).
  repeat split; try assumption.
  cbn. lia.
Qed.

Lemma init_keys_ok h0 w :
  fEND h0 <= fBEGIN h0 -> fSeekFree h0 <= fBEGIN h0 ->
  init_block_ok h0 w -> offsets_ok (init_keys w).
Proof.
  intros HE HF (H1 & H2 & H3 & H4 & H5 & H6 & H7).
  set (c := fSeekFree (header (init_keys w))).
  assert (Hc : cursor w <= c) by (subst c; cbn; unfold len; lia).
  assert (E1 : fEND (header (init_keys w)) = c + 500)
    by (subst c; cbn; rewrite H1; reflexivity).
  assert (E2 : fEND_history (trace (init_keys w)) = fEND_history (trace w) ++ [c + 500]).
  { subst c. unfold fEND_history. simpl. rewrite reverse_cons, H1. reflexivity. }
  assert (E3 : fSeekFree_history (trace (init_keys w))
               = fSeekFree_history (trace w) ++ [c]).
  { subst c. unfold fSeekFree_history. simpl. rewrite reverse_cons. reflexivity. }
  split; rewrite ?E1, ?E2, ?E3, ?H5, ?H6; try assumption.
  - intros [|[|i]] a b Ha Hb; simpl in *; try discriminate.
    injection Ha as <-. injection Hb as <-. lia.
  - intros [|[|i]] a b Ha Hb; simpl in *; try discriminate.
    injection Ha as <-. injection Hb as <-. lia.
  - reflexivity.
  - reflexivity.
  - fold c. lia.
Qed.

Lemma init_ok (filename : string) :
  fEND (Header_new (basename filename) 0) <= fBEGIN (Header_new (basename filename) 0) ->
  fSeekFree (Header_new (basename filename) 0) <= fBEGIN (Header_new (basename filename) 0) ->
  offsets_ok (__init__ filename).
Proof.
  intros HE HF. unfold __init__.
  apply (init_keys_ok _ _ HE HF).
  apply init_streamers_ok, init_streamerkey_ok, init_directory_ok, init_begin_ok.
Qed.

(** C7: across [__init__] and any sequence of [__setitem__] calls, the
    successive values assigned to [header.fEND] and to [header.fSeekFree]
    never decrease, provided the fresh header starts with both offsets at or
    below [fBEGIN]. *)
Theorem header_offsets_monotone (filename : string) (ops : list (string * Item)) :
  fEND (Header_new (basename filename) 0) <= fBEGIN (Header_new (basename filename) 0) ->
  fSeekFree (Header_new (basename filename) 0) <= fBEGIN (Header_new (basename filename) 0) ->
  let w := inserts ops (__init__ filename) in
  nondecreasing (fEND_history (trace w))
  /\ nondecreasing (fSeekFree_history (trace w))
  /\ last (fEND_history (trace w)) = Some (fEND (header w))
  /\ last (fSeekFree_history (trace w)) = Some (fSeekFree (header w)).
Proof.
  intros HE HF w.
  destruct (inserts_ok ops _ (init_ok filename HE HF)) as [_ _ H1 H2 H3 H4 _].
  auto.
Qed.

(** *** Storing a value that is not a [TObjString] *)

Lemma same_counts_trans w1 w2 w3 :
  same_counts w1 w2 -> same_counts w2 w3 -> same_counts w1 w3.
Proof. intros [H1 H2] [H3 H4]. split; congruence. Qed.

Lemma key_realloc_counts w : same_counts w (key_realloc w).
Proof. unfold key_realloc. destruct (_ <? _); split; reflexivity. Qed.

Lemma streamer_realloc_counts w : same_counts w (streamer_realloc w).
Proof. unfold streamer_realloc. destruct (_ <? _); split; reflexivity. Qed.

Lemma place_streamers_counts w : same_counts w (place_streamers w).
Proof.
  unfold place_streamers.
  destruct (negb _); [|split; reflexivity].
  eapply same_counts_trans with (w2 := streamer_realloc _);
    [|split; reflexivity].
  eapply same_counts_trans; [|apply streamer_realloc_counts].
  split; reflexivity.
Qed.

Lemma update_header_counts w : same_counts w (update_header w).
Proof. unfold update_header. destruct (_ >? _); split; reflexivity. Qed.

Lemma place_key_counts key w : same_counts w (place_key key w).
Proof. split; reflexivity. Qed.

Lemma update_keys_counts w :
  nkeys (update_keys w) = nkeys w + 1
  /\ objects_written (trace (update_keys w)) = objects_written (trace w).
Proof. split; reflexivity. Qed.

Lemma place_object_counts keyname s w :
  nkeys (place_object keyname s w) = nkeys w
  /\ objects_written (trace (place_object keyname s w))
     = s :: objects_written (trace w).
Proof. split; reflexivity. Qed.

Lemma place_tobjstring_counts keyname s w :
  nkeys (place_tobjstring keyname s w) = nkeys w
  /\ objects_written (trace (place_tobjstring keyname s w))
     = s :: objects_written (trace w).
Proof.
  unfold place_tobjstring.
  pose proof (place_object_counts keyname s w) as [H5 H6].
  generalize dependent (place_object keyname s w). intros w1 H5 H6.
  pose proof (key_realloc_counts w1) as [H3 H4].
  generalize dependent (key_realloc w1). intros w2 H3 H4.
  pose proof (place_key_counts (StringKey keyname (cursor w)) w2) as [H1 H2].
  generalize dependent (place_key (StringKey keyname (cursor w)) w2).
  intros w3 H1 H2.
  pose proof (place_streamers_counts w3) as [H7 H8].
  split; congruence.
Qed.

Lemma setitem_counts keyname item w :
  nkeys (__setitem__ keyname item w) = nkeys w + 1
  /\ objects_written (trace (__setitem__ keyname item w))
     = match item with
       | TObjString s => s :: objects_written (trace w)
       | OtherObject _ => objects_written (trace w)
       end.
Proof.
  unfold __setitem__.
  assert (H0 : same_counts w (set_cursor (fEND (header w)) w))
    by (split; reflexivity).
  destruct H0 as [H01 H02].
  generalize dependent (set_cursor (fEND (header w)) w). intros w0 H01 H02.
  assert (Hmid : nkeys (match item with
                        | TObjString s => place_tobjstring keyname s w0
                        | OtherObject _ => w0
                        end) = nkeys w
                 /\ objects_written (trace (match item with
                        | TObjString s => place_tobjstring keyname s w0
                        | OtherObject _ => w0
                        end))
                    = match item with
                      | TObjString s => s :: objects_written (trace w)
                      | OtherObject _ => objects_written (trace w)
                      end).
  { destruct item as [s | t]; [|split; assumption].
    destruct (place_tobjstring_counts keyname s w0) as [H1 H2].
    split; congruence. }
  destruct Hmid as [Hm1 Hm2].
  generalize dependent (match item with
                        | TObjString s => place_tobjstring keyname s w0
                        | OtherObject _ => w0
                        end). intros w1 Hm1 Hm2.
  pose proof (update_keys_counts w1) as [H3 H4].
  generalize dependent (update_keys w1). intros w2 H3 H4.
  pose proof (update_header_counts w2) as [H5 H6].
  split; congruence.
Qed.

Lemma inserts_counts ops w :
  nkeys (inserts ops w) = nkeys w + len ops
  /\ objects_written (trace (inserts ops w))
     = reverse (strings_of ops) ++ objects_written (trace w).
Proof.
  revert w. induction ops as [| [k item] ops IH]; intros w.
  - split; [unfold len; simpl; lia | reflexivity].
  - change (inserts ((k, item) :: ops) w) with (inserts ops (__setitem__ k item w)).
    destruct (IH (__setitem__ k item w)) as [-> ->].
    destruct (setitem_counts k item w) as [-> ->].
    split.
    + unfold len. rewrite length_cons. lia.
    + unfold strings_of. destruct item as [s | t]; simpl.
      * rewrite reverse_cons, <- app_assoc. reflexivity.
      * reflexivity.
Qed.

Lemma strings_of_length ops : (length (strings_of ops) <= length ops)%nat.
Proof.
  induction ops as [| [k [s | t]] ops IH]; simpl; [lia | |].
  - unfold strings_of in *. simpl. lia.
  - unfold strings_of in *. simpl. lia.
Qed.

Lemma init_counts filename :
  nkeys (__init__ filename) = 0
  /\ objects_written (trace (__init__ filename)) = [].
Proof.
  unfold __init__.
  assert (H0 : objects_written (trace (init_begin filename)) = []) by reflexivity.
  generalize dependent (init_begin filename). intros w0 H0.
  assert (H1 : objects_written (trace (init_directory w0)) = []) by exact H0.
  generalize dependent (init_directory w0). clear H0. intros w1 H1.
  assert (H2 : objects_written (trace (init_streamerkey w1)) = []) by exact H1.
  generalize dependent (init_streamerkey w1). clear H1. intros w2 H2.
  assert (H3 : objects_written (trace (init_streamers w2)) = []) by exact H2.
  generalize dependent (init_streamers w2). clear H2. intros w3 H3.
  split; [reflexivity | exact H3].
Qed.

Lemma update_keys_trace c w :
  let w1 := update_keys (set_cursor c w) in
  trace w1 =
    [SetKey (head_key_pointcheck w) (updated_head_key w);
     SetDirectoryInfo (directory_pointcheck w) (updated_directory w);
     SetNumbers (head_key_end w) (nkeys w + 1)] ++ trace w
  /\ header w1 = header w
  /\ keyend w1 = keyend w
  /\ cursor w1 = c
  /\ head_key w1 = updated_head_key w
  /\ directory w1 = updated_directory w.
Proof. repeat split; reflexivity. Qed.

Lemma update_header_same w :
  cursor w = fEND (header w) ->
  update_header w = file_flush (set_header_at (Cursor 0) (header w) w).
Proof.
  intros H. unfold update_header. rewrite H.
  destruct (Z.gtb_spec (fEND (header w)) (fEND (header w))); [lia | reflexivity].
Qed.

Lemma flush_header_fields w :
  let w' := file_flush (set_header_at (Cursor 0) (header w) w) in
  trace w' = Flush :: SetHeader 0 (header w) :: trace w
  /\ header w' = header w
  /\ keyend w' = keyend w
  /\ head_key w' = head_key w
  /\ directory w' = directory w.
Proof. repeat split; reflexivity. Qed.

(** One [__setitem__] with a value that is not a [TObjString], on any writer. *)
Lemma setitem_other_step (keyname typename : string) (w : Writer) :
  let w' := __setitem__ keyname (OtherObject typename) w in
  trace w' =
    [Flush; SetHeader 0 (header w);
     SetKey (head_key_pointcheck w) (updated_head_key w);
     SetDirectoryInfo (directory_pointcheck w) (updated_directory w);
     SetNumbers (head_key_end w) (nkeys w + 1)] ++ trace w
  /\ header w' = header w
  /\ keyend w' = keyend w
  /\ head_key w' = updated_head_key w
  /\ directory w' = updated_directory w.
Proof.
  intros w'.
  destruct (update_keys_trace (fEND (header w)) w) as (Ht & Hh & Hk & Hc & Hhk & Hd).
  assert (Hw' : w' = update_header (update_keys (set_cursor (fEND (header w)) w)))
    by reflexivity.
  clearbody w'.
  rewrite update_header_same in Hw' by congruence.
  destruct (flush_header_fields (update_keys (set_cursor (fEND (header w)) w)))
    as (Ft & Fh & Fk & Fhk & Fd).
  rewrite <- Hw' in Ft, Fh, Fk, Fhk, Fd.
  generalize dependent (update_keys (set_cursor (fEND (header w)) w)).
  intros w1 Ht Hh Hk Hc Hhk Hd Hw' Ft Fh Fk Fhk Fd.
  rewrite Ft, Fh, Fk, Fhk, Fd, Ht, Hh, Hk, Hhk, Hd.
  repeat split; reflexivity.
Qed.

(** C9: storing a value that is not a [TObjString] never raises and stores
    neither an object nor a key for it, yet it increments [nkeys], stores the
    key counter, the directory, the head key and the header again and flushes;
    so after it [nkeys] exceeds the number of objects stored. *)
Theorem setitem_other_object (filename : string) (ops : list (string * Item))
    (keyname typename : string) :
  let w := inserts ops (__init__ filename) in
  let w' := __setitem__ keyname (OtherObject typename) w in
  trace w' =
    [Flush; SetHeader 0 (header w);
     SetKey (head_key_pointcheck w) (updated_head_key w);
     SetDirectoryInfo (directory_pointcheck w) (updated_directory w);
     SetNumbers (head_key_end w) (nkeys w + 1)] ++ trace w
  /\ header w' = header w
  /\ keyend w' = keyend w
  /\ nkeys w' = nkeys w + 1
  /\ objects_written (trace w') = objects_written (trace w)
  /\ nkeys w' = len ops + 1
  /\ len (objects_written (trace w')) < nkeys w'.
Proof.
  intros w w'.
  destruct (inserts_counts ops (__init__ filename)) as [Hn Ho].
  destruct (init_counts filename) as [Hn0 Ho0].
  rewrite Hn0 in Hn. rewrite Ho0, app_nil_r in Ho.
  fold w in Hn, Ho.
  destruct (setitem_other_step keyname typename w) as (Ht & Hh & Hk & _).
  destruct (setitem_counts keyname (OtherObject typename) w) as [Hn' Ho'].
  fold w' in Ht, Hh, Hk, Hn', Ho'.
  clearbody w w'.
  repeat split; try assumption.
  - lia.
  - rewrite Ho', Ho, Hn', Hn. unfold len. rewrite length_reverse.
    pose proof (strings_of_length ops). lia.
Qed.

(** *** Where the key counter is stored *)

(** The offsets at which [__setitem__] stores the head key and the key
    counter are the ones [__init__] measured: no insert changes them, also
    not one that moves the key list. *)
Lemma key_realloc_head_offsets w :
  head_key_pointcheck (key_realloc w) = head_key_pointcheck w
  /\ head_key_end (key_realloc w) = head_key_end w.
Proof. unfold key_realloc. destruct (_ <? _); split; reflexivity. Qed.

Lemma streamer_realloc_head_offsets w :
  head_key_pointcheck (streamer_realloc w) = head_key_pointcheck w
  /\ head_key_end (streamer_realloc w) = head_key_end w.
Proof. unfold streamer_realloc. destruct (_ <? _); split; reflexivity. Qed.

Lemma place_streamers_head_offsets w :
  head_key_pointcheck (place_streamers w) = head_key_pointcheck w
  /\ head_key_end (place_streamers w) = head_key_end w.
Proof.
  unfold place_streamers. destruct (negb _); [| split; reflexivity].
  pose proof (streamer_realloc_head_offsets
                (set_streamers (streamers w ++ ["TObjString"%string]) w)) as [H1 H2].
  generalize dependent (streamer_realloc
                          (set_streamers (streamers w ++ ["TObjString"%string]) w)).
  intros w1 H1 H2. split.
  - transitivity (head_key_pointcheck w1); [reflexivity | exact H1].
  - transitivity (head_key_end w1); [reflexivity | exact H2].
Qed.

Lemma update_header_head_offsets w :
  head_key_pointcheck (update_header w) = head_key_pointcheck w
  /\ head_key_end (update_header w) = head_key_end w.
Proof. unfold update_header. destruct (_ >? _); split; reflexivity. Qed.

Lemma place_tobjstring_head_offsets keyname s w :
  head_key_pointcheck (place_tobjstring keyname s w) = head_key_pointcheck w
  /\ head_key_end (place_tobjstring keyname s w) = head_key_end w.
Proof.
  unfold place_tobjstring.
  assert (H0 : head_key_pointcheck (place_object keyname s w) = head_key_pointcheck w
               /\ head_key_end (place_object keyname s w) = head_key_end w)
    by (split; reflexivity).
  destruct H0 as [H01 H02].
  generalize dependent (place_object keyname s w). intros w1 H01 H02.
  pose proof (key_realloc_head_offsets w1) as [H11 H12].
  generalize dependent (key_realloc w1). intros w2 H11 H12.
  assert (H2 : head_key_pointcheck (place_key (StringKey keyname (cursor w)) w2)
               = head_key_pointcheck w2
               /\ head_key_end (place_key (StringKey keyname (cursor w)) w2)
                  = head_key_end w2) by (split; reflexivity).
  destruct H2 as [H21 H22].
  generalize dependent (place_key (StringKey keyname (cursor w)) w2).
  intros w3 H21 H22.
  pose proof (place_streamers_head_offsets w3) as [H31 H32].
  split; congruence.
Qed.

Lemma setitem_head_offsets keyname item w :
  head_key_pointcheck (__setitem__ keyname item w) = head_key_pointcheck w
  /\ head_key_end (__setitem__ keyname item w) = head_key_end w.
Proof.
  unfold __setitem__.
  assert (Hmid : head_key_pointcheck
                   (match item with
                    | TObjString s => place_tobjstring keyname s (set_cursor (fEND (header w)) w)
                    | OtherObject _ => set_cursor (fEND (header w)) w
                    end) = head_key_pointcheck w
                 /\ head_key_end
                   (match item with
                    | TObjString s => place_tobjstring keyname s (set_cursor (fEND (header w)) w)
                    | OtherObject _ => set_cursor (fEND (header w)) w
                    end) = head_key_end w).
  { destruct item as [s | t]; [| split; reflexivity].
    apply (place_tobjstring_head_offsets keyname s (set_cursor (fEND (header w)) w)). }
  destruct Hmid as [Hm1 Hm2].
  generalize dependent (match item with
                        | TObjString s => place_tobjstring keyname s (set_cursor (fEND (header w)) w)
                        | OtherObject _ => set_cursor (fEND (header w)) w
                        end). intros w1 Hm1 Hm2.
  assert (H2 : head_key_pointcheck (update_keys w1) = head_key_pointcheck w1
               /\ head_key_end (update_keys w1) = head_key_end w1) by (split; reflexivity).
  destruct H2 as [H21 H22].
  generalize dependent (update_keys w1). intros w2 H21 H22.
  pose proof (update_header_head_offsets w2) as [H31 H32].
  split; congruence.
Qed.

Lemma inserts_head_offsets ops w :
  head_key_pointcheck (inserts ops w) = head_key_pointcheck w
  /\ head_key_end (inserts ops w) = head_key_end w.
Proof.
  revert w. induction ops as [| [k item] ops IH]; intros w; [split; reflexivity |].
  change (inserts ((k, item) :: ops) w) with (inserts ops (__setitem__ k item w)).
  destruct (IH (__setitem__ k item w)) as [-> ->].
  apply setitem_head_offsets.
Qed.

End WithLayout.
End WriterProps.

(** * The writer on concrete inserts *)

Module WriterRuns.
Import NewWriter RootLayout WriterSpec WriterSamples WriterProps.

Lemma key_realloc_spec_witness :
  keylimit before_sixth_check - keyend before_sixth_check < 200
  /\ fSeekKeys (directory (key_realloc before_sixth_check))
     = fEND (header before_sixth_check)
  /\ fEND (header (key_realloc before_sixth_check))
     = fEND (header before_sixth_check) + 250000.
Proof.
  assert (He : expander before_sixth_check = 500) by (vm_compute; reflexivity).
  assert (Hp : expanderpow before_sixth_check = 2) by (vm_compute; reflexivity).
  assert (H : keylimit before_sixth_check - keyend before_sixth_check < 200)
    by (vm_compute; reflexivity).
  split; [exact H|].
  destruct (key_realloc_spec before_sixth_check He Hp) as [Hyes _].
  destruct (Hyes H) as (_ & _ & _ & H1 & _ & H2 & _).
  split; assumption.
Defined.

Lemma header_offsets_monotone_witness :
  fEND (Header_new (basename "dir/a.root") 0)
    <= fBEGIN (Header_new (basename "dir/a.root") 0)
  /\ fSeekFree (Header_new (basename "dir/a.root") 0)
       <= fBEGIN (Header_new (basename "dir/a.root") 0)
  /\ (let w := inserts (sample 6) (__init__ "dir/a.root") in
      nondecreasing (fEND_history (trace w))
      /\ nondecreasing (fSeekFree_history (trace w))
      /\ last (fEND_history (trace w)) = Some (fEND (header w))
      /\ last (fSeekFree_history (trace w)) = Some (fSeekFree (header w))).
Proof.
  assert (H1 : fEND (Header_new (basename "dir/a.root") 0)
               <= fBEGIN (Header_new (basename "dir/a.root") 0))
    by (vm_compute; discriminate).
  assert (H2 : fSeekFree (Header_new (basename "dir/a.root") 0)
               <= fBEGIN (Header_new (basename "dir/a.root") 0))
    by (vm_compute; discriminate).
  exact (conj H1 (conj H2 (header_offsets_monotone "dir/a.root" (sample 6) H1 H2))).
Defined.

(** C1, on six inserts: the sixth insert relocates the key list, and afterwards
    the four bytes after the head key at [directory.fSeekKeys] still hold the
    count 5 while six inserts were made; the count 6 was stored at the old
    place of the key list. *)
Theorem key_count_stale_after_relocation :
  let w5 := inserts (sample 5) (__init__ "dir/a.root") in
  let w6 := inserts (sample 6) (__init__ "dir/a.root") in
  key_count_bytes w5 = ser_numbers 5
  /\ fSeekKeys (directory w5) = head_key_pointcheck w5
  /\ nkeys w6 = 6
  /\ fSeekKeys (directory w6) = fEND (header w5)
  /\ fSeekKeys (directory w6) <> head_key_pointcheck w6
  /\ key_count_bytes w6 = ser_numbers 5
  /\ key_count_bytes w6 <> ser_numbers 6
  /\ da_read (file w6) (head_key_end w6) 4 = ser_numbers 6.
Proof.
  vm_compute. repeat split; congruence.
Qed.

End WriterRuns.

(** * Properties of the planner *)

Module PlannerProps.
Import Planner PlannerSpec.

(** ** Dictionaries *)

Lemma dict_get_del_ne {V} (d : dict V) (k k' : string) :
  k <> k' -> dict_get (dict_del d k') k = dict_get d k.
Proof.
  intros Hne. induction d as [| [k0 v0] d IH]; simpl; [reflexivity |].
  destruct (String.eqb_spec k0 k') as [-> | Hk0].
  - destruct (String.eqb_spec k' k) as [-> | _]; [congruence | reflexivity].
  - simpl. rewrite IH. reflexivity.
Qed.

Lemma dict_get_None {V} (d : dict V) (k : string) :
  dict_get d k = None <-> k ∉ dict_keys d.
Proof.
  induction d as [| [k0 v0] d IH]; simpl.
  - split; [intros _; apply not_elem_of_nil | reflexivity].
  - rewrite not_elem_of_cons.
    destruct (String.eqb_spec k0 k) as [-> | Hne].
    + split; [discriminate | intros [H _]; congruence].
    + rewrite IH. split; [intros H; split; [congruence | exact H] | intros [_ H]; exact H].
Qed.

Lemma dict_get_del_eq {V} (d : dict V) (k : string) :
  NoDup (dict_keys d) -> dict_get (dict_del d k) k = None.
Proof.
  induction d as [| [k0 v0] d IH]; simpl; intros Hnd; [reflexivity |].
  apply NoDup_cons in Hnd as [Hnotin Hnd].
  destruct (String.eqb_spec k0 k) as [-> | Hne].
  - apply dict_get_None. exact Hnotin.
  - simpl. destruct (String.eqb_spec k0 k); [congruence | auto].
Qed.

Lemma dict_keys_del_subseteq {V} (d : dict V) (k x : string) :
  x ∈ dict_keys (dict_del d k) -> x ∈ dict_keys d.
Proof.
  induction d as [| [k0 v0] d IH]; simpl; [auto |].
  destruct (String.eqb k0 k); simpl.
  - intros H. apply elem_of_cons. right. exact H.
  - rewrite !elem_of_cons. intros [-> | H]; [left; reflexivity | right; auto].
Qed.

Lemma dict_del_NoDup {V} (d : dict V) (k : string) :
  NoDup (dict_keys d) -> NoDup (dict_keys (dict_del d k)).
Proof.
  induction d as [| [k0 v0] d IH]; simpl; intros Hnd; [exact Hnd |].
  apply NoDup_cons in Hnd as [Hnotin Hnd].
  destruct (String.eqb k0 k); [exact Hnd |].
  simpl. apply NoDup_cons. split; [| auto].
  intros Hin. apply Hnotin. eapply dict_keys_del_subseteq. exact Hin.
Qed.

(** ** Schema validation *)

Lemma check_branches_walk here prev toget (ks : list string) :
  NoDup ks -> forall cur r,
  check_branches here prev toget cur ks = Ok r <->
  (forall k, k ∈ ks -> ~ offending toget cur k) /\ r = drop_unselected toget cur ks.
Proof.
  unfold drop_unselected, offending, dict_mem.
  induction ks as [| key ks IH]; intros Hnd cur r; simpl.
  - split.
    + intros [= <-]. split; [intros k Hk; inversion Hk | reflexivity].
    + intros [_ ->]. reflexivity.
  - apply NoDup_cons in Hnd as [Hnotin Hnd].
    destruct (dict_get cur key) as [dnew |] eqn:Hnew.
    + destruct (dict_get toget key) as [dold |] eqn:Hold.
      * destruct (String.eqb_spec dnew dold) as [-> | Hdiff]; simpl.
        -- rewrite (IH Hnd). split.
           ++ intros [H ->]. split; [| reflexivity].
              intros k Hk. apply elem_of_cons in Hk as [-> | Hk]; [| auto].
              intros [Hn | (d1 & d2 & H1 & H2 & H3)]; congruence.
           ++ intros [H ->]. split; [| reflexivity].
              intros k Hk. apply H. apply elem_of_cons. right. exact Hk.
        -- split; [discriminate |].
           intros [H _]. exfalso. apply (H key); [apply elem_of_cons; left; reflexivity |].
           right. exists dnew, dold. auto.
      * rewrite (IH Hnd). split.
        -- intros [H ->]. split; [| reflexivity].
           intros k Hk. apply elem_of_cons in Hk as [-> | Hk].
           ++ intros [Hn | (d1 & d2 & H1 & H2 & H3)]; congruence.
           ++ assert (Hne : k <> key) by (intros ->; contradiction).
              specialize (H k Hk). rewrite (dict_get_del_ne cur k key Hne) in H. exact H.
        -- intros [H ->]. split; [| reflexivity].
           intros k Hk.
           assert (Hne : k <> key) by (intros ->; contradiction).
           rewrite (dict_get_del_ne cur k key Hne).
           apply H. apply elem_of_cons. right. exact Hk.
    + split; [discriminate |].
      intros [H _]. exfalso. apply (H key); [apply elem_of_cons; left; reflexivity |].
      left. exact Hnew.
Qed.

Lemma check_branches_raise here prev toget (ks : list string) :
  NoDup ks -> forall cur e,
  check_branches here prev toget cur ks = Raise e ->
  exists k, k ∈ ks /\
    ((dict_get cur k = None /\ e = BranchNotFound k here prev)
     \/ (exists dnew dold, dict_get cur k = Some dnew /\ dict_get toget k = Some dold
                           /\ dnew <> dold /\ e = DtypeDiffers k here prev)).
Proof.
  induction ks as [| key ks IH]; intros Hnd cur e; simpl; [discriminate |].
  apply NoDup_cons in Hnd as [Hnotin Hnd].
  destruct (dict_get cur key) as [dnew |] eqn:Hnew.
  - destruct (dict_get toget key) as [dold |] eqn:Hold.
    + destruct (String.eqb_spec dnew dold) as [-> | Hdiff]; simpl.
      * intros H. destruct (IH Hnd _ _ H) as (k & Hk & Hcase).
        exists k. split; [apply elem_of_cons; right; exact Hk | exact Hcase].
      * intros [= <-]. exists key. split; [apply elem_of_cons; left; reflexivity |].
        right. exists dnew, dold. auto.
    + intros H. destruct (IH Hnd _ _ H) as (k & Hk & Hcase).
      assert (Hne : k <> key) by (intros ->; contradiction).
      rewrite (dict_get_del_ne cur k key Hne) in Hcase.
      exists k. split; [apply elem_of_cons; right; exact Hk | exact Hcase].
  - intros [= <-]. exists key. split; [apply elem_of_cons; left; reflexivity |].
    left. auto.
Qed.

Lemma drop_unselected_none toget (ks : list string) :
  forall cur k, dict_get cur k = None ->
  dict_get (drop_unselected toget cur ks) k = None.
Proof.
  unfold drop_unselected.
  induction ks as [| key ks IH]; intros cur k Hk; simpl; [exact Hk |].
  apply IH. destruct (dict_mem toget key); [exact Hk |].
  destruct (decide (k = key)) as [-> | Hne].
  - apply dict_get_None. intros Hin. apply dict_keys_del_subseteq in Hin.
    apply dict_get_None in Hk. contradiction.
  - rewrite dict_get_del_ne by exact Hne. exact Hk.
Qed.

Lemma drop_unselected_keep toget (ks : list string) :
  forall cur k, dict_mem toget k = true ->
  dict_get (drop_unselected toget cur ks) k = dict_get cur k.
Proof.
  unfold drop_unselected.
  induction ks as [| key ks IH]; intros cur k Hk; simpl; [reflexivity |].
  rewrite (IH _ k Hk).
  destruct (dict_mem toget key) eqn:Hkey; [reflexivity |].
  apply dict_get_del_ne. intros ->. congruence.
Qed.

Lemma drop_unselected_gone toget (ks : list string) :
  forall cur k, NoDup (dict_keys cur) -> k ∈ ks -> dict_mem toget k = false ->
  dict_get (drop_unselected toget cur ks) k = None.
Proof.
  induction ks as [| key ks IH]; intros cur k Hnd Hin Hk; [inversion Hin |].
  change (drop_unselected toget cur (key :: ks))
    with (drop_unselected toget
            (if dict_mem toget key then cur else dict_del cur key) ks).
  destruct (decide (k = key)) as [-> | Hne].
  - rewrite Hk. apply drop_unselected_none. apply dict_get_del_eq. exact Hnd.
  - apply elem_of_cons in Hin as [-> | Hin]; [congruence |].
    apply IH; [| exact Hin | exact Hk].
    destruct (dict_mem toget key); [exact Hnd | apply dict_del_NoDup; exact Hnd].
Qed.

(** C10: the branch validation of a later file (lines 251-257), walked over
    the keys of both selections.  It succeeds exactly when every branch the
    first file selects is selected by the later file with the same dtype; on
    success the branches that only the later file selects are deleted from
    its selection, without an error; an error names a branch of the first
    file's selection that is missing from the later file or has another
    dtype there. *)
Theorem check_branches_spec (here prev : string) (toget newtoget : dict dtype)
    (ks : list string) :
  NoDup ks -> NoDup (dict_keys newtoget) ->
  (forall k, k ∈ ks <-> k ∈ dict_keys toget \/ k ∈ dict_keys newtoget) ->
  ((exists r, check_branches here prev toget newtoget ks = Ok r)
     <-> (forall k d, dict_get toget k = Some d -> dict_get newtoget k = Some d))
  /\ (forall r, check_branches here prev toget newtoget ks = Ok r ->
        forall k, dict_get r k
                  = if dict_mem toget k then dict_get newtoget k else None)
  /\ (forall e, check_branches here prev toget newtoget ks = Raise e ->
        exists k, dict_mem toget k = true /\
          ((dict_get newtoget k = None /\ e = BranchNotFound k here prev)
           \/ (exists dnew dold, dict_get newtoget k = Some dnew
                  /\ dict_get toget k = Some dold /\ dnew <> dold
                  /\ e = DtypeDiffers k here prev))).
Proof.
  intros Hks Hnew Hunion.
  assert (Hin_toget : forall k d, dict_get toget k = Some d -> k ∈ ks).
  { intros k d Hk. apply Hunion. left.
    destruct (decide (k ∈ dict_keys toget)) as [Hin | Hnotin]; [exact Hin |].
    apply dict_get_None in Hnotin. congruence. }
  split; [| split].
  - split.
    + intros [r Hr]. apply (check_branches_walk here prev toget ks Hks) in Hr as [Hgood _].
      intros k d Hk. specialize (Hgood k (Hin_toget k d Hk)).
      destruct (dict_get newtoget k) as [dnew |] eqn:Hdnew.
      * destruct (decide (dnew = d)) as [-> | Hne]; [reflexivity |].
        exfalso. apply Hgood. right. exists dnew, d. auto.
      * exfalso. apply Hgood. left. exact Hdnew.
    + intros Hsame. exists (drop_unselected toget newtoget ks).
      apply (check_branches_walk here prev toget ks Hks). split; [| reflexivity].
      intros k Hk [Hnone | (dnew & dold & H1 & H2 & H3)].
      * apply Hunion in Hk as [Hk | Hk].
        -- destruct (dict_get toget k) as [d |] eqn:Hd.
           ++ rewrite (Hsame k d Hd) in Hnone. discriminate.
           ++ apply dict_get_None in Hd. contradiction.
        -- apply dict_get_None in Hnone. contradiction.
      * rewrite (Hsame k dold H2) in H1. congruence.
  - intros r Hr k.
    apply (check_branches_walk here prev toget ks Hks) in Hr as [_ ->].
    destruct (dict_mem toget k) eqn:Hmem.
    + apply drop_unselected_keep. exact Hmem.
    + destruct (decide (k ∈ ks)) as [Hin | Hnotin].
      * apply drop_unselected_gone; assumption.
      * apply drop_unselected_none. apply dict_get_None.
        intros Hk. apply Hnotin. apply Hunion. right. exact Hk.
  - intros e He.
    destruct (check_branches_raise here prev toget ks Hks _ _ He) as (k & Hk & Hcase).
    exists k. split.
    + destruct Hcase as [[Hnone _] | (dnew & dold & _ & Hold & _)].
      * apply Hunion in Hk as [Hk | Hk].
        -- unfold dict_mem. destruct (dict_get toget k) eqn:Hd; [reflexivity |].
           apply dict_get_None in Hd. contradiction.
        -- apply dict_get_None in Hnone. contradiction.
      * unfold dict_mem. rewrite Hold. reflexivity.
    + exact Hcase.
Qed.

(** The keys that [tree] walks are the union of both selections, each key
    once. *)
Lemma set_union_spec (a b : list string) :
  NoDup a -> NoDup b ->
  NoDup (set_union a b) /\ (forall k, k ∈ set_union a b <-> k ∈ a \/ k ∈ b).
Proof.
  intros Ha Hb. unfold set_union. split.
  - apply NoDup_app. split; [exact Ha |]. split.
    + intros k Hk Hin. apply list_elem_of_In, filter_In in Hin as [_ Hin].
      apply negb_true_iff in Hin.
      assert (Hex : existsb (String.eqb k) a = true).
      { apply existsb_exists. exists k. split; [apply list_elem_of_In; exact Hk |].
        apply String.eqb_refl. }
      congruence.
    + apply NoDup_ListNoDup, List.NoDup_filter, NoDup_ListNoDup. exact Hb.
  - intros k. rewrite elem_of_app. split.
    + intros [Hk | Hk]; [left; exact Hk |].
      apply list_elem_of_In, filter_In in Hk as [Hk _].
      right. apply list_elem_of_In. exact Hk.
    + intros [Hk | Hk]; [left; exact Hk |].
      destruct (existsb (String.eqb k) a) eqn:Hex.
      * left. apply existsb_exists in Hex as (x & Hx & Heq).
        apply String.eqb_eq in Heq as ->. apply list_elem_of_In. exact Hx.
      * right. apply list_elem_of_In, filter_In. split.
        -- apply list_elem_of_In. exact Hk.
        -- rewrite Hex. reflexivity.
Qed.

Lemma dict_set_keys {V} (d : dict V) (k : string) (v : V) (x : string) :
  x ∈ dict_keys (dict_set d k v) <-> x = k \/ x ∈ dict_keys d.
Proof.
  induction d as [| [k0 v0] d IH]; simpl.
  - rewrite list_elem_of_singleton. split; [auto | intros [H | H]; [exact H | inversion H]].
  - destruct (String.eqb_spec k0 k) as [-> | Hne]; simpl.
    + rewrite elem_of_cons. tauto.
    + rewrite !elem_of_cons, IH. tauto.
Qed.

Lemma dict_set_NoDup {V} (d : dict V) (k : string) (v : V) :
  NoDup (dict_keys d) -> NoDup (dict_keys (dict_set d k v)).
Proof.
  induction d as [| [k0 v0] d IH]; simpl; intros Hnd.
  - apply NoDup_singleton.
  - apply NoDup_cons in Hnd as [Hnotin Hnd].
    destruct (String.eqb_spec k0 k) as [-> | Hne]; simpl.
    + apply NoDup_cons. auto.
    + apply NoDup_cons. split; [| auto].
      rewrite dict_set_keys. intros [-> | Hin]; [congruence | contradiction].
Qed.

Lemma dict_of_list_NoDup {V} (pairs : list (string * V)) :
  NoDup (dict_keys (dict_of_list pairs)).
Proof.
  unfold dict_of_list.
  assert (H : forall d : dict V, NoDup (dict_keys d) ->
            NoDup (dict_keys (fold_left (fun d kv => dict_set d (fst kv) (snd kv)) pairs d))).
  { induction pairs as [| kv pairs IH]; intros d Hd; simpl; [exact Hd |].
    apply IH. apply dict_set_NoDup. exact Hd. }
  apply H. apply NoDup_nil. constructor.
Qed.

(** The keys [tree] walks for a later file meet what [check_branches_spec]
    asks of them. *)
Lemma tree_validation_keys (branchdtypes_arg : Branch -> option dtype) (t0 t : TTree) :
  let toget := selection branchdtypes_arg t0 in
  let newtoget := selection branchdtypes_arg t in
  let ks := set_union (dict_keys toget) (dict_keys newtoget) in
  NoDup ks /\ NoDup (dict_keys newtoget)
  /\ (forall k, k ∈ ks <-> k ∈ dict_keys toget \/ k ∈ dict_keys newtoget).
Proof.
  intros toget newtoget ks.
  assert (H0 : NoDup (dict_keys toget)) by apply dict_of_list_NoDup.
  assert (H1 : NoDup (dict_keys newtoget)) by apply dict_of_list_NoDup.
  destruct (set_union_spec _ _ H0 H1) as [H2 H3]. auto.
Qed.

(** ** The accumulation across files *)

Section Accumulate.
Variable files : list (string * TTree).
Variable branchdtypes_arg : Branch -> option dtype.
Variable under : list BasketData -> bool.

(** Whatever file the accumulation has moved to, every [BasketData] it
    appends describes a basket of the branch it started with. *)
Lemma accumulate_metadata (toget : dict dtype) (counters : dict string)
    (branchname : string) (dt : dtype) (branch : Branch) (fuel : nat) :
  forall pathi basketi basketdata pathi' basketi' out,
  accumulate files branchdtypes_arg under fuel toget counters branchname dt branch
    pathi basketi basketdata = Ok (pathi', basketi', out) ->
  (forall x, x ∈ basketdata -> exists i,
      bd_itemdims x = itemdims branch
      /\ bd_entrystart x = basketstart branch i
      /\ bd_entryend x = basketstart branch i + basketentries branch i
      /\ bd_numbytes x = basketbytes branch i) ->
  forall x, x ∈ out -> exists i,
      bd_itemdims x = itemdims branch
      /\ bd_entrystart x = basketstart branch i
      /\ bd_entryend x = basketstart branch i + basketentries branch i
      /\ bd_numbytes x = basketbytes branch i.
Proof.
  induction fuel as [| fuel IH]; intros pathi basketi basketdata pathi' basketi' out;
    simpl; [discriminate |].
  assert (Happend : forall pathi0 basketi0,
    (p ← getitem (paths files) pathi0;
     if existsb (fun x => bd_entrystart x =? bd_entryend x)
          (basketdata ++ [basket_datum p branchname dt branch pathi0 basketi0])
     then Raise AssertionError
     else if negb (under (basketdata ++ [basket_datum p branchname dt branch pathi0 basketi0]))
          then Ok (pathi0, basketi0,
                   removelast (basketdata ++ [basket_datum p branchname dt branch pathi0 basketi0]))
          else accumulate files branchdtypes_arg under fuel toget counters branchname dt
                 branch pathi0 (basketi0 + 1)
                 (basketdata ++ [basket_datum p branchname dt branch pathi0 basketi0]))
    = Ok (pathi', basketi', out) ->
    (forall x, x ∈ basketdata -> exists i,
      bd_itemdims x = itemdims branch
      /\ bd_entrystart x = basketstart branch i
      /\ bd_entryend x = basketstart branch i + basketentries branch i
      /\ bd_numbytes x = basketbytes branch i) ->
    forall x, x ∈ out -> exists i,
      bd_itemdims x = itemdims branch
      /\ bd_entrystart x = basketstart branch i
      /\ bd_entryend x = basketstart branch i + basketentries branch i
      /\ bd_numbytes x = basketbytes branch i).
  { intros pathi0 basketi0 Hrun Hold.
    destruct (getitem (paths files) pathi0) as [p | e]; simpl in Hrun; [| discriminate].
    destruct (existsb _ _); [discriminate |].
    destruct (negb _).
    - injection Hrun as <- <- <-. rewrite removelast_last. exact Hold.
    - eapply IH; [exact Hrun |].
      intros x Hx. apply elem_of_app in Hx as [Hx | Hx]; [auto |].
      apply list_elem_of_singleton in Hx as ->.
      exists basketi0. repeat split; reflexivity. }
  destruct (basketi >=? numbaskets branch).
  - destruct (pathi + 1 >=? len (paths files)).
    + intros [= <- <- <-]. auto.
    + destruct (tree_branch files branchdtypes_arg toget counters (pathi + 1) branchname);
        simpl; [apply Happend | discriminate].
  - apply Happend.
Qed.

End Accumulate.

(** ** Reading a partition set back from JSON *)

(** The constructor rejects the argument list [fromJson] builds: one list
    where the partitions should be. *)
Lemma PartitionSet_init_list_arg tp bd bc np ne (l : list Partition) :
  PartitionSet_init tp bd bc np ne [a_list l] = Raise AssertionError.
Proof.
  unfold PartitionSet_init.
  destruct (negb (np =? len [a_list l])); reflexivity.
Qed.

Lemma bind_raises {A B} (r : result A) (k : A -> result B) :
  (forall a, raises (k a) = true) -> raises (r ≫= k) = true.
Proof. intros H. destruct r; simpl; [apply H | reflexivity]. Qed.

Lemma fromJson_raises numpy_dtype (obj : json) :
  raises (fromJson numpy_dtype obj) = true.
Proof.
  unfold fromJson.
  repeat (apply bind_raises; intros ?).
  rewrite PartitionSet_init_list_arg. reflexivity.
Qed.

(** ** The order in which [iterator] yields *)

Section IteratorOrder.
Variable array : Type.
Variable output_value : Type.
Variable concatenate : list array -> array.
Variable empty_array : dtype -> array.
Variable tree_iterator : string -> list (Z * Z) -> list (Z * Z * dict array).
Variable outputtype : dict array -> output_value.
Variable partitionset : PartitionSet.

Local Abbreviation Iter_ := (Iter array output_value).
Local Abbreviation complete_ := (complete array partitionset).
Local Abbreviation emit_ :=
  (emit array output_value concatenate empty_array outputtype partitionset).
Local Abbreviation walk_range_ := (walk_range array output_value tree_iterator).
Local Abbreviation walk_ :=
  (walk array output_value concatenate empty_array tree_iterator outputtype partitionset).
Local Abbreviation in_order := (PlannerSpec.in_order array output_value partitionset).

Lemma range_snoc {A} (l : list A) (x : A) : range (len (l ++ [x])) = range (len l) ++ [len l].
Proof.
  unfold range, len. rewrite length_app. simpl.
  rewrite !Nat2Z.id. replace (length l + 1)%nat with (S (length l)) by lia.
  rewrite seq_S, map_app. reflexivity.
Qed.

Lemma emit_in_order (fuel : nat) :
  forall st, in_order st -> in_order (emit_ fuel st).
Proof.
  induction fuel as [| fuel IH]; intros st Hst; simpl; [exact Hst |].
  destruct (nextpartition_ _ _ st <? len (partitions partitionset)); [| exact Hst].
  destruct (complete_ (treedata_ _ _ st) (nextpartition_ _ _ st)) as [[|] | e] eqn:Hc;
    [| exact Hst | exact Hst].
  destruct (output _ _ _ _ _ _ _ _) as [[treedata v] | e]; [| exact Hst].
  apply IH. destruct Hst as (Hnext & Hidx & Hall).
  unfold PlannerSpec.in_order. cbn [nextpartition_ yields].
  split; [| split].
  - unfold len in *. rewrite length_app. simpl. lia.
  - rewrite map_app, range_snoc, Hidx. cbn [map y_index]. rewrite Hnext. reflexivity.
  - intros y Hy. apply elem_of_app in Hy as [Hy | Hy]; [auto |].
    apply list_elem_of_singleton in Hy as ->. exact Hc.
Qed.

(** The loop of lines 423-428 runs at most once per partition: more steps
    than partitions change nothing. *)
Lemma emit_enough_fuel (fuel : nat) :
  forall (k : nat) st,
  0 <= nextpartition_ _ _ st ->
  len (partitions partitionset) - nextpartition_ _ _ st <= Z.of_nat fuel ->
  emit_ (fuel + k) st = emit_ fuel st.
Proof.
  induction fuel as [| fuel IH]; intros k st Hnn Hle.
  - destruct k as [| k]; [reflexivity |]. simpl.
    destruct (Z.ltb_spec (nextpartition_ _ _ st) (len (partitions partitionset)));
      [simpl in Hle; lia | reflexivity].
  - simpl.
    destruct (nextpartition_ _ _ st <? len (partitions partitionset)); [| reflexivity].
    destruct (complete_ (treedata_ _ _ st) (nextpartition_ _ _ st)) as [[|] | e];
      try reflexivity.
    destruct (output _ _ _ _ _ _ _ _) as [[treedata v] | e]; [| reflexivity].
    apply IH; cbn [nextpartition_]; lia.
Qed.

Lemma walk_range_in_order st filerange :
  in_order st -> in_order (walk_range_ st filerange).
Proof.
  intros Hst. unfold walk_range.
  destruct (negb _); exact Hst.
Qed.

Lemma walk_ranges_in_order rs :
  forall st, in_order st -> in_order (fold_left walk_range_ rs st).
Proof.
  induction rs as [| r rs IH]; intros st Hst; simpl; [exact Hst |].
  apply IH, walk_range_in_order, Hst.
Qed.

Lemma walk_in_order ps :
  forall st, in_order st -> in_order (walk_ ps st).
Proof.
  induction ps as [| p ps IH]; intros st Hst; simpl; [exact Hst |].
  assert (H : in_order (emit_ (length (partitions partitionset))
                          (fold_left walk_range_ (ranges p) st)))
    by (apply emit_in_order, walk_ranges_in_order, Hst).
  destruct (failure _ _ _); [exact H | apply IH, H].
Qed.

(** C8: the partitions [iterator] yields are the partitions 0, 1, 2, ... in
    this order, and each is yielded when every one of its ranges is present in
    [treedata] under its path with the same [entrystart] and [entryend]. *)
Theorem iterator_yields_in_order :
  let st := iterator array output_value concatenate empty_array tree_iterator
              outputtype partitionset in
  map (y_index _ _) (yields _ _ st) = range (len (yields _ _ st))
  /\ len (yields _ _ st) = nextpartition_ _ _ st
  /\ (forall y, y ∈ yields _ _ st ->
        exists p, getitem (partitions partitionset) (y_index _ _ y) = Ok p
          /\ forall r, r ∈ ranges p ->
               exists l arrays,
                 dict_get (y_treedata _ _ y) (path r) = Some l
                 /\ (entrystart r, entryend r, arrays) ∈ l).
Proof.
  intros st.
  assert (Hst : in_order st).
  { subst st. unfold iterator.
    assert (H0 : in_order (walk_ (partitions partitionset) (mkIter _ _ [] None [] 0 [] None))).
    { apply walk_in_order. repeat split. intros y Hy. inversion Hy. }
    destruct (failure _ _ _); [exact H0 |].
    apply emit_in_order. exact H0. }
  destruct Hst as (Hnext & Hidx & Hall).
  split; [exact Hidx |]. split; [symmetry; exact Hnext |].
  intros y Hy. specialize (Hall y Hy). unfold complete in Hall.
  destruct (getitem (partitions partitionset) (y_index _ _ y)) as [p | e]; [| discriminate].
  simpl in Hall. injection Hall as Hall.
  exists p. split; [reflexivity |].
  intros r Hr. unfold complete_partition in Hall.
  rewrite forallb_forall in Hall. specialize (Hall r (proj1 (list_elem_of_In _ _) Hr)).
  destruct (dict_get (y_treedata _ _ y) (path r)) as [l |]; [| discriminate].
  apply existsb_exists in Hall as ([[s e] a] & Hin & Hm).
  unfold matches in Hm. simpl in Hm.
  apply andb_true_iff in Hm as [Hs He].
  apply Z.eqb_eq in Hs, He. subst.
  exists l, a. split; [reflexivity |]. apply list_elem_of_In. exact Hin.
Qed.

End IteratorOrder.

(** ** When [fill] cannot satisfy the constraint *)

Lemma lookup_error_not_cannot_satisfy (e : Exn) :
  lookup_error e = true -> is_cannot_satisfy e = false.
Proof. destruct e; simpl; congruence. Qed.

Section Unsatisfiable.
Variable files : list (string * TTree).
Variable treepath : string.
Variable branchdtypes_arg : Branch -> option dtype.
Variable by_ : list Partition -> result Partition.
Variable under : list BasketData -> bool.
Variable toget : dict dtype.
Variable counters : dict string.

Local Abbreviation tree_ := (tree files branchdtypes_arg toget counters).
Local Abbreviation tree_branch_ := (tree_branch files branchdtypes_arg toget counters).
Local Abbreviation accumulate_ := (accumulate files branchdtypes_arg under).
Local Abbreviation growth_start_ := (growth_start files branchdtypes_arg toget counters).
Local Abbreviation candidate_ := (candidate files branchdtypes_arg under toget counters).
Local Abbreviation candidates_ := (candidates files branchdtypes_arg under toget counters).
Local Abbreviation more_to_do_ := (more_to_do files branchdtypes_arg toget counters).
Local Abbreviation fill_loop_ := (fun fuel => fill_loop files branchdtypes_arg by_ under fuel toget counters).
Local Abbreviation loop_state :=
  (PlannerSpec.loop_state files branchdtypes_arg by_ under toget counters).
Local Abbreviation zero_baskets :=
  (PlannerSpec.zero_baskets files branchdtypes_arg under toget counters).

Lemma getitem_raise {A} (l : list A) i e :
  getitem l i = Raise e -> lookup_error e = true.
Proof.
  unfold getitem. destruct (i <? 0); [intros [= <-]; reflexivity |].
  destruct (l !! Z.to_nat i); [discriminate | intros [= <-]; reflexivity].
Qed.

Lemma getlast_raise {A} (l : list A) e :
  getlast l = Raise e -> lookup_error e = true.
Proof.
  unfold getlast. destruct (last l); [discriminate | intros [= <-]; reflexivity].
Qed.

Lemma check_branches_raise_kind here prev tg cur ks e :
  check_branches here prev tg cur ks = Raise e -> lookup_error e = true.
Proof.
  revert cur. induction ks as [| k ks IH]; intros cur; simpl; [discriminate |].
  destruct (dict_get cur k); [| intros [= <-]; reflexivity].
  destruct (dict_get tg k); [| apply IH].
  destruct (negb _); [intros [= <-]; reflexivity | apply IH].
Qed.

Lemma check_counters_raise_kind here prev cs cur ks e :
  check_counters here prev cs cur ks = Raise e -> lookup_error e = true.
Proof.
  revert cur. induction ks as [| k ks IH]; intros cur; simpl; [discriminate |].
  destruct (dict_get cur k); [| intros [= <-]; reflexivity].
  destruct (dict_get cs k); [| apply IH].
  destruct (negb _); [intros [= <-]; reflexivity | apply IH].
Qed.

Lemma tree_raise i e : tree_ i = Raise e -> lookup_error e = true.
Proof.
  unfold tree.
  destruct (getitem files i) as [[here t] | e0] eqn:Hget; simpl.
  - destruct (i =? 0); [discriminate |].
    destruct (check_branches _ _ _ _ _) eqn:Hb; simpl.
    + destruct (check_counters _ _ _ _ _) eqn:Hc; simpl; [discriminate |].
      intros [= <-]. eapply check_counters_raise_kind. exact Hc.
    + intros [= <-]. eapply check_branches_raise_kind. exact Hb.
  - intros [= <-]. eapply getitem_raise. exact Hget.
Qed.

Lemma tree_getitem_raise bs b e :
  tree_getitem bs b = Raise e -> lookup_error e = true.
Proof.
  induction bs as [| b0 bs IH]; simpl; [intros [= <-]; reflexivity |].
  destruct (String.eqb _ _); [discriminate | exact IH].
Qed.

Lemma tree_branch_raise i b e :
  tree_branch_ i b = Raise e -> lookup_error e = true.
Proof.
  unfold tree_branch. destruct (tree_ i) eqn:Ht; simpl.
  - apply tree_getitem_raise.
  - intros [= <-]. eapply tree_raise. exact Ht.
Qed.

Lemma accumulate_raise fuel branchname dt branch :
  forall pathi basketi basketdata e,
  accumulate_ fuel toget counters branchname dt branch pathi basketi basketdata
    = Raise e -> is_cannot_satisfy e = false.
Proof.
  induction fuel as [| fuel IH]; intros pathi basketi basketdata e; simpl;
    [intros [= <-]; reflexivity |].
  assert (Happend : forall pathi0 basketi0,
    (p ← getitem (paths files) pathi0;
     if existsb (fun x => bd_entrystart x =? bd_entryend x)
          (basketdata ++ [basket_datum p branchname dt branch pathi0 basketi0])
     then Raise AssertionError
     else if negb (under (basketdata ++ [basket_datum p branchname dt branch pathi0 basketi0]))
          then Ok (pathi0, basketi0,
                   removelast (basketdata ++ [basket_datum p branchname dt branch pathi0 basketi0]))
          else accumulate_ fuel toget counters branchname dt
                 branch pathi0 (basketi0 + 1)
                 (basketdata ++ [basket_datum p branchname dt branch pathi0 basketi0]))
    = Raise e -> is_cannot_satisfy e = false).
  { intros pathi0 basketi0.
    destruct (getitem (paths files) pathi0) as [p | e0] eqn:Hget; simpl.
    - destruct (existsb _ _); [intros [= <-]; reflexivity |].
      destruct (negb _); [discriminate | apply IH].
    - intros [= <-]. eapply lookup_error_not_cannot_satisfy, getitem_raise. exact Hget. }
  destruct (basketi >=? numbaskets branch); [| apply Happend].
  destruct (pathi + 1 >=? len (paths files)); [discriminate |].
  destruct (tree_branch_ (pathi + 1) branchname) eqn:Hb; simpl; [apply Happend |].
  intros [= <-]. eapply lookup_error_not_cannot_satisfy, tree_branch_raise. exact Hb.
Qed.

(** The loop of lines 291-316 ends: with the steps that [candidate] grants
    it, [accumulate] never runs out of them. *)
Lemma accumulate_enough_fuel branchname dt branch (fuel : nat) :
  forall pathi basketi basketdata,
  Z.max 0 (len (paths files) - pathi) * (Z.max (numbaskets branch) 1 + 1)
    + Z.max 0 (numbaskets branch - basketi) < Z.of_nat fuel ->
  accumulate_ fuel toget counters branchname dt branch pathi basketi basketdata
    <> Raise OutOfFuel.
Proof.
  induction fuel as [| fuel IH]; intros pathi basketi basketdata Hfuel.
  - exfalso.
    assert (0 <= Z.max 0 (len (paths files) - pathi) * (Z.max (numbaskets branch) 1 + 1))
      by (apply Z.mul_nonneg_nonneg; lia).
    simpl in Hfuel. lia.
  - simpl.
    assert (Happend : forall pathi0 basketi0,
      Z.max 0 (len (paths files) - pathi0) * (Z.max (numbaskets branch) 1 + 1)
        + Z.max 0 (numbaskets branch - (basketi0 + 1)) < Z.of_nat fuel ->
      (p ← getitem (paths files) pathi0;
       if existsb (fun x => bd_entrystart x =? bd_entryend x)
            (basketdata ++ [basket_datum p branchname dt branch pathi0 basketi0])
       then Raise AssertionError
       else if negb (under (basketdata ++ [basket_datum p branchname dt branch pathi0 basketi0]))
            then Ok (pathi0, basketi0,
                     removelast (basketdata ++ [basket_datum p branchname dt branch pathi0 basketi0]))
            else accumulate_ fuel toget counters branchname dt
                   branch pathi0 (basketi0 + 1)
                   (basketdata ++ [basket_datum p branchname dt branch pathi0 basketi0]))
      <> Raise OutOfFuel).
    { intros pathi0 basketi0 Hlt.
      destruct (getitem (paths files) pathi0) as [p | e0] eqn:Hget; simpl.
      - destruct (existsb _ _); [discriminate |].
        destruct (negb _); [discriminate | apply IH; exact Hlt].
      - intros [= ->]. apply getitem_raise in Hget. discriminate. }
    destruct (Z.geb_spec basketi (numbaskets branch)) as [Hge | Hlt].
    + destruct (Z.geb_spec (pathi + 1) (len (paths files))) as [Hlast | Hmore];
        [discriminate |].
      destruct (tree_branch_ (pathi + 1) branchname) as [b0 | e0] eqn:Hb; simpl.
      * apply Happend.
        assert (Hmul : Z.max 0 (len (paths files) - (pathi + 1))
                         * (Z.max (numbaskets branch) 1 + 1)
                       = Z.max 0 (len (paths files) - pathi)
                           * (Z.max (numbaskets branch) 1 + 1)
                         - (Z.max (numbaskets branch) 1 + 1))
          by (rewrite (Z.max_r 0 (len (paths files) - (pathi + 1))),
                      (Z.max_r 0 (len (paths files) - pathi)) by lia; lia).
        rewrite Hmul. lia.
      * intros [= ->]. apply tree_branch_raise in Hb. discriminate.
    + apply Happend. lia.
Qed.

Lemma accumulate_fuel_enough branchname dt branch pathi basketi :
  accumulate_ (accumulate_fuel files branch pathi basketi) toget counters
    branchname dt branch pathi basketi [] <> Raise OutOfFuel.
Proof.
  apply accumulate_enough_fuel. unfold accumulate_fuel.
  assert (0 <= Z.max 0 (len (paths files) - pathi) * (Z.max (numbaskets branch) 1 + 1))
    by (apply Z.mul_nonneg_nonneg; lia).
  rewrite !Nat2Z.inj_succ, Z2Nat.id by lia. lia.
Qed.

Lemma getitem_Ok_range {A} (l : list A) i x :
  getitem l i = Ok x -> 0 <= i < len l.
Proof.
  unfold getitem, len. destruct (Z.ltb_spec i 0); [discriminate |].
  destruct (l !! Z.to_nat i) eqn:Hl; [| discriminate].
  intros _. apply lookup_lt_Some in Hl. lia.
Qed.

(** Baskets once accepted stay: the loop only drops the basket it has just
    appended. *)
Lemma accumulate_keeps_baskets branchname dt branch (fuel : nat) :
  forall pathi basketi basketdata pathi' basketi' out,
  accumulate_ fuel toget counters branchname dt branch pathi basketi basketdata
    = Ok (pathi', basketi', out) ->
  basketdata <> [] -> out <> [].
Proof.
  induction fuel as [| fuel IH]; intros pathi basketi basketdata pathi' basketi' out;
    cbn [accumulate]; [discriminate |].
  assert (Happend : forall pathi0 basketi0,
    (p ← getitem (paths files) pathi0;
     if existsb (fun x => bd_entrystart x =? bd_entryend x)
          (basketdata ++ [basket_datum p branchname dt branch pathi0 basketi0])
     then Raise AssertionError
     else if negb (under (basketdata ++ [basket_datum p branchname dt branch pathi0 basketi0]))
          then Ok (pathi0, basketi0,
                   removelast (basketdata ++ [basket_datum p branchname dt branch pathi0 basketi0]))
          else accumulate_ fuel toget counters branchname dt
                 branch pathi0 (basketi0 + 1)
                 (basketdata ++ [basket_datum p branchname dt branch pathi0 basketi0]))
    = Ok (pathi', basketi', out) ->
    basketdata <> [] -> out <> []).
  { intros pathi0 basketi0.
    destruct (getitem (paths files) pathi0) as [p0 | e0]; cbn [mbind result_bind];
      [| discriminate].
    destruct (existsb _ _); [discriminate |].
    destruct (negb _).
    - intros [= <- <- <-]. rewrite removelast_last. auto.
    - intros Hrun _. eapply IH; [exact Hrun |].
      intros Hnil. apply app_eq_nil in Hnil as [_ Hnil]. discriminate. }
  destruct (basketi >=? numbaskets branch); [| apply Happend].
  destruct (pathi + 1 >=? len (paths files)); [intros [= <- <- <-]; auto |].
  destruct (tree_branch_ (pathi + 1) branchname); cbn [mbind result_bind];
    [apply Happend | discriminate].
Qed.

(** The accumulation ends with no basket and in a file of the list exactly
    when its first basket is rejected. *)
Lemma accumulate_zero_iff branchname dt branch pathi basketi0 p :
  (exists pathi' basketi',
     accumulate_ (accumulate_fuel files branch pathi basketi0) toget counters
       branchname dt branch pathi basketi0 [] = Ok (pathi', basketi', [])
     /\ getitem (paths files) pathi' = Ok p)
  <-> (basketi0 >= numbaskets branch ->
         raises (tree_branch_ (pathi + 1) branchname) = false)
      /\ getitem (paths files) (fst (first_basket branch pathi basketi0)) = Ok p
      /\ basketentries branch (snd (first_basket branch pathi basketi0)) <> 0
      /\ under [basket_datum p branchname dt branch
                  (fst (first_basket branch pathi basketi0))
                  (snd (first_basket branch pathi basketi0))] = false.
Proof.
  unfold accumulate_fuel, first_basket.
  set (fuel := S (Z.to_nat _)).
  cbn [accumulate app].
  assert (Happend : forall pathi1 basketi1,
    (exists pathi' basketi',
       (p1 ← getitem (paths files) pathi1;
        if existsb (fun x => bd_entrystart x =? bd_entryend x)
             [basket_datum p1 branchname dt branch pathi1 basketi1]
        then Raise AssertionError
        else if negb (under [basket_datum p1 branchname dt branch pathi1 basketi1])
             then Ok (pathi1, basketi1,
                      removelast [basket_datum p1 branchname dt branch pathi1 basketi1])
             else accumulate_ fuel toget counters branchname dt
                    branch pathi1 (basketi1 + 1)
                    [basket_datum p1 branchname dt branch pathi1 basketi1])
       = Ok (pathi', basketi', [])
       /\ getitem (paths files) pathi' = Ok p)
    <-> getitem (paths files) pathi1 = Ok p
        /\ basketentries branch basketi1 <> 0
        /\ under [basket_datum p branchname dt branch pathi1 basketi1] = false).
  { intros pathi1 basketi1.
    destruct (getitem (paths files) pathi1) as [p1 | e1] eqn:Hp1; cbn [mbind result_bind].
    2: { split; [intros (? & ? & [=] & _) | intros ([=] & _)]. }
    replace (existsb (fun x => bd_entrystart x =? bd_entryend x)
               [basket_datum p1 branchname dt branch pathi1 basketi1])
      with (basketstart branch basketi1
              =? basketstart branch basketi1 + basketentries branch basketi1)
      by (cbn; rewrite orb_false_r; reflexivity).
    destruct (Z.eqb_spec (basketstart branch basketi1)
                (basketstart branch basketi1 + basketentries branch basketi1))
      as [Hempty | Hfull].
    { split; [intros (? & ? & [=] & _) | intros (_ & Hne & _); lia]. }
    destruct (under [basket_datum p1 branchname dt branch pathi1 basketi1]) eqn:Hunder;
      cbn [negb].
    - split.
      + intros (pathi' & basketi' & Hrun & _).
        apply accumulate_keeps_baskets in Hrun; [contradiction | discriminate].
      + intros ([= ->] & _ & Hrej). congruence.
    - cbn [removelast]. split.
      + intros (pathi' & basketi' & [= <- <-] & Hp).
        rewrite Hp1 in Hp. injection Hp as <-.
        split; [reflexivity |]. split; [lia | exact Hunder].
      + intros ([= ->] & _ & _). exists pathi1, basketi1. auto. }
  destruct (Z.geb_spec basketi0 (numbaskets branch)) as [Hge | Hlt]; cbn [fst snd].
  - destruct (Z.geb_spec (pathi + 1) (len (paths files))) as [Hend | Hmore].
    + split.
      * intros (pathi' & basketi' & [= <- <-] & Hp).
        apply getitem_Ok_range in Hp. lia.
      * intros (_ & Hp & _). apply getitem_Ok_range in Hp. lia.
    + destruct (tree_branch_ (pathi + 1) branchname) as [b0 | e0];
        cbn [mbind result_bind raises].
      * rewrite Happend. split; [intros H; split; [reflexivity | exact H] | tauto].
      * split; [intros (? & ? & [=] & _) | intros (H & _)].
        specialize (H ltac:(lia)). discriminate.
  - rewrite Happend. split; [intros H; split; [intros; lia | exact H] | tauto].
Qed.

Lemma zero_baskets_iff partitions basketi branchname dt e p :
  zero_baskets partitions basketi branchname dt e p
  <-> PlannerSpec.first_basket_rejected files branchdtypes_arg under toget counters
        partitions basketi branchname dt e p.
Proof.
  unfold PlannerSpec.zero_baskets, PlannerSpec.first_basket_rejected. split.
  - intros (pathi & basketi0 & branch & pathi' & basketi' & Hstart & Hacc & Hp).
    exists pathi, basketi0, branch. split; [exact Hstart |].
    apply accumulate_zero_iff. exists pathi', basketi'. auto.
  - intros (pathi & basketi0 & branch & Hstart & Hrest).
    apply accumulate_zero_iff in Hrest as (pathi' & basketi' & Hacc & Hp).
    exists pathi, basketi0, branch, pathi', basketi'. auto.
Qed.

#[local] Arguments accumulate : simpl never.

Lemma growth_start_raise partitions basketi branchname e :
  growth_start_ partitions basketi branchname = Raise e -> lookup_error e = true.
Proof.
  unfold growth_start. destruct (last partitions) as [lastp |].
  - destruct (getlast (ranges lastp)) as [r | e0] eqn:Hr; simpl.
    + destruct (tree_branch_ (rpathi r) branchname) eqn:Hb; simpl; [discriminate |].
      intros [= <-]. eapply tree_branch_raise. exact Hb.
    + intros [= <-]. eapply getlast_raise. exact Hr.
  - destruct (tree_branch_ 0 branchname) eqn:Hb; simpl; [discriminate |].
    intros [= <-]. eapply tree_branch_raise. exact Hb.
Qed.

Lemma align_first_raise partitions rs e :
  align_first partitions rs = Raise e -> lookup_error e = true.
Proof.
  unfold align_first. destruct (last partitions) as [lastp |]; [| discriminate].
  destruct (getlast (ranges lastp)) as [r | e0] eqn:Hr; simpl.
  - destruct rs as [| r0 rest]; [intros [= <-]; reflexivity |].
    destruct (_ =? _); discriminate.
  - intros [= <-]. eapply getlast_raise. exact Hr.
Qed.

Lemma more_to_do_raise partitions e :
  more_to_do_ partitions = Raise e -> lookup_error e = true.
Proof.
  unfold more_to_do. destruct (last partitions) as [lastp |]; [| discriminate].
  destruct (getlast (ranges lastp)) as [r | e0] eqn:Hr; simpl;
    [| intros [= <-]; eapply getlast_raise; exact Hr].
  destruct (getlast (paths files)) as [lp | e0] eqn:Hp; simpl;
    [| intros [= <-]; eapply getlast_raise; exact Hp].
  destruct (negb _); [discriminate |].
  destruct (tree_ (len (paths files) - 1)) eqn:Ht; simpl; [discriminate |].
  intros [= <-]. eapply tree_raise. exact Ht.
Qed.

Lemma len_zero {A} (l : list A) : (len l =? 0) = true <-> l = [].
Proof.
  unfold len. destruct l; simpl; split; try reflexivity; discriminate.
Qed.

(** One branch: the error of line 319 is raised exactly when the growth ends
    with no basket. *)
Lemma candidate_cannot_satisfy partitions partitioni basketi branchname dt b e p :
  candidate_ partitions partitioni basketi branchname dt = Raise (CannotSatisfy b e p)
  <-> b = branchname /\ zero_baskets partitions basketi branchname dt e p.
Proof.
  unfold candidate, PlannerSpec.zero_baskets.
  destruct (growth_start_ partitions basketi branchname)
    as [[[[pathi basketi0] entryi] branch] | e0] eqn:Hstart; simpl.
  - destruct (accumulate_ (accumulate_fuel files branch pathi basketi0)
                toget counters branchname dt branch pathi basketi0 [])
      as [[[pathi' basketi'] basketdata] | e1] eqn:Hacc; simpl.
    + destruct (len basketdata =? 0) eqn:Hlen.
      * apply len_zero in Hlen as ->.
        destruct (getitem (paths files) pathi') as [p0 | e2] eqn:Hp; simpl.
        -- split.
           ++ intros H. inversion H; subst. split; [reflexivity |].
              exists pathi, basketi0, branch, pathi', basketi'. auto.
           ++ intros [-> (x1 & x2 & x3 & x4 & x5 & [= <- <- <- <-] & H2 & H3)].
              rewrite Hacc in H2. injection H2 as <- <-.
              rewrite Hp in H3. injection H3 as <-. reflexivity.
        -- split.
           ++ intros [= ->]. apply getitem_raise in Hp. discriminate.
           ++ intros [-> (x1 & x2 & x3 & x4 & x5 & [= <- <- <- <-] & H2 & H3)].
              rewrite Hacc in H2. injection H2 as <- <-.
              rewrite Hp in H3. discriminate.
      * split.
        -- destruct (align_first partitions _) eqn:Hal; simpl; [discriminate |].
           intros [= ->]. apply align_first_raise in Hal. discriminate.
        -- intros [-> (x1 & x2 & x3 & x4 & x5 & [= <- <- <- <-] & H2 & H3)].
           rewrite Hacc in H2. injection H2 as _ _ ->.
           simpl in Hlen. discriminate.
    + split.
      * intros [= ->]. apply accumulate_raise in Hacc. discriminate.
      * intros [-> (x1 & x2 & x3 & x4 & x5 & [= <- <- <- <-] & H2 & H3)].
        rewrite Hacc in H2. discriminate.
  - split.
    + intros [= ->]. apply growth_start_raise in Hstart. discriminate.
    + intros [-> (x1 & x2 & x3 & x4 & x5 & H1 & _)]. discriminate.
Qed.

#[local] Arguments candidate : simpl never.

Lemma candidates_cannot_satisfy partitions partitioni b e p (branches : dict dtype) :
  forall basketi acc,
  candidates_ partitions partitioni basketi branches acc = Raise (CannotSatisfy b e p)
  <-> exists pre dt post acc' basketi',
        branches = pre ++ (b, dt) :: post
        /\ candidates_ partitions partitioni basketi pre acc = Ok (acc', basketi')
        /\ zero_baskets partitions basketi' b dt e p.
Proof.
  induction branches as [| [bn dt0] branches IH]; intros basketi acc; simpl.
  - split; [discriminate |].
    intros (pre & dt & post & acc' & bi & Hsplit & _). destruct pre; discriminate.
  - destruct (candidate_ partitions partitioni basketi bn dt0) as [[c bi0] | e0] eqn:Hc;
      simpl.
    + rewrite IH. split.
      * intros (pre & dt & post & acc' & bi & -> & Hpre & Hz).
        exists ((bn, dt0) :: pre), dt, post, acc', bi.
        split; [reflexivity |]. split; [| exact Hz].
        simpl. rewrite Hc. simpl. exact Hpre.
      * intros (pre & dt & post & acc' & bi & Hsplit & Hpre & Hz).
        destruct pre as [| [bn' dt'] pre].
        -- simpl in Hsplit. injection Hsplit as -> -> ->.
           injection Hpre as <- <-.
           assert (Hraise : candidate_ partitions partitioni basketi b dt
                            = Raise (CannotSatisfy b e p))
             by (apply candidate_cannot_satisfy; auto).
           congruence.
        -- simpl in Hsplit. injection Hsplit as -> -> ->.
           simpl in Hpre. rewrite Hc in Hpre. simpl in Hpre.
           exists pre, dt, post, acc', bi. auto.
    + split.
      * intros [= ->]. apply candidate_cannot_satisfy in Hc as [-> Hz].
        exists [], dt0, branches, acc, basketi. auto.
      * intros (pre & dt & post & acc' & bi & Hsplit & Hpre & Hz).
        destruct pre as [| [bn' dt'] pre].
        -- simpl in Hsplit. injection Hsplit as -> -> ->.
           injection Hpre as <- <-.
           assert (Hraise : candidate_ partitions partitioni basketi b dt
                            = Raise (CannotSatisfy b e p))
             by (apply candidate_cannot_satisfy; auto).
           congruence.
        -- simpl in Hsplit. injection Hsplit as -> -> ->.
           simpl in Hpre. rewrite Hc in Hpre. discriminate.
Qed.

#[local] Arguments candidates : simpl never.

(** Every state of the loop is reached by the run from the start. *)
Lemma fill_loop_from_start partitions partitioni basketi :
  loop_state partitions partitioni basketi ->
  forall fuel, exists fuel',
    fill_loop_ fuel' [] 0 0 = fill_loop_ fuel partitions partitioni basketi.
Proof.
  induction 1 as [| partitions partitioni basketi possiblenext basketi' chosen r0
                    Hstate IH Hmore Hcands Hby Hr0]; intros fuel.
  - exists fuel. reflexivity.
  - destruct (IH (S fuel)) as [fuel' Hfuel']. exists fuel'.
    rewrite Hfuel'. simpl. rewrite Hmore. simpl. rewrite Hcands. simpl.
    rewrite Hby. simpl. rewrite Hr0. reflexivity.
Qed.

Hypothesis by_raise :
  forall choices e, by_ choices = Raise e -> is_cannot_satisfy e = false.

Lemma fill_loop_cannot_satisfy b e p (fuel : nat) :
  forall partitions partitioni basketi,
  loop_state partitions partitioni basketi ->
  fill_loop_ fuel partitions partitioni basketi = Raise (CannotSatisfy b e p) ->
  exists partitions' partitioni' basketi',
    loop_state partitions' partitioni' basketi'
    /\ more_to_do_ partitions' = Ok true
    /\ candidates_ partitions' partitioni' basketi' toget []
       = Raise (CannotSatisfy b e p).
Proof using by_raise.
  induction fuel as [| fuel IH]; intros partitions partitioni basketi Hstate; simpl.
  - destruct (more_to_do_ partitions) as [[|] | e0] eqn:Hmore; simpl; try discriminate.
    intros [= ->]. apply more_to_do_raise in Hmore. discriminate.
  - destruct (more_to_do_ partitions) as [[|] | e0] eqn:Hmore; simpl; try discriminate.
    + destruct (candidates_ partitions partitioni basketi toget [])
        as [[possiblenext basketi'] | e1] eqn:Hcands; simpl.
      * destruct (by_ possiblenext) as [chosen | e2] eqn:Hby; simpl.
        -- destruct (getitem (ranges chosen) 0) as [r0 | e3] eqn:Hr0; simpl.
           ++ apply IH. eapply loop_next; eauto.
           ++ intros [= ->]. apply getitem_raise in Hr0. discriminate.
        -- intros [= ->]. apply by_raise in Hby. discriminate.
      * intros [= ->]. exists partitions, partitioni, basketi. auto.
    + intros [= ->]. apply more_to_do_raise in Hmore. discriminate.
Qed.

End Unsatisfiable.

Lemma PartitionSet_init_raise tp bd bc np ne args e :
  PartitionSet_init tp bd bc np ne args = Raise e -> is_cannot_satisfy e = false.
Proof.
  unfold PartitionSet_init.
  destruct (negb _); [intros [= <-]; reflexivity |].
  destruct (negb _); [intros [= <-]; reflexivity |].
  assert (Hmap : forall e0, mapM arg_partition args = Raise e0 -> is_cannot_satisfy e0 = false).
  { induction args as [| a args IH]; simpl; [discriminate |].
    destruct a; simpl.
    - destruct (mapM arg_partition args); simpl; [discriminate |].
      intros e1 [= <-]. apply IH. reflexivity.
    - intros e1 [= <-]. reflexivity. }
  destruct (mapM arg_partition args); simpl.
  - destruct (negb _); [intros [= <-]; reflexivity |].
    destruct (negb _); [intros [= <-]; reflexivity | discriminate].
  - intros [= <-]. apply Hmap. reflexivity.
Qed.

(** C6, amended: [fill] raises the error of line 319, "cannot satisfy the
    constraint", if and only if, in the growth of some partition and for some
    selected branch, zero baskets satisfy [under] because the first basket
    that the accumulation appends, which is not empty, already violates it.
    The error carries the name of that branch, the entry the growth started
    at and the path of the file of that first basket.  [by_] is taken not to
    raise that error itself.  ([fill] raises other errors as well: on a
    schema mismatch, lines 253-266; [IndexError] at line 319 when the
    accumulation runs past the last file with no basket; [AssertionError] at
    line 310 when the first basket is empty.) *)
Theorem fill_cannot_satisfy_iff (files : list (string * TTree)) (treepath : string)
    (branchdtypes_arg : Branch -> option dtype)
    (by_ : list Partition -> result Partition)
    (under : list BasketData -> bool)
    (file0 : string * TTree) (b : string) (e : Z) (p : string) :
  (forall choices err, by_ choices = Raise err -> is_cannot_satisfy err = false) ->
  getitem files 0 = Ok file0 ->
  let toget := selection branchdtypes_arg (snd file0) in
  let counters := counters_of (snd file0) in
  (exists fuel, fill files treepath branchdtypes_arg by_ under fuel
                = Raise (CannotSatisfy b e p))
  <-> some_first_basket_rejected files branchdtypes_arg by_ under toget counters b e p.
Proof.
  intros Hby Hfile0 toget counters. destruct file0 as [path0 tree0].
  simpl in toget, counters.
  unfold fill. rewrite Hfile0. cbn [mbind result_bind].
  fold toget counters. split.
  - intros [fuel Hfill].
    destruct (fill_loop files branchdtypes_arg by_ under fuel toget counters [] 0 0)
      as [partitions | e0] eqn:Hloop; simpl in Hfill.
    + apply PartitionSet_init_raise in Hfill. discriminate.
    + injection Hfill as ->.
      destruct (fill_loop_cannot_satisfy files branchdtypes_arg by_ under toget counters
                  Hby b e p fuel [] 0 0 (loop_first _ _ _ _ _ _) Hloop)
        as (partitions' & partitioni' & basketi' & Hstate & Hmore & Hcands).
      apply candidates_cannot_satisfy in Hcands
        as (pre & dt & post & acc' & bi & Hsplit & Hpre & Hz).
      apply zero_baskets_iff in Hz.
      exists partitions', partitioni', basketi', pre, dt, post, acc', bi. auto.
  - intros (partitions & partitioni & basketi & pre & dt & post & acc' & bi
            & Hstate & Hmore & Hsplit & Hpre & Hz).
    apply zero_baskets_iff in Hz.
    assert (Hcands : candidates files branchdtypes_arg under toget counters
                       partitions partitioni basketi toget []
                     = Raise (CannotSatisfy b e p)).
    { apply candidates_cannot_satisfy. exists pre, dt, post, acc', bi. auto. }
    destruct (fill_loop_from_start files branchdtypes_arg by_ under toget counters
                partitions partitioni basketi Hstate 1%nat) as [fuel' Hfuel'].
    exists fuel'. rewrite Hfuel'. simpl. rewrite Hmore. simpl. rewrite Hcands.
    reflexivity.
Qed.

End PlannerProps.

(** * The planner on concrete files *)

Module PlannerChecks.
Import Planner PlannerSpec PlannerRuns PlannerProps.

(** C2, on two files: [fill] returns a partition set whose ranges do not tile
    the files: the range in ["B.root"] ends at entry 100 while the tree of
    ["B.root"] has 50 entries. *)
Theorem fill_breaks_tiling (fuel : nat) :
  fill_AB (S fuel) = Ok partitionset_AB
  /\ tiling [file_A; file_B] partitionset_AB = false
  /\ ranges_of_path "B.root" partitionset_AB = [mkRange "B.root" 0 100 1]
  /\ t_numentries (snd file_B) = 50.
Proof.
  destruct fuel; vm_compute; repeat split; reflexivity.
Qed.

(** C3, on the same files: after the baskets of ["A.root"] are exhausted the
    accumulation moves to ["B.root"], but the [BasketData] it appends for
    ["B.root"] repeats basket 0 of the branch of ["A.root"] (entries 0 to 100,
    400 bytes) instead of basket 0 of the branch of ["B.root"] (entries 0 to
    50, 200 bytes). *)
Theorem accumulate_keeps_first_branch :
  let toget := selection default_branchdtypes (snd file_A) in
  let branch_A := branch_of "x" [(100, 400)] in
  let branch_B := branch_of "x" [(50, 200)] in
  tree_branch [file_A; file_B] default_branchdtypes toget [] 0 "x" = Ok branch_A
  /\ tree_branch [file_A; file_B] default_branchdtypes toget [] 1 "x" = Ok branch_B
  /\ accumulate [file_A; file_B] default_branchdtypes default_under
       (accumulate_fuel [file_A; file_B] branch_A 0 0) toget [] "x" "int32" branch_A 0 0 []
     = Ok (2, 0, [mkBasketData "A.root" "x" "int32" [] 0 100 400 0;
                  mkBasketData "B.root" "x" "int32" [] 0 100 400 1])
  /\ basket_datum "B.root" "x" "int32" branch_B 1 0
     = mkBasketData "B.root" "x" "int32" [] 0 50 200 1.
Proof.
  vm_compute. repeat split; reflexivity.
Qed.

(** C4, on the partition set that [fill] returns for the two files:
    [fromJson] raises on what [toJson] wrote, because line 163 unpacks the
    key ["x"] of the [branchdtypes] object into two names.  Without any
    branch it raises in the constructor, because line 167 passes the list of
    partitions as one argument.  [fromJson] and [fromJsonString] return a
    partition set for no input at all. *)
Theorem fromJson_toJson_raises (numpy_dtype : string -> result dtype)
    (json_loads : string -> result json) :
  fromJson numpy_dtype (toJson partitionset_AB) = Raise UnpackError
  /\ fromJson numpy_dtype
       (toJson (mkPartitionSet "tree" [] [] 1 100
                  [mkPartition 0 [mkRange "A.root" 0 100 0]]))
     = Raise AssertionError
  /\ (forall ps, raises (fromJson numpy_dtype (toJson ps)) = true)
  /\ (forall obj, raises (fromJson numpy_dtype obj) = true)
  /\ (forall s, raises (fromJsonString numpy_dtype json_loads s) = true).
Proof.
  split; [reflexivity |]. split; [reflexivity |].
  split; [intros ps; apply fromJson_raises |].
  split; [apply fromJson_raises |].
  intros s. unfold fromJsonString. apply bind_raises. apply fromJson_raises.
Qed.

(** C6 as stated fails: with an [under] that accepts every list of baskets,
    [fill] still raises, because the second file has no branch ["x"]. *)
Lemma fill_raises_on_schema_mismatch :
  (forall fuel,
     fill [file_A; file_C] "tree" default_branchdtypes default_by under_anything (S fuel)
     = Raise (BranchNotFound "x" "C.root" "A.root"))
  /\ (forall baskets, under_anything baskets = true).
Proof.
  split; [| reflexivity].
  intros fuel. vm_compute. reflexivity.
Qed.

Lemma default_by_raise (choices : list Partition) (err : Exn) :
  default_by choices = Raise err -> is_cannot_satisfy err = false.
Proof. destruct choices; simpl; [intros [= <-]; reflexivity | discriminate]. Qed.

(** The two other ways a growth ends with no basket, under an [under] that
    rejects every list: a branch without baskets in the only file runs past
    the last file, and line 319 raises [IndexError]; a first basket without
    entries fails the assertion of line 310 before [under] is asked. *)
Lemma fill_without_baskets_other_errors :
  fill [file_E] "tree" default_branchdtypes default_by under_nothing 1
  = Raise IndexError
  /\ fill [("Z.root"%string, mkTTree 0 [branch_of "x" [(0, 0)]] [])] "tree"
       default_branchdtypes default_by under_nothing 1
     = Raise AssertionError.
Proof. split; vm_compute; reflexivity. Qed.

Lemma fill_cannot_satisfy_iff_witness :
  getitem [file_A; file_B] 0 = Ok file_A
  /\ some_first_basket_rejected [file_A; file_B] default_branchdtypes default_by
       under_nothing (selection default_branchdtypes (snd file_A))
       (counters_of (snd file_A)) "x" 0 "A.root".
Proof.
  assert (H0 : getitem [file_A; file_B] 0 = Ok file_A) by reflexivity.
  split; [exact H0 |].
  apply (proj1 (fill_cannot_satisfy_iff [file_A; file_B] "tree" default_branchdtypes
                  default_by under_nothing file_A "x" 0 "A.root"
                  default_by_raise H0)).
  exists 1%nat. vm_compute. reflexivity.
Defined.

Lemma check_branches_spec_witness :
  exists r, check_branches "B.root" "A.root" [("x", "int32")]
              [("x", "int32"); ("y", "float64")] ["x"; "y"]%string = Ok r
            /\ dict_get r "y" = None /\ dict_get r "x" = Some "int32"%string.
Proof.
  assert (Hks : NoDup ["x"; "y"]%string).
  { apply (bool_decide_unpack _). vm_compute. exact I. }
  assert (Hnew : NoDup (dict_keys [("x", "int32"); ("y", "float64")]%string)).
  { apply (bool_decide_unpack _). vm_compute. exact I. }
  assert (Hunion : forall k : string, k ∈ ["x"; "y"]%string
            <-> k ∈ dict_keys [("x", "int32")]%string
                \/ k ∈ dict_keys [("x", "int32"); ("y", "float64")]%string).
  { intros k. simpl. rewrite !elem_of_cons. tauto. }
  destruct (check_branches_spec "B.root" "A.root" [("x", "int32")]%string
              [("x", "int32"); ("y", "float64")]%string ["x"; "y"]%string
              Hks Hnew Hunion) as (Hiff & Hok & _).
  destruct (proj2 Hiff) as [r Hr].
  { intros k d. cbn [dict_get]. destruct (String.eqb "x" k); [auto | intros; discriminate]. }
  exists r. split; [exact Hr |].
  split; rewrite (Hok r Hr); reflexivity.
Defined.

End PlannerChecks.

(** * Further properties of the writer *)

Module WriterExtras.
Import NewWriter WriterSpec WriterProps.

Section WithLayout.
Context {L : Layout}.

(** ** Counting *)

(** X1: After [__init__] and any inserts, [nkeys] is the number of inserts and
    the objects stored are the strings of the [TObjString] values, in the
    order of the inserts. *)
Theorem inserts_count_objects (filename : string) (ops : list (string * Item)) :
  nkeys (inserts ops (__init__ filename)) = len ops
  /\ reverse (objects_written (trace (inserts ops (__init__ filename))))
     = strings_of ops.
Proof.
  destruct (inserts_counts ops (__init__ filename)) as [Hn Ho].
  destruct (init_counts filename) as [Hn0 Ho0].
  rewrite Hn0 in Hn. rewrite Ho0, app_nil_r in Ho.
  split; [lia |]. rewrite Ho. apply reverse_involutive.
Qed.

(** ** The order of the two header offsets *)

Lemma same_offsets_consistent (w w' : Writer) :
  same_offsets w w' -> offsets_consistent w -> offsets_consistent w'.
Proof.
  intros (H1 & H2 & H3 & H4 & _) (He & Hp & Hle).
  repeat split; congruence || lia.
Qed.

Lemma assign_both_consistent (v : Z) (w : Writer) :
  offsets_consistent w -> offsets_consistent (assign_fSeekFree v (assign_fEND v w)).
Proof. intros (He & Hp & Hle). repeat split; try assumption. cbn. lia. Qed.

Lemma key_realloc_consistent w :
  offsets_consistent w -> offsets_consistent (key_realloc w).
Proof.
  intros Hok. unfold key_realloc.
  destruct (keylimit w - keyend w <? 200); [| assumption].
  eapply same_offsets_consistent;
    [| apply (assign_both_consistent (fEND (header w) + 250000) w Hok)].
  destruct Hok as (He & Hp & _).
  repeat split; try reflexivity; cbn; rewrite He, Hp; reflexivity.
Qed.

Lemma streamer_realloc_consistent w :
  offsets_consistent w -> offsets_consistent (streamer_realloc w).
Proof.
  intros Hok. unfold streamer_realloc.
  destruct (streamerlimit w - streamerend w <? 500); [| assumption].
  eapply same_offsets_consistent;
    [| apply (assign_both_consistent (fEND (header w) + 250000) w Hok)].
  destruct Hok as (He & Hp & _).
  repeat split; try reflexivity; cbn; rewrite He, Hp; reflexivity.
Qed.

Lemma place_streamers_consistent w :
  offsets_consistent w -> offsets_consistent (place_streamers w).
Proof.
  intros Hok. unfold place_streamers.
  destruct (negb _); [| assumption].
  eapply same_offsets_consistent with (w := streamer_realloc _);
    [repeat split; reflexivity |].
  apply streamer_realloc_consistent.
  eapply same_offsets_consistent; [| exact Hok]. repeat split; reflexivity.
Qed.

Lemma update_header_consistent w :
  offsets_consistent w -> offsets_consistent (update_header w).
Proof.
  intros Hok. unfold update_header.
  destruct (Z.gtb_spec (cursor w) (fEND (header w))) as [Hgt | Hle].
  - eapply same_offsets_consistent
      with (w := assign_fSeekFree (cursor w) (assign_fEND (cursor w) w));
      [repeat split; reflexivity | apply assign_both_consistent, Hok].
  - eapply same_offsets_consistent; [| exact Hok]. repeat split; reflexivity.
Qed.

Lemma setitem_consistent keyname item w :
  offsets_consistent w -> offsets_consistent (__setitem__ keyname item w).
Proof.
  intros Hok. unfold __setitem__.
  apply update_header_consistent.
  eapply same_offsets_consistent; [apply update_keys_offsets |].
  assert (Hok0 : offsets_consistent (set_cursor (fEND (header w)) w)).
  { eapply same_offsets_consistent; [apply set_cursor_offsets | exact Hok]. }
  destruct item as [s | t]; [| exact Hok0].
  unfold place_tobjstring.
  apply place_streamers_consistent.
  eapply same_offsets_consistent; [apply place_key_offsets |].
  apply key_realloc_consistent.
  eapply same_offsets_consistent; [apply place_object_offsets | exact Hok0].
Qed.

Lemma init_keys_consistent w :
  expander w = 500 -> expanderpow w = 2 -> offsets_consistent (init_keys w).
Proof.
  intros He Hp. repeat split; try assumption. cbn. rewrite He. lia.
Qed.

(** X2: After [__init__] and any inserts, [fSeekFree] does not exceed [fEND],
    whatever the records of the layout look like. *)
Theorem seekfree_le_end (filename : string) (ops : list (string * Item)) :
  fSeekFree (header (inserts ops (__init__ filename)))
  <= fEND (header (inserts ops (__init__ filename))).
Proof.
  assert (Hinit : offsets_consistent (__init__ filename)).
  { unfold __init__.
    destruct (init_streamers_ok _ _
                (init_streamerkey_ok _ _
                   (init_directory_ok _ _ (init_begin_ok filename))))
      as (He & Hp & _).
    apply init_keys_consistent; assumption. }
  assert (Hall : forall ops w, offsets_consistent w -> offsets_consistent (inserts ops w)).
  { clear. induction ops as [| op ops IH]; intros w Hok; [exact Hok |].
    apply IH, setitem_consistent, Hok. }
  apply (Hall ops _ Hinit).
Qed.

(** ** What the steps of an insert leave alone *)

Lemma quiet_keys_trans w1 w2 w3 :
  quiet_keys w1 w2 -> quiet_keys w2 w3 -> quiet_keys w1 w3.
Proof.
  unfold quiet_keys. intros (A1 & A2 & A3 & A4 & A5 & A6) (B1 & B2 & B3 & B4 & B5 & B6).
  repeat split; congruence.
Qed.

Lemma quiet_streamers_trans w1 w2 w3 :
  quiet_streamers w1 w2 -> quiet_streamers w2 w3 -> quiet_streamers w1 w3.
Proof.
  unfold quiet_streamers. intros (A1 & A2 & A3 & A4) (B1 & B2 & B3 & B4).
  repeat split; congruence.
Qed.


Lemma place_object_quiet keyname s w :
  quiet_keys w (place_object keyname s w)
  /\ quiet_streamers w (place_object keyname s w).
Proof. repeat split; reflexivity. Qed.

Lemma key_realloc_quiet w :
  quiet_keys w (key_realloc w) /\ quiet_streamers w (key_realloc w).
Proof.
  unfold key_realloc. destruct (_ <? _); repeat split; try reflexivity.
  unfold keylist_length. cbn. lia.
Qed.

Lemma update_header_quiet w :
  quiet_keys w (update_header w) /\ quiet_streamers w (update_header w).
Proof. unfold update_header. destruct (_ >? _); repeat split; reflexivity. Qed.

Lemma place_key_quiet key w :
  (head_key_pointcheck (place_key key w) = head_key_pointcheck w
   /\ head_key_end (place_key key w) = head_key_end w
   /\ directory_pointcheck (place_key key w) = directory_pointcheck w
   /\ nkeys (place_key key w) = nkeys w
   /\ numbers_written (trace (place_key key w)) = numbers_written (trace w)
   /\ keylist_length (place_key key w) = keylist_length w + len (ser_key key))
  /\ quiet_streamers w (place_key key w).
Proof.
  repeat split; try reflexivity. unfold keylist_length. cbn. lia.
Qed.

Lemma update_keys_quiet w :
  (head_key_pointcheck (update_keys w) = head_key_pointcheck w
   /\ head_key_end (update_keys w) = head_key_end w
   /\ directory_pointcheck (update_keys w) = directory_pointcheck w
   /\ nkeys (update_keys w) = nkeys w + 1
   /\ numbers_written (trace (update_keys w))
      = (head_key_end w, nkeys w + 1) :: numbers_written (trace w)
   /\ keylist_length (update_keys w) = keylist_length w)
  /\ quiet_streamers w (update_keys w).
Proof. repeat split; reflexivity. Qed.

Lemma streamer_realloc_quiet w : quiet_keys w (streamer_realloc w).
Proof. unfold streamer_realloc. destruct (_ <? _); repeat split; reflexivity. Qed.

Lemma place_streamers_quiet w : quiet_keys w (place_streamers w).
Proof.
  unfold place_streamers. destruct (negb _); [| repeat split; reflexivity].
  eapply quiet_keys_trans with (w2 := streamer_realloc _); [| repeat split; reflexivity].
  eapply quiet_keys_trans; [| apply streamer_realloc_quiet].
  repeat split; reflexivity.
Qed.

Lemma place_tobjstring_keys keyname s w :
  head_key_pointcheck (place_tobjstring keyname s w) = head_key_pointcheck w
  /\ head_key_end (place_tobjstring keyname s w) = head_key_end w
  /\ directory_pointcheck (place_tobjstring keyname s w) = directory_pointcheck w
  /\ nkeys (place_tobjstring keyname s w) = nkeys w
  /\ numbers_written (trace (place_tobjstring keyname s w)) = numbers_written (trace w)
  /\ keylist_length (place_tobjstring keyname s w)
     = keylist_length w + len (ser_key (StringKey keyname (cursor w))).
Proof.
  unfold place_tobjstring.
  destruct (place_object_quiet keyname s w) as [Q1 _].
  generalize dependent (place_object keyname s w). intros w1 Q1.
  destruct (key_realloc_quiet w1) as [Q2 _].
  generalize dependent (key_realloc w1). intros w2 Q2.
  destruct (place_key_quiet (StringKey keyname (cursor w)) w2) as [Q3 _].
  generalize dependent (place_key (StringKey keyname (cursor w)) w2). intros w3 Q3.
  pose proof (place_streamers_quiet w3) as Q4.
  generalize dependent (place_streamers w3). intros w4 Q4.
  unfold quiet_keys in *.
  destruct Q1 as (A1 & A2 & A3 & A4 & A5 & A6).
  destruct Q2 as (B1 & B2 & B3 & B4 & B5 & B6).
  destruct Q3 as (C1 & C2 & C3 & C4 & C5 & C6).
  destruct Q4 as (D1 & D2 & D3 & D4 & D5 & D6).
  repeat split; congruence.
Qed.

Lemma setitem_keys (keyname : string) (item : Item) (w : Writer) :
  let w' := __setitem__ keyname item w in
  head_key_pointcheck w' = head_key_pointcheck w
  /\ head_key_end w' = head_key_end w
  /\ directory_pointcheck w' = directory_pointcheck w
  /\ nkeys w' = nkeys w + 1
  /\ numbers_written (trace w')
     = (head_key_end w, nkeys w + 1) :: numbers_written (trace w)
  /\ keylist_length w'
     = keylist_length w
       + match item with
         | TObjString _ => len (ser_key (StringKey keyname (fEND (header w))))
         | OtherObject _ => 0
         end.
Proof.
  intros w'. subst w'. unfold __setitem__.
  assert (Hmid : let w1 := match item with
                           | TObjString s => place_tobjstring keyname s (set_cursor (fEND (header w)) w)
                           | OtherObject _ => set_cursor (fEND (header w)) w
                           end in
                 head_key_pointcheck w1 = head_key_pointcheck w
                 /\ head_key_end w1 = head_key_end w
                 /\ directory_pointcheck w1 = directory_pointcheck w
                 /\ nkeys w1 = nkeys w
                 /\ numbers_written (trace w1) = numbers_written (trace w)
                 /\ keylist_length w1
                    = keylist_length w
                      + match item with
                        | TObjString _ => len (ser_key (StringKey keyname (fEND (header w))))
                        | OtherObject _ => 0
                        end).
  { destruct item as [s | t].
    - exact (place_tobjstring_keys keyname s (set_cursor (fEND (header w)) w)).
    - repeat split; try reflexivity. unfold keylist_length. cbn. lia. }
  cbv zeta in Hmid.
  generalize dependent (match item with
                        | TObjString s => place_tobjstring keyname s (set_cursor (fEND (header w)) w)
                        | OtherObject _ => set_cursor (fEND (header w)) w
                        end).
  intros w1 (A1 & A2 & A3 & A4 & A5 & A6).
  destruct (update_keys_quiet w1) as [Q1 _].
  generalize dependent (update_keys w1). intros w2 Q1.
  destruct (update_header_quiet w2) as [Q2 _].
  generalize dependent (update_header w2). intros w3 Q2.
  unfold quiet_keys in *.
  destruct Q1 as (B1 & B2 & B3 & B4 & B5 & B6).
  destruct Q2 as (C1 & C2 & C3 & C4 & C5 & C6).
  repeat split; congruence.
Qed.


(** X3: One insert: the fixed offsets stay, the counter [nkeys + 1] is stored at
    [head_key_end], and the key list grows by the string key of a
    [TObjString] and by nothing for another value; a relocation of the key
    list does not change its length. *)
Theorem setitem_keys_effect (keyname : string) (item : Item) (w : Writer) :
  let w' := __setitem__ keyname item w in
  head_key_pointcheck w' = head_key_pointcheck w
  /\ head_key_end w' = head_key_end w
  /\ directory_pointcheck w' = directory_pointcheck w
  /\ nkeys w' = nkeys w + 1
  /\ numbers_written (trace w')
     = (head_key_end w, nkeys w + 1) :: numbers_written (trace w)
  /\ keylist_length w'
     = keylist_length w
       + match item with
         | TObjString _ => len (ser_key (StringKey keyname (fEND (header w))))
         | OtherObject _ => 0
         end.
Proof. exact (setitem_keys keyname item w). Qed.

(** ** Where every key counter goes *)

Lemma counters_at_snoc pos first n :
  counters_at pos first (S n) = (pos, first + Z.of_nat n) :: counters_at pos first n.
Proof.
  unfold counters_at. rewrite seq_S, map_app, reverse_app. reflexivity.
Qed.

Lemma counters_at_shift pos first n :
  counters_at pos first (S n)
  = counters_at pos (first + 1) n ++ [(pos, first)].
Proof.
  induction n as [| n IH].
  - unfold counters_at. simpl. rewrite Z.add_0_r. reflexivity.
  - rewrite counters_at_snoc, IH, (counters_at_snoc pos (first + 1) n).
    rewrite <- app_comm_cons. do 2 f_equal. lia.
Qed.

Lemma inserts_numbers ops :
  forall w,
  head_key_end (inserts ops w) = head_key_end w
  /\ numbers_written (trace (inserts ops w))
     = counters_at (head_key_end w) (nkeys w + 1) (length ops)
       ++ numbers_written (trace w).
Proof.
  induction ops as [| [keyname item] ops IH]; intros w; [split; reflexivity |].
  change (inserts ((keyname, item) :: ops) w)
    with (inserts ops (__setitem__ keyname item w)).
  destruct (IH (__setitem__ keyname item w)) as [H1 H2].
  destruct (setitem_keys keyname item w) as (_ & A2 & _ & A4 & A5 & _).
  generalize dependent (__setitem__ keyname item w). intros w1 H1 H2 A2 A4 A5.
  split; [congruence |].
  rewrite H2, A5, A2, A4.
  change (length ((keyname, item) :: ops)) with (S (length ops)).
  rewrite counters_at_shift, <- app_assoc. reflexivity.
Qed.

Lemma init_keys_fields w :
  let hk := HeadKey (fNbytesKeys (directory w)) (fSeekKeys (directory w)) (bytename w) in
  (keystart (init_keys w) = cursor w
   /\ head_key_pointcheck (init_keys w) = cursor w
   /\ keylimit (init_keys w) = cursor w + expander w
   /\ head_key (init_keys w) = hk
   /\ head_key_end (init_keys w) = cursor w + len (ser_key hk))
  /\ (keyend (init_keys w) = cursor w + len (ser_key hk) + len (ser_numbers 0)
      /\ fSeekFree (header (init_keys w))
         = cursor w + len (ser_key hk) + len (ser_numbers 0)
      /\ fEND (header (init_keys w))
         = cursor w + len (ser_key hk) + len (ser_numbers 0) + expander w
      /\ nkeys (init_keys w) = 0
      /\ numbers_written (trace (init_keys w))
         = (cursor w + len (ser_key hk), 0) :: numbers_written (trace w))
  /\ (directory (init_keys w) = directory w
      /\ directory_pointcheck (init_keys w) = directory_pointcheck w
      /\ bytename (init_keys w) = bytename w
      /\ expander (init_keys w) = expander w)
  /\ quiet_streamers w (init_keys w).
Proof. intros hk. repeat split; reflexivity. Qed.

Lemma init_numbers filename :
  numbers_written (trace (__init__ filename)) = [(head_key_end (__init__ filename), 0)]
  /\ nkeys (__init__ filename) = 0
  /\ head_key_end (__init__ filename)
     = keystart (__init__ filename) + len (ser_key (head_key (__init__ filename))).
Proof.
  unfold __init__.
  assert (H0 : numbers_written (trace (init_begin filename)) = []) by reflexivity.
  generalize dependent (init_begin filename). intros w0 H0.
  assert (H1 : numbers_written (trace (init_directory w0)) = []) by exact H0.
  generalize dependent (init_directory w0). clear H0. intros w1 H1.
  assert (H2 : numbers_written (trace (init_streamerkey w1)) = []) by exact H1.
  generalize dependent (init_streamerkey w1). clear H1. intros w2 H2.
  assert (H3 : numbers_written (trace (init_streamers w2)) = []) by exact H2.
  generalize dependent (init_streamers w2). clear H2. intros w3 H3.
  destruct (init_keys_fields w3)
    as ((A1 & _ & _ & A4 & A5) & (_ & _ & _ & B4 & B5) & _).
  generalize dependent (init_keys w3). intros w4 A1 A4 A5 B4 B5.
  rewrite B5, H3, A5, A1, A4. repeat split. exact B4.
Qed.

(** X4: After [__init__] and any inserts, the counters 0, 1, ..., one per insert,
    were all stored at one offset: the end of the head key that [__init__]
    stored at [keystart].  The offset does not follow the key list when an
    insert moves the list. *)
Theorem counters_stored_at_one_offset (filename : string) (ops : list (string * Item)) :
  let w0 := __init__ filename in
  let w := inserts ops w0 in
  head_key_end w0 = keystart w0 + len (ser_key (head_key w0))
  /\ head_key_end w = head_key_end w0
  /\ numbers_written (trace w) = counters_at (head_key_end w0) 0 (S (length ops)).
Proof.
  intros w0 w. subst w w0.
  destruct (init_numbers filename) as (H1 & H2 & H3).
  destruct (inserts_numbers ops (__init__ filename)) as [H4 H5].
  split; [exact H3 |]. split; [exact H4 |].
  rewrite H5, H1, H2. symmetry. apply counters_at_shift.
Qed.

(** ** The file [__init__] lays out *)

Lemma init_begin_fields filename :
  expander (init_begin filename) = 500
  /\ expanderpow (init_begin filename) = 2
  /\ streamers (init_begin filename) = []
  /\ bytename (init_begin filename) = basename filename.
Proof. repeat split; reflexivity. Qed.

Lemma init_directory_fields w :
  expander (init_directory w) = expander w
  /\ expanderpow (init_directory w) = expanderpow w
  /\ streamers (init_directory w) = streamers w
  /\ bytename (init_directory w) = bytename w
  /\ fNbytesKeys (directory (init_directory w)) = 0.
Proof. repeat split; reflexivity. Qed.

Lemma init_streamerkey_fields w :
  expander (init_streamerkey w) = expander w
  /\ expanderpow (init_streamerkey w) = expanderpow w
  /\ streamers (init_streamerkey w) = streamers w
  /\ bytename (init_streamerkey w) = bytename w
  /\ fNbytesKeys (directory (init_streamerkey w)) = fNbytesKeys (directory w).
Proof. repeat split; reflexivity. Qed.

Lemma init_streamers_fields w :
  (expander (init_streamers w) = expander w
   /\ expanderpow (init_streamers w) = expanderpow w
   /\ streamers (init_streamers w) = streamers w
   /\ bytename (init_streamers w) = bytename w
   /\ fNbytesKeys (directory (init_streamers w)) = fNbytesKeys (directory w))
  /\ streamerend (init_streamers w) = cursor w + len ser_allstreamers
  /\ streamerlimit (init_streamers w) = cursor w + len ser_allstreamers + expander w
  /\ cursor (init_streamers w) = cursor w + expander w
  /\ fSeekKeys (directory (init_streamers w)) = cursor w + expander w.
Proof. repeat split; reflexivity. Qed.

Lemma init_fields (filename : string) :
  let w := __init__ filename in
  (bytename w = basename filename /\ nkeys w = 0 /\ streamers w = [])
  /\ (streamerlimit w = streamerend w + 500
      /\ keystart w = streamerend w - len ser_allstreamers + 500)
  /\ (fSeekKeys (directory w) = keystart w
      /\ head_key_pointcheck w = keystart w
      /\ keylimit w = keystart w + 500)
  /\ (head_key w = HeadKey 0 (keystart w) (basename filename)
      /\ head_key_end w = keystart w + len (ser_key (head_key w))
      /\ keyend w = head_key_end w + len (ser_numbers 0))
  /\ (fSeekFree (header w) = keyend w
      /\ fEND (header w) = keyend w + 500).
Proof.
  intros w. subst w. unfold __init__.
  destruct (init_begin_fields filename) as (A1 & _ & A3 & A4).
  generalize dependent (init_begin filename). intros w0 A1 A3 A4.
  destruct (init_directory_fields w0) as (B1 & _ & B3 & B4 & B5).
  generalize dependent (init_directory w0). intros w1 B1 B3 B4 B5.
  destruct (init_streamerkey_fields w1) as (C1 & _ & C3 & C4 & C5).
  generalize dependent (init_streamerkey w1). intros w2 C1 C3 C4 C5.
  destruct (init_streamers_fields w2) as ((D1 & _ & D3 & D4 & D5) & D6 & D7 & D8 & D9).
  generalize dependent (init_streamers w2). intros w3 D1 D3 D4 D5 D6 D7 D8 D9.
  destruct (init_keys_fields w3)
    as ((E1 & E2 & E3 & E4 & E5) & (F1 & F2 & F3 & F4 & _)
        & (G1 & _ & G3 & _) & (Q1 & Q2 & Q3 & _)).
  generalize dependent (init_keys w3).
  intros w4 E1 E2 E3 E4 E5 F1 F2 F3 F4 G1 G3 Q1 Q2 Q3.
  assert (Hexp : expander w3 = 500) by congruence.
  assert (Hname : bytename w3 = basename filename) by congruence.
  assert (Hnk : fNbytesKeys (directory w3) = 0) by congruence.
  rewrite Hexp in *. rewrite Hname, Hnk in E4.
  repeat split; congruence || lia.
Qed.

(** X5: The file after [__init__]: 500 bytes are reserved for the streamers and
    500 for the key list, which starts with the head key and the counter 0;
    [fSeekFree] is the end of the counter and [fEND] lies 500 bytes above
    it. *)
Theorem init_layout (filename : string) :
  let w := __init__ filename in
  (bytename w = basename filename /\ nkeys w = 0 /\ streamers w = [])
  /\ (streamerlimit w = streamerend w + 500
      /\ keystart w = streamerend w - len ser_allstreamers + 500)
  /\ (fSeekKeys (directory w) = keystart w
      /\ head_key_pointcheck w = keystart w
      /\ keylimit w = keystart w + 500)
  /\ (head_key w = HeadKey 0 (keystart w) (basename filename)
      /\ head_key_end w = keystart w + len (ser_key (head_key w))
      /\ keyend w = head_key_end w + len (ser_numbers 0))
  /\ (fSeekFree (header w) = keyend w
      /\ fEND (header w) = keyend w + 500).
Proof. exact (init_fields filename). Qed.

(** ** The registry and the streamer region *)


Lemma streamer_realloc_full w :
  streamerlimit w - streamerend w = 500 -> streamer_realloc w = w.
Proof.
  intros H. unfold streamer_realloc.
  destruct (Z.ltb_spec (streamerlimit w - streamerend w) 500); [lia | reflexivity].
Qed.





(** ** Where an insert leaves [fEND] *)

Lemma place_object_header keyname s w :
  cursor (place_object keyname s w) = cursor w + stored_bytes keyname s
  /\ header (place_object keyname s w) = header w
  /\ keylimit (place_object keyname s w) - keyend (place_object keyname s w)
     = keylimit w - keyend w
  /\ expander (place_object keyname s w) = expander w
  /\ expanderpow (place_object keyname s w) = expanderpow w.
Proof. repeat split; try reflexivity. unfold stored_bytes. cbn. lia. Qed.

Lemma key_realloc_header w :
  cursor (key_realloc w) = cursor w
  /\ fEND (header (key_realloc w))
     = (if keylimit w - keyend w <? 200
        then fEND (header w) + expander w ^ expanderpow w
        else fEND (header w))
  /\ fSeekFree (header (key_realloc w))
     = (if keylimit w - keyend w <? 200
        then fEND (header w) + expander w ^ expanderpow w
        else fSeekFree (header w)).
Proof. unfold key_realloc. destruct (_ <? _); repeat split; reflexivity. Qed.

Lemma place_key_header key w : quiet_header w (place_key key w).
Proof. split; reflexivity. Qed.

Lemma update_keys_header w : quiet_header w (update_keys w).
Proof. split; reflexivity. Qed.

Lemma place_streamers_header w :
  registry_ok w -> quiet_header w (place_streamers w).
Proof.
  intros [[H1 H2] | H1]; unfold place_streamers.
  - replace (negb (existsb (String.eqb "TObjString") (streamers w))) with true
      by (rewrite H1; reflexivity).
    rewrite streamer_realloc_full by (cbn; lia).
    split; reflexivity.
  - rewrite H1. change (negb _) with false. split; reflexivity.
Qed.

Lemma quiet_streamers_registry_ok w w' :
  quiet_streamers w w' -> registry_ok w -> registry_ok w'.
Proof.
  intros (Q1 & Q2 & Q3 & Q4) [[H1 H2] | H1]; [left | right]; [split |]; congruence.
Qed.

Lemma update_header_end w :
  fEND (header (update_header w)) = Z.max (fEND (header w)) (cursor w)
  /\ fSeekFree (header (update_header w))
     = (if cursor w >? fEND (header w) then cursor w else fSeekFree (header w)).
Proof.
  unfold update_header.
  destruct (Z.gtb_spec (cursor w) (fEND (header w))); split; try reflexivity; cbn; lia.
Qed.

(** X7: Storing a [TObjString] leaves [fEND] at the end of the junk key and the
    object it stored at the old [fEND], unless the key list moved: then
    [fEND] is 250000 above the old [fEND], the top of the new key list (or
    the end of the object, if that lies still higher).  [fSeekFree] ends up
    equal to [fEND]. *)
Theorem setitem_tobjstring_end (keyname s : string) (w : Writer) :
  expander w = 500 -> expanderpow w = 2 -> registry_ok w ->
  let w' := __setitem__ keyname (TObjString s) w in
  let e := fEND (header w) in
  fEND (header w')
  = (if keylimit w - keyend w <? 200
     then Z.max (e + 250000) (e + stored_bytes keyname s)
     else e + stored_bytes keyname s)
  /\ (fSeekFree (header w') = fEND (header w')
      \/ stored_bytes keyname s = 0 /\ fSeekFree (header w') = fSeekFree (header w)).
Proof.
  intros He Hp Hreg w' e. subst w' e. unfold __setitem__, place_tobjstring.
  assert (Hpos : 0 <= stored_bytes keyname s) by (unfold stored_bytes, len; lia).
  assert (H0 : cursor (set_cursor (fEND (header w)) w) = fEND (header w)
               /\ header (set_cursor (fEND (header w)) w) = header w
               /\ keylimit (set_cursor (fEND (header w)) w)
                  - keyend (set_cursor (fEND (header w)) w) = keylimit w - keyend w
               /\ expander (set_cursor (fEND (header w)) w) = 500
               /\ expanderpow (set_cursor (fEND (header w)) w) = 2
               /\ registry_ok (set_cursor (fEND (header w)) w))
    by (repeat split; assumption).
  generalize dependent (set_cursor (fEND (header w)) w).
  intros w0 (A1 & A2 & A3 & A4 & A5 & A6).
  destruct (place_object_header keyname s w0) as (B1 & B2 & B3 & B4 & B5).
  pose proof (quiet_streamers_registry_ok _ _ (proj2 (place_object_quiet keyname s w0)) A6)
    as B6.
  generalize dependent (place_object keyname s w0). intros w1 B1 B2 B3 B4 B5 B6.
  destruct (key_realloc_header w1) as (C1 & C2 & C3).
  pose proof (quiet_streamers_registry_ok _ _ (proj2 (key_realloc_quiet w1)) B6) as C6.
  generalize dependent (key_realloc w1). intros w2 C1 C2 C3 C6.
  destruct (place_key_header (StringKey keyname (cursor w0)) w2) as (D1 & D2).
  pose proof (quiet_streamers_registry_ok _ _
                (proj2 (place_key_quiet (StringKey keyname (cursor w0)) w2)) C6) as D6.
  generalize dependent (place_key (StringKey keyname (cursor w0)) w2).
  intros w3 D1 D2 D6.
  destruct (place_streamers_header w3 D6) as (E1 & E2).
  generalize dependent (place_streamers w3). intros w4 E1 E2.
  destruct (update_keys_header w4) as (F1 & F2).
  generalize dependent (update_keys w4). intros w5 F1 F2.
  destruct (update_header_end w5) as (G1 & G2).
  generalize dependent (update_header w5). intros w6 G1 G2.
  rewrite F2, E2, D2 in G1, G2. rewrite F1, E1, D1, C1, B1, A1 in G1, G2.
  rewrite C2 in G1, G2. rewrite C3 in G2.
  rewrite B3, A3, B4, B5, A4, A5, B2, A2 in *.
  change (500 ^ 2) with 250000 in *.
  rewrite G1, G2.
  destruct (keylimit w - keyend w <? 200);
    destruct (Z.gtb_spec (fEND (header w) + stored_bytes keyname s)
                (fEND (header w) + 250000));
    destruct (Z.gtb_spec (fEND (header w) + stored_bytes keyname s) (fEND (header w)));
    split; try lia.
Qed.

(** ** What the relocation of the key list does to the object *)

Lemma da_patch_outside pos bs f j :
  j < pos \/ pos + len bs <= j -> da_data (da_patch pos bs f) j = da_data f j.
Proof.
  intros H. unfold da_patch, in_range. cbn [da_data].
  destruct (Z.leb_spec pos j); destruct (Z.ltb_spec j (pos + len bs));
    try reflexivity; lia.
Qed.

Lemma place_object_file keyname s w :
  exists k,
    file (place_object keyname s w)
    = da_patch (cursor w + len (ser_key (JunkKey keyname))) (ser_object s)
        (da_patch (cursor w) (ser_key k)
           (da_patch (cursor w) (ser_key (JunkKey keyname)) (file w)))
    /\ keylimit (place_object keyname s w) = keylimit w
    /\ keyend (place_object keyname s w) = keyend w
    /\ header (place_object keyname s w) = header w
    /\ directory (place_object keyname s w) = directory w
    /\ directory_pointcheck (place_object keyname s w) = directory_pointcheck w
    /\ expander (place_object keyname s w) = expander w
    /\ expanderpow (place_object keyname s w) = expanderpow w.
Proof. eexists. repeat split; reflexivity. Qed.

Lemma key_realloc_file w :
  keylimit w - keyend w < 200 ->
  file (key_realloc w)
  = da_patch (directory_pointcheck w)
      (ser_directoryinfo (dir_set_fSeekKeys (fEND (header w)) (directory w)))
      (da_copy (fEND (header w)) (fSeekKeys (directory w)) (expander w)
         (da_resize (fEND (header w) + expander w ^ expanderpow w) (file w))).
Proof.
  intros H. unfold key_realloc.
  destruct (Z.ltb_spec (keylimit w - keyend w) 200); [reflexivity | lia].
Qed.

(** X8: The insert that moves the key list loses the object it stores.  Lines
    124-133 store the junk key and the object at the old [fEND]; the
    relocation then copies the 500 bytes of the key list to the same place.
    With the key list and the directory record below [fEND], each of the 500
    bytes from the old [fEND] on holds a byte of the old key list. *)
Theorem relocation_overwrites_object (keyname s : string) (w : Writer) (i : Z) :
  expander w = 500 -> expanderpow w = 2 ->
  cursor w = fEND (header w) ->
  keylimit w - keyend w < 200 ->
  fSeekKeys (directory w) + 500 <= fEND (header w) ->
  directory_pointcheck w
    + len (ser_directoryinfo (dir_set_fSeekKeys (fEND (header w)) (directory w)))
    <= fEND (header w) ->
  fEND (header w) <= i < fEND (header w) + 500 ->
  da_data (file (key_realloc (place_object keyname s w))) i
  = da_data (file w) (fSeekKeys (directory w) + (i - fEND (header w))).
Proof.
  intros He Hp Hc Hlim Hkeys Hdir Hi.
  destruct (place_object_file keyname s w) as (k & F & A1 & A2 & A3 & A4 & A5 & A6 & A7).
  generalize dependent (place_object keyname s w).
  intros w1 F A1 A2 A3 A4 A5 A6 A7.
  rewrite key_realloc_file by lia.
  rewrite A3, A4, A5, A6, A7, He, Hp, F. change (500 ^ 2) with 250000.
  rewrite da_patch_outside by lia.
  unfold da_copy, da_resize, in_range. cbn [da_data].
  destruct (Z.leb_spec (fEND (header w)) i); [| lia].
  destruct (Z.ltb_spec i (fEND (header w) + 500)); [| lia].
  cbn [andb].
  destruct (Z.ltb_spec (fSeekKeys (directory w) + (i - fEND (header w)))
              (fEND (header w) + 250000)); [| lia].
  rewrite !da_patch_outside by (unfold len; lia).
  reflexivity.
Qed.

(** ** The header in the file *)

Lemma da_read_patch (pos : Z) (bs : list Z) (f : DiskArray) :
  da_read (da_patch pos bs f) pos (length bs) = bs.
Proof.
  unfold da_read. apply list_eq. intros i.
  rewrite list_lookup_fmap.
  destruct (decide (i < length bs)%nat) as [Hlt | Hge].
  - rewrite lookup_seq_lt by exact Hlt. cbn [fmap option_fmap option_map da_patch da_data].
    unfold in_range, len.
    destruct (Z.leb_spec pos (pos + Z.of_nat (0 + i))); [| lia].
    destruct (Z.ltb_spec (pos + Z.of_nat (0 + i)) (pos + Z.of_nat (length bs))); [| lia].
    cbn [andb].
    replace (Z.to_nat (pos + Z.of_nat (0 + i) - pos)) with i by lia.
    destruct (lookup_lt_is_Some_2 bs i Hlt) as [b Hb]. rewrite Hb. reflexivity.
  - rewrite lookup_seq_ge by lia. rewrite lookup_ge_None_2 by lia. reflexivity.
Qed.

Lemma set_header_at_stored w :
  da_read (file (set_header_at (Cursor 0) (header w) w)) 0
    (length (ser_header (header (set_header_at (Cursor 0) (header w) w))))
  = ser_header (header (set_header_at (Cursor 0) (header w) w)).
Proof. apply da_read_patch. Qed.

Lemma init_keys_header_stored w :
  da_read (file (init_keys w)) 0 (length (ser_header (header (init_keys w))))
  = ser_header (header (init_keys w)).
Proof.
  assert (H : exists w', init_keys w = set_header_at (Cursor 0) (header w') w')
    by (unfold init_keys; eexists; reflexivity).
  destruct H as [w' ->]. apply set_header_at_stored.
Qed.

Lemma update_header_stored w :
  da_read (file (update_header w)) 0 (length (ser_header (header (update_header w))))
  = ser_header (header (update_header w)).
Proof.
  assert (H : exists w', file (update_header w)
                         = file (set_header_at (Cursor 0) (header w') w')
                         /\ header (update_header w)
                            = header (set_header_at (Cursor 0) (header w') w'))
    by (unfold update_header; eexists; split; reflexivity).
  destruct H as (w' & -> & ->). apply set_header_at_stored.
Qed.

(** X23: After [__init__] and after every insert, the file starts with the
    bytes of the header as the writer holds it: the header is the last
    record stored by both. *)
Theorem header_stored_last (filename : string) (ops : list (string * Item)) :
  let w := inserts ops (__init__ filename) in
  da_read (file w) 0 (length (ser_header (header w))) = ser_header (header w).
Proof.
  intros w. subst w.
  destruct ops as [| op ops _] using rev_ind.
  - apply init_keys_header_stored.
  - unfold inserts. rewrite fold_left_app. cbn [fold_left].
    unfold __setitem__. apply update_header_stored.
Qed.

(** ** The keys in the file *)

Lemma stores_ok_keys_refl w w' :
  (forall pos, newest_key (trace w') pos = newest_key (trace w) pos) ->
  stores_ok_keys w w'.
Proof. intros H pos k Hk. right. rewrite <- H. exact Hk. Qed.

Lemma stores_ok_keys_trans w1 w2 w3 :
  stores_ok_keys w1 w2 -> stores_ok_keys w2 w3 -> stores_ok_keys w1 w3.
Proof.
  intros H12 H23 pos k Hk.
  destruct (H23 pos k Hk) as [Hok | Hk2]; [left; exact Hok | exact (H12 pos k Hk2)].
Qed.

Lemma stores_ok_keys_twice w w' p k1 k2 evs :
  trace w' = evs ++ SetKey p k2 :: SetKey p k1 :: trace w ->
  (forall pos, newest_key (evs ++ SetKey p k2 :: SetKey p k1 :: trace w) pos
               = newest_key (SetKey p k2 :: SetKey p k1 :: trace w) pos) ->
  key_ok k2 ->
  stores_ok_keys w w'.
Proof.
  intros Ht Hevs Hok pos k. rewrite Ht, Hevs. cbn [newest_key].
  destruct (p =? pos); [intros [= <-]; left; exact Hok | intros Hk; right; exact Hk].
Qed.

Lemma place_object_keys_ok keyname s w : stores_ok_keys w (place_object keyname s w).
Proof.
  assert (H : exists p1 p2 k1 k2,
    trace (place_object keyname s w)
    = [SetObject p2 s] ++ SetKey p1 k2 :: SetKey p1 k1 :: trace w /\ key_ok k2)
    by (do 4 eexists; split; reflexivity).
  destruct H as (p1 & p2 & k1 & k2 & Ht & Hok).
  apply (stores_ok_keys_twice _ _ _ _ _ _ Ht); [reflexivity | exact Hok].
Qed.

Lemma place_key_keys_ok key w : stores_ok_keys w (place_key key w).
Proof.
  assert (H : exists p1 k1 k2,
    trace (place_key key w) = [] ++ SetKey p1 k2 :: SetKey p1 k1 :: trace w /\ key_ok k2)
    by (do 3 eexists; split; reflexivity).
  destruct H as (p1 & k1 & k2 & Ht & Hok).
  apply (stores_ok_keys_twice _ _ _ _ _ _ Ht); [reflexivity | exact Hok].
Qed.

Lemma key_realloc_keys_ok w : stores_ok_keys w (key_realloc w).
Proof.
  apply stores_ok_keys_refl. intros pos. unfold key_realloc.
  destruct (_ <? _); reflexivity.
Qed.

Lemma streamer_realloc_keys_ok w : stores_ok_keys w (streamer_realloc w).
Proof.
  apply stores_ok_keys_refl. intros pos. unfold streamer_realloc.
  destruct (_ <? _); reflexivity.
Qed.

Lemma place_streamers_keys_ok w : stores_ok_keys w (place_streamers w).
Proof.
  unfold place_streamers. destruct (negb _); [| apply stores_ok_keys_refl; reflexivity].
  apply stores_ok_keys_trans
    with (w2 := streamer_realloc (set_streamers (streamers w ++ ["TObjString"%string]) w)).
  - apply stores_ok_keys_trans
      with (w2 := set_streamers (streamers w ++ ["TObjString"%string]) w);
      [apply stores_ok_keys_refl; reflexivity | apply streamer_realloc_keys_ok].
  - apply stores_ok_keys_refl. reflexivity.
Qed.

Lemma update_header_keys_ok w : stores_ok_keys w (update_header w).
Proof.
  apply stores_ok_keys_refl. intros pos. unfold update_header.
  destruct (_ >? _); reflexivity.
Qed.

(** The head key that lines 183-186 store is consistent, and it is the key
    stored last at [head_key_pointcheck]. *)
Lemma update_keys_keys_ok w :
  forall pos k, newest_key (trace (update_keys w)) pos = Some k ->
  key_ok k \/ (pos <> head_key_pointcheck w /\ newest_key (trace w) pos = Some k).
Proof.
  assert (H : trace (update_keys w)
              = [SetKey (head_key_pointcheck w) (updated_head_key w);
                 SetDirectoryInfo (directory_pointcheck w) (updated_directory w);
                 SetNumbers (head_key_end w) (nkeys w + 1)] ++ trace w)
    by reflexivity.
  rewrite H. intros pos k. cbn [app newest_key].
  destruct (Z.eqb_spec (head_key_pointcheck w) pos) as [_ | Hne].
  - intros [= <-]. left. unfold key_ok, updated_head_key.
    cbn [fNbytes fKeylen fObjlen]. lia.
  - intros Hk. right. split; [congruence | exact Hk].
Qed.

Lemma place_tobjstring_keys_ok keyname s w :
  stores_ok_keys w (place_tobjstring keyname s w).
Proof.
  unfold place_tobjstring.
  pose proof (place_object_keys_ok keyname s w) as H1.
  generalize dependent (place_object keyname s w). intros w1 H1.
  pose proof (key_realloc_keys_ok w1) as H2.
  generalize dependent (key_realloc w1). intros w2 H2.
  pose proof (place_key_keys_ok (StringKey keyname (cursor w)) w2) as H3.
  generalize dependent (place_key (StringKey keyname (cursor w)) w2). intros w3 H3.
  pose proof (place_streamers_keys_ok w3) as H4.
  generalize dependent (place_streamers w3). intros w4 H4.
  eauto using stores_ok_keys_trans.
Qed.

Lemma setitem_keys_ok keyname item w :
  forall pos k, newest_key (trace (__setitem__ keyname item w)) pos = Some k ->
  key_ok k \/ (pos <> head_key_pointcheck w /\ newest_key (trace w) pos = Some k).
Proof.
  unfold __setitem__.
  assert (H1 : let w1 := match item with
                         | TObjString s =>
                             place_tobjstring keyname s (set_cursor (fEND (header w)) w)
                         | OtherObject _ => set_cursor (fEND (header w)) w
                         end in
               stores_ok_keys w w1 /\ head_key_pointcheck w1 = head_key_pointcheck w).
  { destruct item as [s | t]; cbv zeta.
    - split.
      + apply stores_ok_keys_trans with (w2 := set_cursor (fEND (header w)) w);
          [apply stores_ok_keys_refl; reflexivity | apply place_tobjstring_keys_ok].
      + exact (proj1 (place_tobjstring_keys keyname s (set_cursor (fEND (header w)) w))).
    - split; [apply stores_ok_keys_refl; reflexivity | reflexivity]. }
  cbv zeta in H1.
  generalize dependent (match item with
                        | TObjString s =>
                            place_tobjstring keyname s (set_cursor (fEND (header w)) w)
                        | OtherObject _ => set_cursor (fEND (header w)) w
                        end).
  intros w1 [H1 Hp].
  pose proof (update_keys_keys_ok w1) as H2.
  generalize dependent (update_keys w1). intros w2 H2.
  pose proof (update_header_keys_ok w2) as H3.
  generalize dependent (update_header w2). intros w3 H3.
  intros pos k Hk.
  destruct (H3 pos k Hk) as [Hok | Hk2]; [left; exact Hok |].
  destruct (H2 pos k Hk2) as [Hok | [Hne Hk1]]; [left; exact Hok |].
  destruct (H1 pos k Hk1) as [Hok | Hk0]; [left; exact Hok |].
  right. split; [congruence | exact Hk0].
Qed.

Lemma init_begin_trace filename :
  let nm := basename filename in
  let h := Header_new nm 0 in
  let key := Begin_Key nm in
  let n := len (ser_key key) in
  trace (init_begin filename)
  = [SetStrings (fBEGIN h + n) nm;
     SetKey (fBEGIN h)
       (mkKey (kclass key) (kName key) (fNbytes key) (fBEGIN h + n - fBEGIN h)
          (fNbytes key - (fBEGIN h + n - fBEGIN h)) (fSeekKey key));
     SetKey (fBEGIN h) key;
     SetHeader 0 h; AssignSeekFree (fSeekFree h); AssignEND (fEND h)].
Proof. reflexivity. Qed.

Lemma init_streamerkey_trace w :
  let key := StreamerKey (cursor w) 0 in
  let n := len (ser_key key) in
  trace (init_streamerkey w)
  = [SetHeader 0 (hdr_set_fNbytesInfo (cursor w + n - cursor w + fObjlen key) (header w));
     SetKey (cursor w)
       (mkKey (kclass key) (kName key) (cursor w + n - cursor w + fObjlen key)
          (cursor w + n - cursor w) (fObjlen key) (fSeekKey key));
     SetKey (cursor w) key] ++ trace w.
Proof. reflexivity. Qed.

Lemma init_keys_trace w :
  let hk := HeadKey (fNbytesKeys (directory w)) (fSeekKeys (directory w)) (bytename w) in
  let c1 := cursor w + len (ser_key hk) in
  let c2 := c1 + len (ser_numbers 0) in
  trace (init_keys w)
  = [SetHeader 0 (hdr_set_fEND (c2 + expander w) (hdr_set_fSeekFree c2 (header w)));
     AssignEND (c2 + expander w); AssignSeekFree c2; SetNumbers c1 0;
     SetKey (cursor w) hk; Resize (cursor w + expander w)] ++ trace w.
Proof. reflexivity. Qed.

Lemma init_begin_keys_ok filename :
  forall pos k, newest_key (trace (init_begin filename)) pos = Some k -> key_ok k.
Proof.
  intros pos k. rewrite init_begin_trace. cbv zeta. cbn [newest_key].
  destruct (_ =? pos); [| discriminate].
  intros [= <-]. unfold key_ok. cbn [fNbytes fKeylen fObjlen]. lia.
Qed.

Lemma init_streamerkey_keys_ok w : stores_ok_keys w (init_streamerkey w).
Proof.
  intros pos k. rewrite init_streamerkey_trace. cbv zeta. cbn [app newest_key].
  destruct (_ =? pos); [| intros Hk; right; exact Hk].
  intros [= <-]. left. unfold key_ok. cbn [fNbytes fKeylen fObjlen]. lia.
Qed.

Lemma init_keys_ok_except filename :
  forall pos k, newest_key (trace (__init__ filename)) pos = Some k ->
  key_ok k \/ pos = head_key_pointcheck (__init__ filename).
Proof.
  unfold __init__.
  pose proof (init_begin_keys_ok filename) as H0.
  generalize dependent (init_begin filename). intros w0 H0.
  assert (H1 : forall pos k, newest_key (trace (init_directory w0)) pos = Some k ->
                             key_ok k) by exact H0.
  generalize dependent (init_directory w0). clear H0. intros w1 H1.
  pose proof (init_streamerkey_keys_ok w1) as H2.
  generalize dependent (init_streamerkey w1). intros w2 H2.
  assert (H3 : stores_ok_keys w2 (init_streamers w2))
    by (apply stores_ok_keys_refl; reflexivity).
  generalize dependent (init_streamers w2). intros w3 H3.
  destruct (init_keys_fields w3) as ((_ & Hp & _) & _).
  pose proof (init_keys_trace w3) as Ht. cbv zeta in Ht.
  generalize dependent (init_keys w3). intros w4 Hp Ht.
  intros pos k. rewrite Ht, Hp. cbn [app newest_key].
  destruct (Z.eqb_spec (cursor w3) pos) as [Heq | Hne].
  - intros _. right. symmetry. exact Heq.
  - intros Hk. left.
    destruct (H3 pos k Hk) as [Hok | Hk2]; [exact Hok |].
    destruct (H2 pos k Hk2) as [Hok | Hk1]; [exact Hok | exact (H1 pos k Hk1)].
Qed.

Lemma inserts_keys_ok ops :
  forall w (hkp : Z) (b : bool),
  head_key_pointcheck w = hkp ->
  (forall pos k, newest_key (trace w) pos = Some k ->
                 key_ok k \/ (b = false /\ pos = hkp)) ->
  forall pos k, newest_key (trace (inserts ops w)) pos = Some k ->
                key_ok k \/ (b = false /\ ops = [] /\ pos = hkp).
Proof.
  induction ops as [| [keyname item] ops IH]; intros w hkp b Hp Hw pos k Hk.
  - destruct (Hw pos k Hk) as [Hok | [Hb Hpos]]; [left; exact Hok | right; auto].
  - change (inserts ((keyname, item) :: ops) w)
      with (inserts ops (__setitem__ keyname item w)) in Hk.
    left.
    destruct (IH (__setitem__ keyname item w) hkp true) with (pos := pos) (k := k)
      as [Hok | [Hb _]]; [| | exact Hk | exact Hok | discriminate].
    + destruct (setitem_keys keyname item w) as (Hsame & _). congruence.
    + intros pos' k' Hk'. left.
      destruct (setitem_keys_ok keyname item w pos' k' Hk') as [Hok | [Hne Hold]];
        [exact Hok |].
      destruct (Hw pos' k' Hold) as [Hok | [_ Hpos]]; [exact Hok | congruence].
Qed.

(** X24: At every offset of the file, the key stored there last has
    [fNbytes = fKeylen + fObjlen]: each key is stored, measured, and stored
    again at the same offset with its lengths set.  The one exception is the
    head key before the first insert, which [__init__] stores once as the
    constructor made it. *)
Theorem keys_stored_consistent (filename : string) (ops : list (string * Item))
    (pos : Z) (k : Key) :
  newest_key (trace (inserts ops (__init__ filename))) pos = Some k ->
  ops <> [] \/ pos <> head_key_pointcheck (__init__ filename) ->
  key_ok k.
Proof.
  intros Hk Hcase.
  destruct (inserts_keys_ok ops (__init__ filename)
              (head_key_pointcheck (__init__ filename)) false eq_refl)
    with (pos := pos) (k := k) as [Hok | (_ & Hnil & Hpos)];
    [| exact Hk | exact Hok | destruct Hcase; contradiction].
  intros pos' k' Hk'.
  destruct (init_keys_ok_except filename pos' k' Hk') as [Hok | Hpos];
    [left; exact Hok | right; auto].
Qed.

(** ** The name of the file *)

Lemma no_slash_cons c rest :
  Ascii.eqb c "/"%char = false -> no_slash rest -> no_slash (String c rest).
Proof.
  unfold no_slash. cbn [String.list_ascii_of_string existsb]. intros Hc ->.
  rewrite Ascii.eqb_sym, Hc. reflexivity.
Qed.

Lemma basename_suffix filename :
  no_slash (basename filename)
  /\ exists pre, filename = pre +:+ basename filename
                 /\ (pre = ""%string \/ exists pre', pre = pre' +:+ "/"%string).
Proof.
  induction filename as [| c rest (IH1 & pre & IH2 & IH3)].
  - split; [reflexivity |]. exists ""%string. split; [reflexivity | left; reflexivity].
  - cbn [basename].
    destruct (existsb (Ascii.eqb "/") (String.list_ascii_of_string rest)) eqn:Hrest.
    + split; [exact IH1 |]. exists (String c pre). split.
      * change (String c pre +:+ basename rest) with (String c (pre +:+ basename rest)).
        f_equal. exact IH2.
      * right. destruct IH3 as [-> | [pre' ->]].
        -- change (rest = basename rest) in IH2. rewrite <- IH2 in IH1.
           unfold no_slash in IH1. congruence.
        -- exists (String c pre'). reflexivity.
    + destruct (Ascii.eqb c "/") eqn:Hc.
      * apply Ascii.eqb_eq in Hc as ->. split; [exact Hrest |].
        exists "/"%string. split; [reflexivity |]. right. exists ""%string. reflexivity.
      * split; [apply no_slash_cons; assumption |].
        exists ""%string. split; [reflexivity | left; reflexivity].
Qed.

Lemma update_header_bytename w : bytename (update_header w) = bytename w.
Proof. unfold update_header. destruct (_ >? _); reflexivity. Qed.

Lemma update_keys_bytename w : bytename (update_keys w) = bytename w.
Proof. reflexivity. Qed.

Lemma place_streamers_bytename w : bytename (place_streamers w) = bytename w.
Proof.
  unfold place_streamers. destruct (negb _); [| reflexivity].
  transitivity (bytename (set_streamers (streamers w ++ ["TObjString"%string]) w));
    [| reflexivity].
  generalize (set_streamers (streamers w ++ ["TObjString"%string]) w).
  intros w1. unfold streamer_realloc. destruct (_ <? _); reflexivity.
Qed.

Lemma place_key_bytename key w : bytename (place_key key w) = bytename w.
Proof. reflexivity. Qed.

Lemma key_realloc_bytename w : bytename (key_realloc w) = bytename w.
Proof. unfold key_realloc. destruct (_ <? _); reflexivity. Qed.

Lemma place_object_bytename keyname s w :
  bytename (place_object keyname s w) = bytename w.
Proof. reflexivity. Qed.

Lemma setitem_bytename keyname item w :
  bytename (__setitem__ keyname item w) = bytename w.
Proof.
  unfold __setitem__.
  rewrite update_header_bytename, update_keys_bytename.
  destruct item as [s | t]; [| reflexivity].
  unfold place_tobjstring.
  rewrite place_streamers_bytename, place_key_bytename, key_realloc_bytename,
    place_object_bytename.
  reflexivity.
Qed.

(** X9: The name the writer keeps, also through inserts, is what follows the
    last ["/"] of [filename]: it holds no ["/"], and it is all of [filename]
    or comes after a ["/"]. *)
Theorem bytename_is_last_component (filename : string) (ops : list (string * Item)) :
  bytename (inserts ops (__init__ filename)) = basename filename
  /\ no_slash (basename filename)
  /\ exists pre, filename = pre +:+ basename filename
                 /\ (pre = ""%string \/ exists pre', pre = pre' +:+ "/"%string).
Proof.
  split; [| apply basename_suffix].
  destruct (init_fields filename) as ((H & _) & _).
  generalize dependent (__init__ filename). intros w H.
  revert w H. induction ops as [| [keyname item] ops IH]; intros w H; [exact H |].
  apply IH. rewrite setitem_bytename. exact H.
Qed.

End WithLayout.
End WriterExtras.

(** The writer's further properties on the six inserts. *)
Module WriterExtrasRuns.
Import NewWriter RootLayout WriterSpec WriterSamples WriterExtras.

Lemma setitem_tobjstring_end_witness :
  let w := inserts (sample 5) (__init__ "dir/a.root") in
  expander w = 500 /\ expanderpow w = 2 /\ registry_ok w
  /\ fEND (header (__setitem__ "f" (TObjString "x") w))
     = (if keylimit w - keyend w <? 200
        then Z.max (fEND (header w) + 250000) (fEND (header w) + stored_bytes "f" "x")
        else fEND (header w) + stored_bytes "f" "x")
  /\ (fSeekFree (header (__setitem__ "f" (TObjString "x") w))
      = fEND (header (__setitem__ "f" (TObjString "x") w))
      \/ stored_bytes "f" "x" = 0
         /\ fSeekFree (header (__setitem__ "f" (TObjString "x") w))
            = fSeekFree (header w)).
Proof.
  intros w.
  assert (He : expander w = 500) by (vm_compute; reflexivity).
  assert (Hp : expanderpow w = 2) by (vm_compute; reflexivity).
  assert (Hr : registry_ok w) by (right; vm_compute; reflexivity).
  exact (conj He (conj Hp (conj Hr (setitem_tobjstring_end "f" "x" w He Hp Hr)))).
Defined.

Lemma relocation_overwrites_object_witness :
  let w := sixth_insert_start in
  let i := fEND (header w) in
  expander w = 500 /\ expanderpow w = 2
  /\ cursor w = fEND (header w)
  /\ keylimit w - keyend w < 200
  /\ fSeekKeys (directory w) + 500 <= fEND (header w)
  /\ directory_pointcheck w
       + len (ser_directoryinfo (dir_set_fSeekKeys (fEND (header w)) (directory w)))
     <= fEND (header w)
  /\ fEND (header w) <= i < fEND (header w) + 500
  /\ da_data (file (key_realloc (place_object "f" "x" w))) i
     = da_data (file w) (fSeekKeys (directory w) + (i - fEND (header w))).
Proof.
  intros w i.
  assert (He : expander w = 500) by (vm_compute; reflexivity).
  assert (Hp : expanderpow w = 2) by (vm_compute; reflexivity).
  assert (Hc : cursor w = fEND (header w)) by (vm_compute; reflexivity).
  assert (Hl : keylimit w - keyend w < 200) by (vm_compute; reflexivity).
  assert (Hk : fSeekKeys (directory w) + 500 <= fEND (header w))
    by (vm_compute; discriminate).
  assert (Hd : directory_pointcheck w
                 + len (ser_directoryinfo
                          (dir_set_fSeekKeys (fEND (header w)) (directory w)))
               <= fEND (header w))
    by (vm_compute; discriminate).
  assert (Hi : fEND (header w) <= i < fEND (header w) + 500)
    by (split; vm_compute; [discriminate | reflexivity]).
  exact (conj He (conj Hp (conj Hc (conj Hl (conj Hk (conj Hd (conj Hi
           (relocation_overwrites_object "f" "x" w i He Hp Hc Hl Hk Hd Hi)))))))).
Defined.

Lemma keys_stored_consistent_witness :
  let w0 := __init__ "dir/a.root" in
  let w := inserts (sample 1) w0 in
  newest_key (trace w) (head_key_pointcheck w0) = Some (head_key w)
  /\ (sample 1 <> [] \/ head_key_pointcheck w0 <> head_key_pointcheck w0)
  /\ key_ok (head_key w).
Proof.
  intros w0 w.
  assert (H1 : newest_key (trace w) (head_key_pointcheck w0) = Some (head_key w))
    by (vm_compute; reflexivity).
  assert (H2 : sample 1 <> [] \/ head_key_pointcheck w0 <> head_key_pointcheck w0)
    by (left; discriminate).
  exact (conj H1 (conj H2
           (keys_stored_consistent "dir/a.root" (sample 1) (head_key_pointcheck w0)
              (head_key w) H1 H2))).
Defined.

End WriterExtrasRuns.

(** * Further properties of the planner *)

Module PlannerExtras.
Import Planner PlannerSpec PlannerRuns PlannerProps.

(** ** JSON of a partition *)

Lemma Range_json_round_trip (r : Range) :
  Range_fromJson (Range_toJson r) = Ok (forget_pathi r).
Proof. reflexivity. Qed.

Lemma mapM_Range_json (rs : list Range) :
  mapM Range_fromJson (map Range_toJson rs) = Ok (map forget_pathi rs).
Proof.
  induction rs as [| r rs IH]; [reflexivity |].
  cbn [map mapM]. rewrite Range_json_round_trip, IH. reflexivity.
Qed.

(** X10: Reading back the JSON of a partition gives the partition: the index and
    the ranges with their paths and entries, in order; only the attribute
    [_pathi] that [fill] attached to the ranges is gone. *)
Theorem Partition_json_round_trip (p : Partition) :
  Partition_fromJson (Partition_toJson p)
  = Ok (mkPartition (index p) (map forget_pathi (ranges p))).
Proof.
  unfold Partition_fromJson, Partition_toJson.
  change (json_getitem (JObj _) "index" ≫= as_int) with (Ok (index p)).
  change (json_getitem (JObj [("index"%string, JInt (index p));
                              ("ranges"%string, JList (map Range_toJson (ranges p)))])
            "ranges" ≫= as_list)
    with (Ok (map Range_toJson (ranges p))).
  cbn [mbind result_bind]. rewrite mapM_Range_json. reflexivity.
Qed.

(** ** What the constructor accepts *)

Lemma mapM_arg_partition (ps : list Partition) :
  mapM arg_partition (map a_partition ps) = Ok ps.
Proof.
  induction ps as [| p ps IH]; [reflexivity |].
  cbn [map mapM arg_partition mbind result_bind]. rewrite IH. reflexivity.
Qed.

Lemma indices_are_range_spec (ps : list Partition) :
  forall i, indices_are_range (map a_partition ps) i = true
            <-> map index ps = map (fun k => i + Z.of_nat k) (seq 0 (length ps)).
Proof.
  induction ps as [| p ps IH]; intros i; [split; reflexivity |].
  cbn [map indices_are_range arg_index length seq].
  rewrite andb_true_iff, Z.eqb_eq, IH, <- seq_shift, map_map.
  split.
  - intros [-> ->]. f_equal; [lia |]. apply map_ext. intros k. lia.
  - intros [= H1 H2]. split; [lia |]. rewrite H2. apply map_ext. intros k. lia.
Qed.

Lemma check_ranges_spec (rs : list Range) :
  forall lastpath last,
  check_ranges lastpath last rs = true
  <-> (forall r, rs !! 0%nat = Some r ->
         (lastpath = Some (path r) -> entrystart r = last)
         /\ (lastpath <> Some (path r) -> entrystart r = 0))
      /\ forall i r1 r2, rs !! i = Some r1 -> rs !! S i = Some r2 ->
           (path r1 = path r2 -> entrystart r2 = entryend r1)
           /\ (path r1 <> path r2 -> entrystart r2 = 0).
Proof.
  induction rs as [| r rs IH]; intros lastpath last.
  - split; [| reflexivity]. intros _. split; intros *; discriminate.
  - cbn [check_ranges]. rewrite andb_true_iff, IH. split.
    + intros (Hfirst & Hnext & Hrest). split.
      * intros r0 [= <-]. destruct (bool_decide_reflect (lastpath = Some (path r)));
          cbn [negb] in Hfirst; apply Z.eqb_eq in Hfirst; split; intros; congruence.
      * intros [| i] r1 r2 H1 H2.
        -- injection H1 as <-. destruct (Hnext r2 H2) as [Ha Hb].
           split; intros H; [apply Ha | apply Hb]; congruence.
        -- exact (Hrest i r1 r2 H1 H2).
    + intros (Hfirst & Hrest). split; [| split].
      * destruct (Hfirst r eq_refl) as [Ha Hb].
        destruct (bool_decide_reflect (lastpath = Some (path r))); cbn [negb];
          apply Z.eqb_eq; auto.
      * intros r2 H2. destruct (Hrest 0%nat r r2 eq_refl H2) as [Ha Hb].
        split; intros H; [apply Ha | apply Hb]; congruence.
      * intros i r1 r2 H1 H2. exact (Hrest (S i) r1 r2 H1 H2).
Qed.

Lemma PartitionSet_init_iff (tp : string) (bd : dict dtype) (bc : dict string)
    (np ne : Z) (ps : list Partition) :
  (PartitionSet_init tp bd bc np ne (map a_partition ps)
   = Ok (mkPartitionSet tp bd bc np ne ps)
   <-> np = len ps
       /\ map index ps = range (len ps)
       /\ ne = sumZ (map partition_numentries ps)
       /\ ranges_chained (concat (map ranges ps)))
  /\ (PartitionSet_init tp bd bc np ne (map a_partition ps)
      = Ok (mkPartitionSet tp bd bc np ne ps)
      \/ PartitionSet_init tp bd bc np ne (map a_partition ps) = Raise AssertionError).
Proof.
  unfold PartitionSet_init.
  rewrite mapM_arg_partition. cbn [mbind result_bind].
  assert (Hlen : len (map a_partition ps) = len ps)
    by (unfold len; rewrite length_map; reflexivity).
  rewrite Hlen.
  assert (Hrange : range (len ps) = map (fun k => 0 + Z.of_nat k) (seq 0 (length ps))).
  { unfold range, len. rewrite Nat2Z.id. apply map_ext. intros k. lia. }
  assert (Hchain : check_ranges None 0 (concat (map ranges ps)) = true
                   <-> ranges_chained (concat (map ranges ps))).
  { rewrite check_ranges_spec. unfold ranges_chained. split.
    - intros [H1 H2]. split; [| exact H2].
      intros r Hr. apply (H1 r Hr). discriminate.
    - intros [H1 H2]. split; [| exact H2].
      intros r Hr. split; [discriminate | intros _; exact (H1 r Hr)]. }
  destruct (Z.eqb_spec np (len ps)) as [Hnp | Hnp]; cbn [negb].
  2: { split; [| right; reflexivity]. split; [discriminate | intros [H _]; contradiction]. }
  destruct (indices_are_range (map a_partition ps) 0) eqn:Hidx; cbn [negb].
  2: { split; [| right; reflexivity]. split; [discriminate |].
       intros (_ & H & _). rewrite Hrange in H.
       apply indices_are_range_spec in H. congruence. }
  destruct (Z.eqb_spec ne (sumZ (map partition_numentries ps))) as [Hne | Hne]; cbn [negb].
  2: { split; [| right; reflexivity]. split; [discriminate |].
       intros (_ & _ & H & _). contradiction. }
  destruct (check_ranges None 0 (concat (map ranges ps))) eqn:Hcheck; cbn [negb].
  2: { split; [| right; reflexivity]. split; [discriminate |].
       intros (_ & _ & _ & H). apply Hchain in H. discriminate. }
  split; [| left; reflexivity].
  split; [intros _ | reflexivity].
  refine (conj Hnp (conj _ (conj Hne _))).
  - rewrite Hrange. apply indices_are_range_spec. exact Hidx.
  - apply Hchain. reflexivity.
Qed.

(** X11: The constructor raises [TypeError] when [branchdtypes] is not a
    [dict], whatever the other arguments are and before any assertion.  With
    a [dict] and [Partition] objects it succeeds, storing its arguments,
    exactly when [numpartitions] is their number, their indices count up from
    0, [numentries] is the sum of their entries, and their ranges are
    chained; otherwise it raises [AssertionError], and nothing else. *)
Theorem PartitionSet_init_accepts (tp : string) (bd : dict dtype) (bc : dict string)
    (np ne : Z) (ps : list Partition) (args : list PartitionArg) :
  PartitionSet__init__ tp bd_other bc np ne args = Raise TypeError
  /\ (PartitionSet__init__ tp (bd_dict bd) bc np ne (map a_partition ps)
      = Ok (mkPartitionSet tp bd bc np ne ps)
      <-> np = len ps
          /\ map index ps = range (len ps)
          /\ ne = sumZ (map partition_numentries ps)
          /\ ranges_chained (concat (map ranges ps)))
  /\ (PartitionSet__init__ tp (bd_dict bd) bc np ne (map a_partition ps)
      = Ok (mkPartitionSet tp bd bc np ne ps)
      \/ PartitionSet__init__ tp (bd_dict bd) bc np ne (map a_partition ps)
         = Raise AssertionError).
Proof.
  split; [reflexivity |].
  change (PartitionSet__init__ tp (bd_dict bd) bc np ne (map a_partition ps))
    with (PartitionSet_init tp bd bc np ne (map a_partition ps)).
  exact (PartitionSet_init_iff tp bd bc np ne ps).
Qed.

(** ** The default choice among the candidates *)

Lemma min_by_numentries_first (choices : list Partition) :
  forall pre best mid,
  (forall x, x ∈ pre -> partition_numentries best < partition_numentries x) ->
  (forall x, x ∈ mid -> partition_numentries best <= partition_numentries x) ->
  exists before after,
    pre ++ best :: mid ++ choices = before ++ min_by_numentries best choices :: after
    /\ (forall x, x ∈ before ->
          partition_numentries (min_by_numentries best choices) < partition_numentries x)
    /\ (forall x, x ∈ after ->
          partition_numentries (min_by_numentries best choices) <= partition_numentries x).
Proof.
  induction choices as [| c choices IH]; intros pre best mid Hpre Hmid.
  - exists pre, mid. rewrite app_nil_r. auto.
  - cbn [min_by_numentries].
    destruct (Z.ltb_spec (partition_numentries c) (partition_numentries best)) as [Hlt | Hge].
    + destruct (IH (pre ++ best :: mid) c []) as (before & after & Heq & Hb & Ha).
      * intros x Hx. apply elem_of_app in Hx as [Hx | Hx]; [specialize (Hpre x Hx); lia |].
        apply elem_of_cons in Hx as [-> | Hx]; [lia | specialize (Hmid x Hx); lia].
      * intros x Hx. inversion Hx.
      * exists before, after. split; [| auto].
        rewrite <- Heq, <- app_assoc. reflexivity.
    + destruct (IH pre best (mid ++ [c])) as (before & after & Heq & Hb & Ha).
      * exact Hpre.
      * intros x Hx. apply elem_of_app in Hx as [Hx | Hx]; [auto |].
        apply list_elem_of_singleton in Hx as ->. lia.
      * exists before, after. split; [| auto].
        rewrite <- Heq, <- app_assoc. reflexivity.
Qed.

(** X12: The default [by] picks the first of the candidates with the fewest
    entries: every candidate before it has more entries, none after it has
    fewer.  It raises only on an empty list of candidates. *)
Theorem default_by_first_minimum (choices : list Partition) :
  match default_by choices with
  | Ok c =>
      exists before after,
        choices = before ++ c :: after
        /\ (forall x, x ∈ before -> partition_numentries c < partition_numentries x)
        /\ (forall x, x ∈ after -> partition_numentries c <= partition_numentries x)
  | Raise e => choices = [] /\ e = EmptyChoices
  end.
Proof.
  destruct choices as [| c choices]; [split; reflexivity |].
  cbn [default_by].
  apply (min_by_numentries_first choices [] c []); intros x Hx; inversion Hx.
Qed.

Lemma default_by_picks (choices : list Partition) (c : Partition) :
  default_by choices = Ok c -> c ∈ choices.
Proof.
  destruct choices as [| c0 choices]; cbn [default_by]; [discriminate |].
  intros [= <-].
  destruct (min_by_numentries_first choices [] c0 [])
    as (before & after & Heq & _); try (intros x Hx; inversion Hx).
  cbn [app] in Heq. rewrite Heq. apply elem_of_app. right.
  apply elem_of_cons. left. reflexivity.
Qed.

(** ** Where the growth of a branch resumes *)

Lemma search_basket_seq (branch : Branch) (entryi : Z) (m : nat) :
  forall (k : nat) prev,
  (0 < m)%nat -> Z.of_nat (k + m) = numbaskets branch ->
  let b := search_basket branch entryi (map Z.of_nat (seq k m)) prev in
  Z.of_nat k <= b < numbaskets branch
  /\ (b + 1 = numbaskets branch \/ basketstart branch (b + 1) > entryi)
  /\ forall b', Z.of_nat k <= b' < b -> basketstart branch (b' + 1) <= entryi.
Proof.
  induction m as [| m IH]; intros k prev Hm Hn; [lia |].
  cbn [seq map search_basket].
  destruct (Z.eqb_spec (Z.of_nat k + 1) (numbaskets branch)) as [Hlast | Hmore];
    cbn [orb].
  - split; [lia |]. split; [left; exact Hlast | intros b' Hb'; lia].
  - destruct (Z.gtb_spec (basketstart branch (Z.of_nat k + 1)) entryi) as [Hgt | Hle].
    + split; [lia |]. split; [right; lia | intros b' Hb'; lia].
    + destruct (IH (S k) (Z.of_nat k)) as (H1 & H2 & H3); [lia | lia |].
      split; [lia |]. split; [exact H2 |].
      intros b' Hb'. destruct (Z.eq_dec b' (Z.of_nat k)) as [-> | Hne]; [exact Hle |].
      apply H3. lia.
Qed.

(** X13: For a branch with baskets, the search of lines 285-287 ends at the first
    basket whose successor starts after [entryi], or at the last basket when
    there is none: the basket that holds entry [entryi] when the baskets lie
    one after the other. *)
Theorem search_basket_spec (branch : Branch) (entryi basketi : Z) :
  0 < numbaskets branch ->
  let b := search_basket branch entryi (range (numbaskets branch)) basketi in
  0 <= b < numbaskets branch
  /\ (b + 1 = numbaskets branch \/ basketstart branch (b + 1) > entryi)
  /\ forall b', 0 <= b' < b -> basketstart branch (b' + 1) <= entryi.
Proof.
  intros Hn. unfold range.
  apply (search_basket_seq branch entryi (Z.to_nat (numbaskets branch)) 0%nat basketi); lia.
Qed.

(** ** Opening a later file *)

(** Lines 260-266 are lines 251-257 with other errors. *)
Lemma check_counters_as_branches here prev (counters : dict string) (ks : list string) :
  forall cur,
  check_counters here prev counters cur ks
  = match check_branches here prev counters cur ks with
    | Ok r => Ok r
    | Raise (BranchNotFound k h p) => Raise (CounterNotFound k h p)
    | Raise (DtypeDiffers k h p) => Raise (CounterDiffers k h p)
    | Raise e => Raise e
    end.
Proof.
  induction ks as [| key ks IH]; intros cur; [reflexivity |].
  cbn [check_counters check_branches]. unfold dtype in *.
  destruct (dict_get cur key) as [cnew |]; [| reflexivity].
  destruct (dict_get counters key) as [cold |]; [| apply IH].
  destruct (negb (String.eqb cnew cold)); [reflexivity | apply IH].
Qed.

Lemma check_branches_accepts here prev (toget newtoget : dict dtype) :
  NoDup (dict_keys toget) -> NoDup (dict_keys newtoget) ->
  ((exists r, check_branches here prev toget newtoget
                (set_union (dict_keys toget) (dict_keys newtoget)) = Ok r)
   <-> dict_included toget newtoget)
  /\ forall e, check_branches here prev toget newtoget
                 (set_union (dict_keys toget) (dict_keys newtoget)) = Raise e ->
       exists k, e = BranchNotFound k here prev \/ e = DtypeDiffers k here prev.
Proof.
  intros Hold Hnew.
  destruct (set_union_spec _ _ Hold Hnew) as [Hks Hunion].
  split; [split |].
  - intros [r Hr]. apply (check_branches_walk here prev toget _ Hks) in Hr as [Hgood _].
    intros k d Hk.
    assert (Hin : k ∈ set_union (dict_keys toget) (dict_keys newtoget)).
    { apply Hunion. left.
      destruct (decide (k ∈ dict_keys toget)) as [Hin | Hnotin]; [exact Hin |].
      apply dict_get_None in Hnotin. congruence. }
    specialize (Hgood k Hin).
    destruct (dict_get newtoget k) as [dnew |] eqn:Hdnew.
    + destruct (decide (dnew = d)) as [-> | Hne]; [reflexivity |].
      exfalso. apply Hgood. right. exists dnew, d. auto.
    + exfalso. apply Hgood. left. exact Hdnew.
  - intros Hsame. eexists.
    apply (check_branches_walk here prev toget _ Hks). split; [| reflexivity].
    intros k Hk [Hnone | (dnew & dold & H1 & H2 & H3)].
    + apply Hunion in Hk as [Hk | Hk].
      * destruct (dict_get toget k) as [d |] eqn:Hd.
        -- rewrite (Hsame k d Hd) in Hnone. discriminate.
        -- apply dict_get_None in Hd. contradiction.
      * apply dict_get_None in Hnone. contradiction.
    + rewrite (Hsame k dold H2) in H1. congruence.
  - intros e He.
    destruct (check_branches_raise here prev toget _ Hks _ _ He)
      as (k & _ & [[_ ->] | (dnew & dold & _ & _ & _ & ->)]);
      exists k; auto.
Qed.

(** X14: [tree(i)] for a file after the first returns the tree exactly when the
    file selects every branch of the first selection with the same dtype and
    counts every counted branch of the first file by the same counter;
    branches and counters that only the later file has are accepted.
    Otherwise it raises one of the four errors of lines 253-266, which name
    the file and the one before it. *)
Theorem tree_accepts (files : list (string * TTree))
    (branchdtypes_arg : Branch -> option dtype)
    (toget : dict dtype) (counters : dict string) (i : Z) (here : string) (t : TTree) :
  i <> 0 -> getitem files i = Ok (here, t) ->
  NoDup (dict_keys toget) -> NoDup (dict_keys counters) ->
  (tree files branchdtypes_arg toget counters i = Ok t
   <-> dict_included toget (selection branchdtypes_arg t)
       /\ dict_included counters (counters_of t))
  /\ (tree files branchdtypes_arg toget counters i = Ok t
      \/ exists e, tree files branchdtypes_arg toget counters i = Raise e
                   /\ schema_error here (path_at files (i - 1)) e).
Proof.
  intros Hi Hget Htoget Hcounters. unfold tree. rewrite Hget. cbn [mbind result_bind].
  destruct (Z.eqb_spec i 0) as [? | _]; [contradiction |].
  destruct (check_branches_accepts here (path_at files (i - 1)) toget
              (selection branchdtypes_arg t) Htoget (dict_of_list_NoDup _))
    as [Hb_ok Hb_err].
  destruct (check_branches_accepts here (path_at files (i - 1)) counters
              (counters_of t) Hcounters (dict_of_list_NoDup _))
    as [Hc_ok Hc_err].
  rewrite check_counters_as_branches.
  destruct (check_branches here (path_at files (i - 1)) toget _ _) as [r | e].
  - assert (Hsel : dict_included toget (selection branchdtypes_arg t))
      by (apply Hb_ok; eexists; reflexivity).
    destruct (check_branches here (path_at files (i - 1)) counters _ _) as [r' | e'].
    + assert (Hcnt : dict_included counters (counters_of t))
        by (apply Hc_ok; eexists; reflexivity).
      split; [split; auto | left; reflexivity].
    + assert (Hno : ~ dict_included counters (counters_of t)).
      { intros H. apply Hc_ok in H as [r' Hr']. discriminate. }
      destruct (Hc_err e' eq_refl) as (k & [-> | ->]).
      * split; [split; [discriminate | intros [_ H]; contradiction] |].
        right. eexists. split; [reflexivity |]. exists k. auto.
      * split; [split; [discriminate | intros [_ H]; contradiction] |].
        right. eexists. split; [reflexivity |]. exists k. auto.
  - assert (Hno : ~ dict_included toget (selection branchdtypes_arg t)).
    { intros H. apply Hb_ok in H as [r' Hr']. discriminate. }
    destruct (Hb_err e eq_refl) as (k & He).
    split; [split; [discriminate | intros [H _]; contradiction] |].
    right. exists e. split; [reflexivity |]. exists k. tauto.
Qed.

(** ** The accumulation of baskets *)

Section Greedy.
Variable files : list (string * TTree).
Variable branchdtypes_arg : Branch -> option dtype.
Variable under : list BasketData -> bool.
Variable toget : dict dtype.
Variable counters : dict string.

Lemma accepted_snoc (bd : list BasketData) (x : BasketData) :
  accepted under bd ->
  existsb (fun x => bd_entrystart x =? bd_entryend x) (bd ++ [x]) = false ->
  under (bd ++ [x]) = true ->
  accepted under (bd ++ [x]).
Proof.
  intros [Hpre Hne] Hex Hun. split.
  - intros n Hn. rewrite length_app in Hn. cbn [length] in Hn.
    destruct (decide (n <= length bd)%nat) as [Hle | Hgt].
    + rewrite take_app_le by exact Hle. apply Hpre. lia.
    + rewrite take_ge by (rewrite length_app; cbn [length]; lia). exact Hun.
  - intros y Hy Heq.
    assert (Htrue : existsb (fun x => bd_entrystart x =? bd_entryend x) (bd ++ [x]) = true).
    { apply existsb_exists. exists y. split; [apply list_elem_of_In; exact Hy |].
      apply Z.eqb_eq. exact Heq. }
    congruence.
Qed.

Lemma accumulate_accepted (branchname : string) (dt : dtype) (branch : Branch)
    (fuel : nat) :
  forall pathi basketi basketdata pathi' basketi' out,
  accumulate files branchdtypes_arg under fuel toget counters branchname dt branch
    pathi basketi basketdata = Ok (pathi', basketi', out) ->
  accepted under basketdata ->
  accepted under out
  /\ (len (paths files) <= pathi'
      \/ exists p, getitem (paths files) pathi' = Ok p
           /\ under (out ++ [basket_datum p branchname dt branch pathi' basketi']) = false).
Proof.
  induction fuel as [| fuel IH]; intros pathi basketi basketdata pathi' basketi' out;
    simpl; [discriminate |].
  assert (Happend : forall pathi0 basketi0,
    (p ← getitem (paths files) pathi0;
     if existsb (fun x => bd_entrystart x =? bd_entryend x)
          (basketdata ++ [basket_datum p branchname dt branch pathi0 basketi0])
     then Raise AssertionError
     else if negb (under (basketdata ++ [basket_datum p branchname dt branch pathi0 basketi0]))
          then Ok (pathi0, basketi0,
                   removelast (basketdata ++ [basket_datum p branchname dt branch pathi0 basketi0]))
          else accumulate files branchdtypes_arg under fuel toget counters branchname dt
                 branch pathi0 (basketi0 + 1)
                 (basketdata ++ [basket_datum p branchname dt branch pathi0 basketi0]))
    = Ok (pathi', basketi', out) ->
    accepted under basketdata ->
    accepted under out
    /\ (len (paths files) <= pathi'
        \/ exists p, getitem (paths files) pathi' = Ok p
             /\ under (out ++ [basket_datum p branchname dt branch pathi' basketi']) = false)).
  { intros pathi0 basketi0 Hrun Hold.
    destruct (getitem (paths files) pathi0) as [p | e] eqn:Hp; simpl in Hrun;
      [| discriminate].
    destruct (existsb _ _) eqn:Hex; [discriminate |].
    destruct (under _) eqn:Hun; cbn [negb] in Hrun.
    - eapply IH; [exact Hrun |]. apply accepted_snoc; assumption.
    - injection Hrun as <- <- <-. rewrite removelast_last.
      split; [exact Hold |]. right. exists p. split; [exact Hp | exact Hun]. }
  destruct (basketi >=? numbaskets branch).
  - destruct (Z.geb_spec (pathi + 1) (len (paths files))) as [Hend | Hmore].
    + intros [= <- <- <-] Hold. split; [exact Hold | left; lia].
    + destruct (tree_branch files branchdtypes_arg toget counters (pathi + 1) branchname);
        simpl; [apply Happend | discriminate].
  - apply Happend.
Qed.

(** X15: The accumulation of lines 291-316 is greedy.  The baskets it returns
    satisfy [under], as does every shorter non-empty run of them, and none is
    empty; it stopped because the files ran out, or because the next basket
    would have broken [under]. *)
Theorem accumulate_greedy (branchname : string) (dt : dtype) (branch : Branch)
    (fuel : nat) (pathi basketi pathi' basketi' : Z) (out : list BasketData) :
  accumulate files branchdtypes_arg under fuel toget counters branchname dt branch
    pathi basketi [] = Ok (pathi', basketi', out) ->
  accepted under out
  /\ (len (paths files) <= pathi'
      \/ exists p, getitem (paths files) pathi' = Ok p
           /\ under (out ++ [basket_datum p branchname dt branch pathi' basketi']) = false).
Proof.
  intros Hrun. eapply accumulate_accepted; [exact Hrun |].
  split; [intros n Hn; cbn [length] in Hn; lia | intros x Hx; inversion Hx].
Qed.

Lemma accumulate_more_fuel (branchname : string) (dt : dtype) (branch : Branch)
    (fuel : nat) :
  forall (k : nat) pathi basketi basketdata,
  accumulate files branchdtypes_arg under fuel toget counters branchname dt branch
    pathi basketi basketdata <> Raise OutOfFuel ->
  accumulate files branchdtypes_arg under (fuel + k) toget counters branchname dt branch
    pathi basketi basketdata
  = accumulate files branchdtypes_arg under fuel toget counters branchname dt branch
      pathi basketi basketdata.
Proof.
  induction fuel as [| fuel IH]; intros k pathi basketi basketdata;
    [intros H; contradiction H; reflexivity |].
  cbn [Nat.add accumulate].
  destruct (basketi >=? numbaskets branch).
  - destruct (pathi + 1 >=? len (paths files)); [reflexivity |].
    destruct (tree_branch files branchdtypes_arg toget counters (pathi + 1) branchname);
      [| reflexivity].
    cbn [mbind result_bind].
    destruct (getitem (paths files) (pathi + 1)) as [p | e]; [| reflexivity].
    cbn [mbind result_bind].
    destruct (existsb _ _); [reflexivity |].
    destruct (negb _); [reflexivity | apply IH].
  - destruct (getitem (paths files) pathi) as [p | e]; [| reflexivity].
    cbn [mbind result_bind].
    destruct (existsb _ _); [reflexivity |].
    destruct (negb _); [reflexivity | apply IH].
Qed.

(** X16: The loop of lines 291-316 ends: one step per basket left in the branch
    and, per file left, one more than the branch has baskets are enough, and
    further steps do not change what it returns or raises. *)
Theorem accumulate_ends (branchname : string) (dt : dtype) (branch : Branch)
    (pathi basketi : Z) (k : nat) :
  accumulate files branchdtypes_arg under (accumulate_fuel files branch pathi basketi)
    toget counters branchname dt branch pathi basketi [] <> Raise OutOfFuel
  /\ accumulate files branchdtypes_arg under
       (accumulate_fuel files branch pathi basketi + k)
       toget counters branchname dt branch pathi basketi []
     = accumulate files branchdtypes_arg under (accumulate_fuel files branch pathi basketi)
         toget counters branchname dt branch pathi basketi [].
Proof.
  split; [apply accumulate_fuel_enough |].
  apply accumulate_more_fuel, accumulate_fuel_enough.
Qed.

End Greedy.

(** ** The partitions [fill] makes *)

Section FillResult.
Variable files : list (string * TTree).
Variable treepath : string.
Variable branchdtypes_arg : Branch -> option dtype.
Variable by_ : list Partition -> result Partition.
Variable under : list BasketData -> bool.
Variable toget : dict dtype.
Variable counters : dict string.

Hypothesis by_picks : forall choices c, by_ choices = Ok c -> c ∈ choices.

Lemma candidate_solid partitions partitioni basketi branchname dt c basketi' :
  candidate files branchdtypes_arg under toget counters partitions partitioni basketi
    branchname dt = Ok (c, basketi') ->
  index c = partitioni /\ forall r, r ∈ ranges c -> entrystart r <> entryend r.
Proof.
  unfold candidate.
  destruct (growth_start _ _ _ _ _ _ _) as [[[[pathi basketi0] entryi] branch] | e];
    cbn [mbind result_bind]; [| discriminate].
  destruct (accumulate _ _ _ _ _ _ _ _ _ _ _ _) as [[[pathi' basketi1] basketdata] | e];
    cbn [mbind result_bind]; [| discriminate].
  destruct (len basketdata =? 0).
  - destruct (getitem _ _); discriminate.
  - destruct (align_first _ _) as [rs | e]; cbn [mbind result_bind]; [| discriminate].
    intros [= <- <-]. split; [reflexivity |].
    intros r Hr. cbn [ranges] in Hr.
    apply list_elem_of_In, filter_In in Hr as [_ Hr].
    apply negb_true_iff, Z.eqb_neq in Hr. exact Hr.
Qed.

Lemma candidates_solid partitions partitioni (branches : dict dtype) :
  forall basketi acc out basketi',
  candidates files branchdtypes_arg under toget counters partitions partitioni basketi
    branches acc = Ok (out, basketi') ->
  (forall c, c ∈ acc ->
     index c = partitioni /\ forall r, r ∈ ranges c -> entrystart r <> entryend r) ->
  forall c, c ∈ out ->
    index c = partitioni /\ forall r, r ∈ ranges c -> entrystart r <> entryend r.
Proof.
  induction branches as [| [branchname dt] branches IH]; intros basketi acc out basketi';
    cbn [candidates].
  - intros [= <- <-] Hacc. exact Hacc.
  - destruct (candidate _ _ _ _ _ _ _ _ _ _) as [[c0 b0] |] eqn:Hc;
      cbn [mbind result_bind]; [| discriminate].
    intros Hrun Hacc. eapply IH; [exact Hrun |].
    intros c Hin. apply elem_of_app in Hin as [Hin | Hin]; [auto |].
    apply list_elem_of_singleton in Hin as ->.
    eapply candidate_solid. exact Hc.
Qed.

Lemma fill_loop_solid (fuel : nat) :
  forall partitions partitioni basketi ps,
  fill_loop files branchdtypes_arg by_ under fuel toget counters
    partitions partitioni basketi = Ok ps ->
  partitioni = len partitions ->
  map index partitions = range (len partitions) ->
  (forall p, p ∈ partitions -> solid p) ->
  map index ps = range (len ps) /\ forall p, p ∈ ps -> solid p.
Proof using by_picks.
  induction fuel as [| fuel IH]; intros partitions partitioni basketi ps; cbn [fill_loop];
    destruct (more_to_do _ _ _ _ _) as [[|] | e]; cbn [mbind result_bind];
    try discriminate.
  - intros [= <-]. auto.
  - destruct (candidates _ _ _ _ _ _ _ _ _ _) as [[possiblenext basketi'] | e] eqn:Hcs;
      cbn [mbind result_bind]; [| discriminate].
    destruct (by_ possiblenext) as [chosen | e] eqn:Hby; cbn [mbind result_bind];
      [| discriminate].
    destruct (getitem (ranges chosen) 0) as [r0 | e] eqn:Hr0; cbn [mbind result_bind];
      [| discriminate].
    intros Hrun Hi Hidx Hsolid.
    destruct (candidates_solid _ _ _ _ _ _ _ Hcs
                ltac:(intros c Hc; inversion Hc) chosen (by_picks _ _ Hby))
      as [Hindex Hranges].
    eapply IH; [exact Hrun | | |].
    + unfold len in *. rewrite length_app. cbn [length]. lia.
    + rewrite map_app, range_snoc, Hidx. cbn [map]. congruence.
    + intros p Hp. apply elem_of_app in Hp as [Hp | Hp]; [auto |].
      apply list_elem_of_singleton in Hp as ->.
      split; [| exact Hranges].
      intros Hnil. rewrite Hnil in Hr0. discriminate.
  - intros [= <-]. auto.
Qed.

End FillResult.

(** X17: When the loop of [fill] ends, every partition has a range and no range
    is empty, and the partitions are numbered from 0, provided [by] returns
    one of the candidates.  Of the four assertions of the constructor, only
    the one on the chain of the ranges (lines 136 and 138) can then fail:
    [fill] returns the partition set when the ranges are chained and raises
    [AssertionError] when they are not. *)
Theorem fill_checks_the_chain (files : list (string * TTree)) (treepath : string)
    (branchdtypes_arg : Branch -> option dtype)
    (by_ : list Partition -> result Partition) (under : list BasketData -> bool)
    (fuel : nat) (p0 : string) (tree0 : TTree) (ps : list Partition) :
  (forall choices c, by_ choices = Ok c -> c ∈ choices) ->
  getitem files 0 = Ok (p0, tree0) ->
  fill_loop files branchdtypes_arg by_ under fuel
    (selection branchdtypes_arg tree0) (counters_of tree0) [] 0 0 = Ok ps ->
  (forall p, p ∈ ps -> solid p)
  /\ map index ps = range (len ps)
  /\ (ranges_chained (concat (map ranges ps))
      /\ fill files treepath branchdtypes_arg by_ under fuel
         = Ok (mkPartitionSet treepath (selection branchdtypes_arg tree0)
                 (counters_of tree0) (len ps)
                 (sumZ (map partition_numentries ps)) ps)
      \/ ~ ranges_chained (concat (map ranges ps))
         /\ fill files treepath branchdtypes_arg by_ under fuel = Raise AssertionError).
Proof.
  intros Hby Hget Hloop.
  destruct (fill_loop_solid files branchdtypes_arg by_ under _ _ Hby fuel [] 0 0 ps Hloop)
    as [Hidx Hsolid]; [reflexivity | reflexivity | intros p Hp; inversion Hp |].
  split; [exact Hsolid |]. split; [exact Hidx |].
  unfold fill. rewrite Hget. cbn [mbind result_bind]. rewrite Hloop.
  cbn [mbind result_bind].
  destruct (PartitionSet_init_iff treepath (selection branchdtypes_arg tree0)
              (counters_of tree0) (len ps) (sumZ (map partition_numentries ps)) ps)
    as [Hiff [Hok | Herr]].
  - left. split; [apply Hiff; exact Hok | exact Hok].
  - right. split; [| exact Herr].
    intros Hchain.
    assert (Hok : PartitionSet_init treepath (selection branchdtypes_arg tree0)
                    (counters_of tree0) (len ps) (sumZ (map partition_numentries ps))
                    (map a_partition ps)
                  = Ok (mkPartitionSet treepath (selection branchdtypes_arg tree0)
                          (counters_of tree0) (len ps)
                          (sumZ (map partition_numentries ps)) ps))
      by (apply Hiff; auto).
    congruence.
Qed.


(** ** When the iterator stops *)

Section IteratorRest.
Variable array : Type.
Variable output_value : Type.
Variable concatenate : list array -> array.
Variable empty_array : dtype -> array.
Variable tree_iterator : string -> list (Z * Z) -> list (Z * Z * dict array).
Variable outputtype : dict array -> output_value.
Variable partitionset : PartitionSet.

Local Abbreviation emit_ :=
  (emit array output_value concatenate empty_array outputtype partitionset).
Local Abbreviation walk_range_ := (walk_range array output_value tree_iterator).
Local Abbreviation walk_ :=
  (walk array output_value concatenate empty_array tree_iterator outputtype partitionset).

Lemma emit_bound (fuel : nat) :
  forall st,
  nextpartition_ _ _ st <= len (partitions partitionset) ->
  nextpartition_ _ _ (emit_ fuel st) <= len (partitions partitionset).
Proof.
  induction fuel as [| fuel IH]; intros st Hst; cbn [emit]; [exact Hst |].
  destruct (Z.ltb_spec (nextpartition_ _ _ st) (len (partitions partitionset)));
    [| exact Hst].
  destruct (complete _ _ _ _) as [[|] | e]; [| exact Hst | exact Hst].
  destruct (output _ _ _ _ _ _ _ _) as [[treedata v] | e]; [| exact Hst].
  apply IH. cbn [nextpartition_]. lia.
Qed.

Lemma walk_ranges_next (rs : list Range) :
  forall st, nextpartition_ _ _ (fold_left walk_range_ rs st) = nextpartition_ _ _ st.
Proof.
  induction rs as [| r rs IH]; intros st; [reflexivity |].
  cbn [fold_left]. rewrite IH. unfold walk_range. destruct (negb _); reflexivity.
Qed.

Lemma walk_bound (ps : list Partition) :
  forall st,
  nextpartition_ _ _ st <= len (partitions partitionset) ->
  nextpartition_ _ _ (walk_ ps st) <= len (partitions partitionset).
Proof.
  induction ps as [| p ps IH]; intros st Hst; cbn [walk]; [exact Hst |].
  assert (H : nextpartition_ _ _
                (emit_ (length (partitions partitionset))
                   (fold_left walk_range_ (ranges p) st))
              <= len (partitions partitionset))
    by (apply emit_bound; rewrite walk_ranges_next; exact Hst).
  destruct (failure _ _ _); [exact H | apply IH, H].
Qed.

Lemma emit_rest (fuel : nat) :
  forall st,
  nextpartition_ _ _ st <= len (partitions partitionset) ->
  len (partitions partitionset) - nextpartition_ _ _ st <= Z.of_nat fuel ->
  failure _ _ (emit_ fuel st) = None ->
  nextpartition_ _ _ (emit_ fuel st) = len (partitions partitionset)
  \/ complete array partitionset (treedata_ _ _ (emit_ fuel st))
       (nextpartition_ _ _ (emit_ fuel st)) = Ok false.
Proof.
  induction fuel as [| fuel IH]; intros st Hle Hfuel; cbn [emit].
  - intros _. left. cbn in Hfuel. lia.
  - destruct (Z.ltb_spec (nextpartition_ _ _ st) (len (partitions partitionset)));
      [| intros _; left; lia].
    destruct (complete _ _ _ _) as [[|] | e] eqn:Hc.
    + destruct (output _ _ _ _ _ _ _ _) as [[treedata v] | e]; [| discriminate].
      apply IH; cbn [nextpartition_]; lia.
    + intros _. right. exact Hc.
    + discriminate.
Qed.

(** X18: The iterator gives up without an error.  When it ends without an
    exception, it has yielded every partition, or it stopped at a partition
    that was not complete after the last file was read: that partition and
    all after it are never yielded. *)
Theorem iterator_stops_silently :
  let st := iterator array output_value concatenate empty_array tree_iterator
              outputtype partitionset in
  failure _ _ st = None ->
  len (yields _ _ st) = len (partitions partitionset)
  \/ len (yields _ _ st) < len (partitions partitionset)
     /\ complete array partitionset (treedata_ _ _ st) (len (yields _ _ st)) = Ok false.
Proof.
  intros st. subst st. unfold iterator.
  set (w := walk_ (partitions partitionset) (mkIter _ _ [] None [] 0 [] None)).
  assert (Hw : PlannerSpec.in_order array output_value partitionset w).
  { apply walk_in_order. repeat split. intros y Hy. inversion Hy. }
  assert (Hwb : nextpartition_ _ _ w <= len (partitions partitionset))
    by (apply walk_bound; cbn [nextpartition_]; unfold len; lia).
  destruct (failure _ _ w) eqn:Hf; [intros Hnone; congruence |].
  set (st0 := mkIter _ _ _ (oldpath _ _ w) (entries _ _ w) (nextpartition_ _ _ w)
                (yields _ _ w) None).
  assert (H0 : PlannerSpec.in_order array output_value partitionset st0) by exact Hw.
  assert (Hord : PlannerSpec.in_order array output_value partitionset
                   (emit_ (length (partitions partitionset)) st0))
    by (apply emit_in_order; exact H0).
  destruct Hord as (Hnext & _ & _).
  intros Hnone. rewrite <- Hnext.
  assert (Hnn : 0 <= nextpartition_ _ _ st0)
    by (destruct H0 as (-> & _); unfold len; lia).
  destruct (emit_rest (length (partitions partitionset)) st0 Hwb
              ltac:(unfold len in *; lia) Hnone) as [Hall | Hstop];
    [left; exact Hall | right].
  split; [| exact Hstop].
  unfold complete in Hstop.
  destruct (getitem (partitions partitionset) _) as [p | e] eqn:Hget; [| discriminate].
  unfold getitem in Hget.
  destruct (_ <? 0); [discriminate |].
  destruct (partitions partitionset !! _) eqn:Hlk; [| discriminate].
  apply lookup_lt_Some in Hlk. unfold len in *. lia.
Qed.

End IteratorRest.

(** ** What the iterator yields for a partition of one range *)

Lemma dict_get_elem {V} (d : dict V) (k : string) (v : V) :
  NoDup (dict_keys d) -> (k, v) ∈ d -> dict_get d k = Some v.
Proof.
  induction d as [| [k0 v0] d IH]; intros Hnd Hin; [inversion Hin |].
  cbn [dict_keys map fst] in Hnd. apply NoDup_cons in Hnd as [Hnotin Hnd].
  cbn [dict_get]. apply elem_of_cons in Hin as [[= <- <-] | Hin].
  - rewrite String.eqb_refl. reflexivity.
  - destruct (String.eqb_spec k0 k) as [-> | Hne]; [| auto].
    exfalso. apply Hnotin. apply list_elem_of_fmap. exists (k, v). auto.
Qed.

Lemma dict_set_map {V} (d : dict V) (k : string) (v : V) :
  NoDup (dict_keys d) -> k ∈ dict_keys d ->
  dict_set d k v = map (fun kv => if String.eqb (fst kv) k then (fst kv, v) else kv) d.
Proof.
  induction d as [| [k0 v0] d IH]; intros Hnd Hin; [inversion Hin |].
  cbn [dict_keys map fst] in Hnd, Hin. apply NoDup_cons in Hnd as [Hnotin Hnd].
  cbn [dict_set map fst].
  destruct (String.eqb_spec k0 k) as [-> | Hne].
  - f_equal. symmetry. transitivity (map id d); [| apply map_id].
    apply map_ext_in. intros [k1 v1] H1. cbn [fst id].
    destruct (String.eqb_spec k1 k) as [-> | _]; [| reflexivity].
    exfalso. apply Hnotin. apply list_elem_of_fmap. exists (k, v1).
    split; [reflexivity | apply list_elem_of_In; exact H1].
  - f_equal. apply IH; [exact Hnd |].
    apply elem_of_cons in Hin as [-> | Hin]; [congruence | exact Hin].
Qed.

Section OutputOneRange.
Variable array : Type.
Variable output_value : Type.
Variable concatenate : list array -> array.
Variable empty_array : dtype -> array.
Variable outputtype : dict array -> output_value.
Variable partitionset : PartitionSet.

Lemma append_arrays_spec (arrays : dict array) :
  forall arraylists : dict (list array),
  NoDup (dict_keys arrays) -> NoDup (dict_keys arraylists) ->
  (forall k, k ∈ dict_keys arrays -> k ∈ dict_keys arraylists) ->
  append_arrays array arrays arraylists
  = Ok (map (fun kl => (fst kl,
                        snd kl ++ match dict_get arrays (fst kl) with
                                  | Some a => [a]
                                  | None => []
                                  end))
            arraylists).
Proof.
  induction arrays as [| [nm a] arrays IH]; intros arraylists Ha Hal Hsub.
  - cbn [append_arrays dict_get]. f_equal. symmetry.
    transitivity (map id arraylists); [| apply map_id].
    apply map_ext. intros [k l]. cbn [fst snd id]. rewrite app_nil_r. reflexivity.
  - cbn [dict_keys map fst] in Ha. apply NoDup_cons in Ha as [Hnotin Ha].
    assert (Hnm : nm ∈ dict_keys arraylists)
      by (apply Hsub; apply elem_of_cons; left; reflexivity).
    cbn [append_arrays].
    destruct (dict_get arraylists nm) as [l |] eqn:Hl;
      [| apply dict_get_None in Hl; contradiction].
    rewrite IH; [| exact Ha | apply dict_set_NoDup; exact Hal |].
    2: { intros k Hk. apply dict_set_keys. right. apply Hsub.
         apply elem_of_cons. right. exact Hk. }
    f_equal. rewrite (dict_set_map arraylists nm (l ++ [a]) Hal Hnm), map_map.
    apply map_ext_in. intros [k l0] Hin. cbn [fst snd dict_get].
    destruct (String.eqb_spec k nm) as [-> | Hne].
    + cbn [fst snd]. rewrite String.eqb_refl.
      replace (dict_get arrays nm) with (@None array)
        by (symmetry; apply dict_get_None; exact Hnotin).
      rewrite app_nil_r.
      assert (Hl0 : dict_get arraylists nm = Some l0)
        by (apply dict_get_elem; [exact Hal | apply list_elem_of_In; exact Hin]).
      congruence.
    + cbn [fst snd].
      destruct (String.eqb_spec nm k) as [-> | _]; [congruence | reflexivity].
Qed.

Lemma scan_first_match (r : Range) (x : Z * Z * dict array)
    (post : list (Z * Z * dict array)) (pre : list (Z * Z * dict array)) :
  forall i used arraylists,
  (forall y, y ∈ pre -> matches array r y = false) ->
  matches array r x = true ->
  scan array r (pre ++ x :: post) i used arraylists
  = (arraylists ← append_arrays array (snd x) arraylists;
     Ok (Some (i + len pre), arraylists)).
Proof.
  induction pre as [| y pre IH]; intros i used arraylists Hpre Hx; cbn [app scan].
  - rewrite Hx. unfold len. cbn [length Z.of_nat]. rewrite Z.add_0_r. reflexivity.
  - rewrite (Hpre y) by (apply elem_of_cons; left; reflexivity).
    rewrite IH; [| intros z Hz; apply Hpre; apply elem_of_cons; right; exact Hz | exact Hx].
    unfold len. cbn [length]. replace (i + 1 + Z.of_nat (length pre))
      with (i + Z.of_nat (S (length pre))) by lia.
    reflexivity.
Qed.

Lemma outarrays_one_range (arrays : dict array) (bds : dict dtype) :
  (forall bd, bd ∈ bds -> dict_get (branchdtypes partitionset) (fst bd) = Some (snd bd)) ->
  mapM (fun na => a ← outarray array concatenate empty_array partitionset (fst na) (snd na);
                  Ok (fst na, a))
       (map (fun kl : string * list array =>
               (fst kl, snd kl ++ match dict_get arrays (fst kl) with
                                  | Some a => [a]
                                  | None => []
                                  end))
            (map (fun bd : string * dtype => (fst bd, @nil array)) bds))
  = Ok (map (fun bd => (fst bd,
                        match dict_get arrays (fst bd) with
                        | Some a => a
                        | None => empty_array (snd bd)
                        end))
            bds).
Proof.
  induction bds as [| [nm d] bds IH]; intros Hbds; [reflexivity |].
  cbn [map mapM fst snd app].
  rewrite IH by (intros bd Hbd; apply Hbds; apply elem_of_cons; right; exact Hbd).
  specialize (Hbds (nm, d) ltac:(apply elem_of_cons; left; reflexivity)).
  cbn [fst snd] in Hbds.
  destruct (dict_get arrays nm) as [a |]; cbn [outarray mbind result_bind];
    [reflexivity |].
  rewrite Hbds. reflexivity.
Qed.

(** X19: For a partition of one range, [output] returns the arrays the tree
    reader reported for the first entry of [treedata] with the entries of
    the range: one array per selected branch in the order of [branchdtypes],
    the empty array of its dtype for a branch without one.  That entry and
    all entries of the file before it are dropped from [treedata], and the
    file with them when nothing is left. *)
Theorem output_one_range (treedata : TreeData array) (nextpartition i : Z) (r : Range)
    (pre post : list (Z * Z * dict array)) (x : Z * Z * dict array) :
  getitem (partitions partitionset) nextpartition = Ok (mkPartition i [r]) ->
  dict_get treedata (path r) = Some (pre ++ x :: post) ->
  (forall y, y ∈ pre -> matches array r y = false) ->
  matches array r x = true ->
  NoDup (dict_keys (branchdtypes partitionset)) ->
  NoDup (dict_keys (snd x)) ->
  (forall k, k ∈ dict_keys (snd x) -> k ∈ dict_keys (branchdtypes partitionset)) ->
  output array output_value concatenate empty_array outputtype partitionset
    treedata nextpartition
  = Ok (treedata_left array treedata (path r) post,
        outputtype (arrays_of_range array partitionset empty_array (snd x))).
Proof.
  intros Hget Htd Hpre Hx Hbd Harr Hsub. unfold output.
  rewrite Hget. cbn [mbind result_bind ranges consume]. rewrite Htd.
  rewrite (scan_first_match r x post pre 0 None _ Hpre Hx).
  assert (Hkeys : dict_keys (map (fun bd : string * dtype => (fst bd, @nil array))
                               (branchdtypes partitionset))
                  = dict_keys (branchdtypes partitionset)).
  { unfold dict_keys. rewrite map_map. reflexivity. }
  rewrite append_arrays_spec;
    [| exact Harr | rewrite Hkeys; exact Hbd | rewrite Hkeys; exact Hsub].
  cbn [mbind result_bind].
  replace (Z.to_nat (0 + len pre + 1)) with (length pre + 1)%nat by (unfold len; lia).
  replace (drop (length pre + 1) (pre ++ x :: post)) with post.
  2: { rewrite drop_app_ge by lia.
       replace (length pre + 1 - length pre)%nat with 1%nat by lia. reflexivity. }
  rewrite outarrays_one_range.
  - reflexivity.
  - intros [nm d] Hin. cbn [fst snd]. apply dict_get_elem; assumption.
Qed.

End OutputOneRange.

(** ** From baskets to ranges *)

Lemma files_alternate_snoc (l : list Range) (a b : Range) :
  files_alternate (l ++ [a]) -> rpathi a <> rpathi b ->
  files_alternate ((l ++ [a]) ++ [b]).
Proof.
  intros Hl Hab i r1 r2 H1 H2.
  assert (Hlen : length (l ++ [a]) = S (length l))
    by (rewrite length_app; cbn [length]; lia).
  destruct (decide (S i < length (l ++ [a]))%nat) as [Hlt | Hge].
  - rewrite lookup_app_l in H1 by lia. rewrite lookup_app_l in H2 by lia. eauto.
  - assert (Hi : i = length l).
    { apply lookup_lt_Some in H2. rewrite length_app in H2. cbn [length] in H2. lia. }
    subst i.
    rewrite lookup_app_l in H1 by lia. rewrite lookup_app_r in H1 by lia.
    rewrite lookup_app_r in H2 by lia.
    replace (length l - length l)%nat with 0%nat in H1 by lia.
    replace (S (length l) - length (l ++ [a]))%nat with 0%nat in H2 by lia.
    cbn in H1, H2. congruence.
Qed.

Lemma files_alternate_last (l : list Range) (a a' : Range) :
  files_alternate (l ++ [a]) -> rpathi a' = rpathi a -> files_alternate (l ++ [a']).
Proof.
  intros Hl Ha i r1 r2 H1 H2.
  assert (Hi : (S i < S (length l))%nat).
  { apply lookup_lt_Some in H2. rewrite length_app in H2. cbn [length] in H2. lia. }
  rewrite lookup_app_l in H1 by lia.
  destruct (decide (S i < length l)%nat) as [Hlt | Hge].
  - rewrite lookup_app_l in H2 by lia.
    apply (Hl i r1 r2); rewrite lookup_app_l by lia; assumption.
  - rewrite lookup_app_r in H2 by lia.
    replace (S i - length l)%nat with 0%nat in H2 by lia. cbn in H2.
    injection H2 as <-. rewrite Ha.
    apply (Hl i r1 a); [rewrite lookup_app_l by lia; exact H1 |].
    rewrite lookup_app_r by lia.
    replace (S i - length l)%nat with 0%nat by lia. reflexivity.
Qed.

Lemma make_ranges_inv (all : list BasketData) (bd : list BasketData) :
  forall acc cur,
  (forall y, y ∈ bd -> y ∈ all) ->
  files_alternate (acc ++ [cur]) ->
  (forall r, r ∈ acc ++ [cur] -> spans all r) ->
  files_alternate (make_ranges bd (acc ++ [cur]))
  /\ (forall r, r ∈ make_ranges bd (acc ++ [cur]) -> spans all r)
  /\ (exists h h', head (acc ++ [cur]) = Some h
                   /\ head (make_ranges bd (acc ++ [cur])) = Some h'
                   /\ path h' = path h /\ entrystart h' = entrystart h
                   /\ rpathi h' = rpathi h)
  /\ (exists r, last (make_ranges bd (acc ++ [cur])) = Some r
                /\ entryend r = match last bd with
                                | Some y => bd_entryend y
                                | None => entryend cur
                                end).
Proof.
  induction bd as [| x bd IH]; intros acc cur Hall Halt Hspans.
  - cbn [make_ranges last]. split; [exact Halt |]. split; [exact Hspans |]. split.
    + destruct acc as [| h acc]; [exists cur, cur | exists h, h]; repeat split.
    + exists cur. split; [apply last_snoc | reflexivity].
  - cbn [make_ranges]. rewrite last_snoc.
    assert (Hx : x ∈ all) by (apply Hall; apply elem_of_cons; left; reflexivity).
    assert (Hall' : forall y, y ∈ bd -> y ∈ all)
      by (intros y Hy; apply Hall; apply elem_of_cons; right; exact Hy).
    assert (Hlast : forall e0, match last bd with
                               | Some y => bd_entryend y
                               | None => e0
                               end
                               = match last (x :: bd) with
                                 | Some y => bd_entryend y
                                 | None => entryend cur
                                 end -> True) by auto.
    clear Hlast.
    destruct (Z.eqb_spec (rpathi cur) (bd_pathi x)) as [Heq | Hne]; cbn [negb].
    + rewrite removelast_last.
      destruct (IH acc (set_entryend (bd_entryend x) cur) Hall')
        as (H1 & H2 & (h & h' & Hh & Hh' & Hsame) & (r & Hr & Hre)).
      * eapply files_alternate_last; [exact Halt | reflexivity].
      * intros r Hr. apply elem_of_app in Hr as [Hr | Hr].
        -- apply Hspans. apply elem_of_app. left. exact Hr.
        -- apply list_elem_of_singleton in Hr as ->.
           destruct (Hspans cur) as (a & b & Ha & Hb & Hpa & Hpb & Hp & Hs & He).
           { apply elem_of_app. right. apply list_elem_of_singleton. reflexivity. }
           exists a, x. cbn [set_entryend rpathi path entrystart entryend].
           repeat split; auto.
      * split; [exact H1 |]. split; [exact H2 |]. split.
        -- destruct acc as [| h0 acc].
           ++ cbn [app head] in Hh. injection Hh as <-.
              exists cur, h'. cbn [app head]. repeat split; tauto.
           ++ exists h, h'. split; [exact Hh | split; [exact Hh' | exact Hsame]].
        -- exists r. split; [exact Hr |]. rewrite Hre.
           destruct bd as [| y bd']; [reflexivity |].
           rewrite (last_cons_cons x y bd').
           destruct (last (y :: bd')) eqn:Hl; [reflexivity |].
           apply last_None in Hl. discriminate.
    + destruct (IH (acc ++ [cur])
                  (mkRange (bd_path x) (bd_entrystart x) (bd_entryend x) (bd_pathi x))
                  Hall')
        as (H1 & H2 & (h & h' & Hh & Hh' & Hsame) & (r & Hr & Hre)).
      * apply files_alternate_snoc; [exact Halt | exact Hne].
      * intros r Hr. apply elem_of_app in Hr as [Hr | Hr]; [auto |].
        apply list_elem_of_singleton in Hr as ->.
        exists x, x. repeat split; auto.
      * split; [exact H1 |]. split; [exact H2 |]. split.
        -- exists h, h'. split; [| split; [exact Hh' | exact Hsame]].
           destruct acc as [| h0 acc]; exact Hh.
        -- exists r. split; [exact Hr |]. rewrite Hre.
           destruct bd as [| y bd']; [reflexivity |].
           rewrite (last_cons_cons x y bd').
           destruct (last (y :: bd')) eqn:Hl; [reflexivity |].
           apply last_None in Hl. discriminate.
Qed.

(** X25: The ranges lines 322-328 make from accumulated baskets: neighbouring
    ranges lie in different files, every range spans baskets of its one file
    (path and first entry of one, end of another), the first range starts
    with the first basket, and the last range ends with the last basket. *)
Theorem make_ranges_spec (x : BasketData) (bd : list BasketData) :
  let rs := make_ranges (x :: bd) [] in
  files_alternate rs
  /\ (forall r, r ∈ rs -> spans (x :: bd) r)
  /\ (exists r, head rs = Some r
                /\ path r = bd_path x /\ entrystart r = bd_entrystart x
                /\ rpathi r = bd_pathi x)
  /\ (exists r y, last rs = Some r /\ last (x :: bd) = Some y
                  /\ entryend r = bd_entryend y).
Proof.
  cbv zeta. remember (last (x :: bd)) as lx eqn:Hlx. cbn [make_ranges last].
  destruct (make_ranges_inv (x :: bd) bd []
              (mkRange (bd_path x) (bd_entrystart x) (bd_entryend x) (bd_pathi x)))
    as (H1 & H2 & (h & h' & Hh & Hh' & Hp & Hs & Hi) & (r & Hr & Hre)).
  - intros y Hy. apply elem_of_cons. right. exact Hy.
  - intros i r1 r2 Hr1 Hr2. destruct i; discriminate.
  - intros r Hr. apply list_elem_of_singleton in Hr as ->.
    exists x, x. repeat split; apply elem_of_cons; left; reflexivity.
  - cbn [app] in *. injection Hh as <-.
    split; [exact H1 |]. split; [exact H2 |]. split.
    + exists h'. auto.
    + subst lx. destruct bd as [| y bd'].
      * exists r, x. auto.
      * rewrite (last_cons_cons x y bd').
        destruct (last (y :: bd')) as [z |] eqn:Hz;
          [| apply last_None in Hz; discriminate].
        exists r, z. auto.
Qed.

(** ** Two ways [fill] fails before it makes a partition *)

(** X21: When the selection of the first file holds no branch, no candidate
    is made and [by] is called with the empty list; the default [by], a
    [min], raises on it. *)
Theorem fill_no_selection (files : list (string * TTree)) (treepath : string)
    (branchdtypes_arg : Branch -> option dtype) (under : list BasketData -> bool)
    (fuel : nat) (p0 : string) (tree0 : TTree) :
  getitem files 0 = Ok (p0, tree0) ->
  selection branchdtypes_arg tree0 = [] ->
  fill files treepath branchdtypes_arg default_by under (S fuel) = Raise EmptyChoices.
Proof.
  intros Hget Hsel. unfold fill. rewrite Hget. cbn [mbind result_bind].
  rewrite Hsel. reflexivity.
Qed.

(** X22: On one file, when the first selected branch has no basket, the
    accumulation runs past the last file with nothing accumulated, and the
    error message of line 319 is never built: [paths[pathi]] raises
    [IndexError] first. *)
Theorem fill_no_baskets (F : string) (t : TTree) (treepath : string)
    (branchdtypes_arg : Branch -> option dtype)
    (by_ : list Partition -> result Partition) (under : list BasketData -> bool)
    (fuel : nat) (branchname : string) (dt : dtype) (rest : dict dtype)
    (branch : Branch) :
  selection branchdtypes_arg t = (branchname, dt) :: rest ->
  tree_getitem (allbranches t) branchname = Ok branch ->
  numbaskets branch <= 0 ->
  fill [(F, t)] treepath branchdtypes_arg by_ under (S fuel) = Raise IndexError.
Proof.
  intros Hsel Hbranch Hn. unfold fill.
  change (getitem [(F, t)] 0) with (@Ok (string * TTree) (F, t)).
  cbn [mbind result_bind]. rewrite Hsel.
  cbn [fill_loop more_to_do last mbind result_bind candidates].
  assert (Hc : candidate [(F, t)] branchdtypes_arg under ((branchname, dt) :: rest)
                 (counters_of t) [] 0 0 branchname dt = Raise IndexError).
  { assert (Hb : tree_branch [(F, t)] branchdtypes_arg ((branchname, dt) :: rest)
                   (counters_of t) 0 branchname = Ok branch) by exact Hbranch.
    unfold candidate, growth_start. cbn [last]. rewrite Hb.
    cbn [mbind result_bind accumulate_fuel accumulate].
    destruct (Z.geb_spec 0 (numbaskets branch)) as [_ | Hlt]; [| lia].
    reflexivity. }
  rewrite Hc. reflexivity.
Qed.

(** ** One file *)

Lemma basketstart_mono (b : Branch) (n : Z) :
  consecutive_baskets b n ->
  forall (k : nat) i, 0 <= i -> i + Z.of_nat k < numbaskets b ->
  basketstart b i <= basketstart b (i + Z.of_nat k).
Proof.
  intros (Hn & H0 & Hpos & Hstep & Hlast).
  induction k as [| k IH]; intros i Hi Hk.
  - rewrite Z.add_0_r. lia.
  - replace (i + Z.of_nat (S k)) with (i + Z.of_nat k + 1) by lia.
    rewrite Hstep by lia.
    specialize (IH i Hi ltac:(lia)). specialize (Hpos (i + Z.of_nat k) ltac:(lia)). lia.
Qed.

Lemma basketstart_le (b : Branch) (n i j : Z) :
  consecutive_baskets b n -> 0 <= i -> i <= j -> j < numbaskets b ->
  basketstart b i <= basketstart b j.
Proof.
  intros Hb Hi Hij Hj.
  replace j with (i + Z.of_nat (Z.to_nat (j - i))) by lia.
  apply (basketstart_mono b n Hb); lia.
Qed.

Lemma basketend_le (b : Branch) (n j : Z) :
  consecutive_baskets b n -> 0 <= j < numbaskets b ->
  basketstart b j + basketentries b j <= n.
Proof.
  intros Hb Hj. pose proof Hb as (Hn & H0 & Hpos & Hstep & Hlast).
  destruct (Z.eq_dec (j + 1) (numbaskets b)) as [Heq | Hne].
  - replace j with (numbaskets b - 1) by lia. lia.
  - rewrite <- Hstep by lia.
    pose proof (basketstart_le b n (j + 1) (numbaskets b - 1) Hb ltac:(lia) ltac:(lia)
                  ltac:(lia)).
    specialize (Hpos (numbaskets b - 1) ltac:(lia)). lia.
Qed.

Lemma basketend_mono (b : Branch) (n i j : Z) :
  consecutive_baskets b n -> 0 <= i -> i <= j -> j < numbaskets b ->
  basketstart b i + basketentries b i <= basketstart b j + basketentries b j.
Proof.
  intros Hb Hi Hij Hj. pose proof Hb as (Hn & H0 & Hpos & Hstep & Hlast).
  destruct (Z.eq_dec i j) as [-> | Hne]; [lia |].
  rewrite <- (Hstep i) by lia.
  pose proof (basketstart_le b n (i + 1) j Hb ltac:(lia) ltac:(lia) Hj).
  specialize (Hpos j ltac:(lia)). lia.
Qed.

Lemma tree_getitem_elem (bs : list Branch) (branchname : string) (b : Branch) :
  tree_getitem bs branchname = Ok b -> b ∈ bs.
Proof.
  induction bs as [| b0 bs IH]; cbn [tree_getitem]; [discriminate |].
  destruct (String.eqb (name b0) branchname).
  - intros [= ->]. apply elem_of_cons. left. reflexivity.
  - intros H. apply elem_of_cons. right. auto.
Qed.

Lemma basket_run_snoc p branchname dt branch pathi b0 (k : nat) :
  basket_run p branchname dt branch pathi b0 (S k)
  = basket_run p branchname dt branch pathi b0 k
    ++ [basket_datum p branchname dt branch pathi (b0 + Z.of_nat k)].
Proof. unfold basket_run. rewrite seq_S, map_app. reflexivity. Qed.

Lemma make_ranges_one_file (l : list BasketData) :
  forall r lo hi,
  (forall x, x ∈ l -> bd_pathi x = rpathi r /\ lo <= bd_entryend x <= hi) ->
  lo <= entryend r <= hi ->
  exists e, make_ranges l [r] = [mkRange (path r) (entrystart r) e (rpathi r)]
            /\ lo <= e <= hi.
Proof.
  induction l as [| x l IH]; intros r lo hi Hl Hr.
  - exists (entryend r). destruct r. split; [reflexivity | exact Hr].
  - destruct (Hl x ltac:(apply elem_of_cons; left; reflexivity)) as [Hp Hx].
    cbn [make_ranges last]. rewrite Hp, Z.eqb_refl. cbn [negb removelast app].
    apply (IH (set_entryend (bd_entryend x) r) lo hi).
    + intros y Hy. apply Hl. apply elem_of_cons. right. exact Hy.
    + exact Hx.
Qed.

Lemma tiles_snoc (F : string) (rs : list Range) :
  forall s m e, tiles s rs m = true -> tiles s (rs ++ [mkRange F m e 0]) e = true.
Proof.
  induction rs as [| r rs IH]; intros s m e; cbn [tiles app].
  - intros H. apply Z.eqb_eq in H as ->. cbn [entrystart entryend].
    rewrite !Z.eqb_refl. reflexivity.
  - intros H. apply andb_true_iff in H as [H1 H2]. rewrite H1. cbn [andb]. auto.
Qed.

Lemma grown_tiles (F : string) (n : Z) (ps : list Partition) (e : Z) :
  grown F n ps e ->
  List.filter (fun r => String.eqb (path r) F) (concat (map ranges ps))
  = concat (map ranges ps)
  /\ tiles 0 (concat (map ranges ps)) e = true.
Proof.
  induction 1 as [| ps e0 i e Hg [IH1 IH2] He]; [split; reflexivity |].
  rewrite map_app, concat_app. cbn [map concat ranges]. rewrite app_nil_r.
  split.
  - rewrite List.filter_app, IH1. cbn [List.filter path].
    rewrite String.eqb_refl. reflexivity.
  - apply tiles_snoc. exact IH2.
Qed.

Lemma sumZ_snoc (l : list Z) (x : Z) : sumZ (l ++ [x]) = sumZ l + x.
Proof. unfold sumZ. induction l as [| y l IH]; cbn [app fold_right] in *; lia. Qed.

Lemma grown_numentries (F : string) (n : Z) (ps : list Partition) (e : Z) :
  grown F n ps e -> sumZ (map partition_numentries ps) = e.
Proof.
  induction 1 as [| ps e0 i e Hg IH He]; [reflexivity |].
  rewrite map_app. cbn [map]. rewrite sumZ_snoc, IH.
  unfold partition_numentries, range_numentries, sumZ.
  cbn [ranges map fold_right entryend entrystart]. lia.
Qed.

Lemma grown_nonneg (F : string) (n : Z) (ps : list Partition) (e : Z) :
  grown F n ps e -> 0 <= e.
Proof. induction 1; lia. Qed.

Section OneFile.
Variable F : string.
Variable t : TTree.
Variable branchdtypes_arg : Branch -> option dtype.
Variable by_ : list Partition -> result Partition.
Variable under : list BasketData -> bool.
Variable toget : dict dtype.
Variable counters : dict string.

Hypothesis by_picks : forall choices c, by_ choices = Ok c -> c ∈ choices.
Hypothesis regular :
  forall b, b ∈ allbranches t -> consecutive_baskets b (t_numentries t).

Lemma tree_branch_one_file branchname b :
  tree_branch [(F, t)] branchdtypes_arg toget counters 0 branchname = Ok b ->
  consecutive_baskets b (t_numentries t).
Proof using regular.
  unfold tree_branch, tree. cbn [getitem Z.ltb Z.compare Z.to_nat lookup list_lookup
                                  mbind result_bind Z.eqb].
  intros H. apply regular. eapply tree_getitem_elem. exact H.
Qed.

Lemma accumulate_run branchname dt branch b0 (fuel : nat) :
  forall (m : nat) pathi' basketi' out,
  accumulate [(F, t)] branchdtypes_arg under fuel toget counters branchname dt branch
    0 (b0 + Z.of_nat m) (basket_run F branchname dt branch 0 b0 m)
  = Ok (pathi', basketi', out) ->
  b0 + Z.of_nat m <= numbaskets branch ->
  exists k : nat, out = basket_run F branchname dt branch 0 b0 k
                  /\ b0 + Z.of_nat k <= numbaskets branch.
Proof.
  induction fuel as [| fuel IH]; intros m pathi' basketi' out; cbn [accumulate];
    [discriminate |].
  destruct (Z.geb_spec (b0 + Z.of_nat m) (numbaskets branch)) as [Hge | Hlt].
  - change (0 + 1 >=? len (paths [(F, t)])) with true. cbv iota.
    intros [= <- <- <-] Hle. exists m. auto.
  - change (getitem (paths [(F, t)]) 0) with (Ok F). cbn [mbind result_bind].
    rewrite <- basket_run_snoc.
    destruct (existsb _ _); [discriminate |].
    destruct (negb _).
    + replace (removelast (basket_run F branchname dt branch 0 b0 (S m)))
        with (basket_run F branchname dt branch 0 b0 m)
        by (rewrite basket_run_snoc, removelast_last; reflexivity).
      intros [= <- <- <-] Hle. exists m. auto.
    + replace (b0 + Z.of_nat m + 1) with (b0 + Z.of_nat (S m)) by lia.
      intros Hrun _. apply (IH (S m) _ _ _ Hrun). lia.
Qed.

Lemma candidate_one_file ps e0 partitioni basketi branchname dt c basketi' :
  grown F (t_numentries t) ps e0 ->
  ps = [] \/ e0 < t_numentries t ->
  candidate [(F, t)] branchdtypes_arg under toget counters ps partitioni basketi
    branchname dt = Ok (c, basketi') ->
  exists e, c = mkPartition partitioni [mkRange F e0 e 0]
            /\ e0 < e <= t_numentries t.
Proof using regular.
  intros Hgrown Hmore. unfold candidate.
  assert (Hstart : forall pathi b0 entryi branch,
    growth_start [(F, t)] branchdtypes_arg toget counters ps basketi branchname
    = Ok (pathi, b0, entryi, branch) ->
    pathi = 0 /\ entryi = e0 /\ consecutive_baskets branch (t_numentries t)
    /\ 0 <= b0 < numbaskets branch
    /\ basketstart branch b0 <= e0 < basketstart branch b0 + basketentries branch b0
    /\ (ps = [] -> basketstart branch b0 = e0)).
  { intros pathi b0 entryi branch. unfold growth_start.
    destruct Hgrown as [| ps e0 i e Hg He].
    - cbn [last].
      destruct (tree_branch _ _ _ _ _ _) as [br |] eqn:Hbr; cbn [mbind result_bind];
        [| discriminate].
      intros [= <- <- <- <-].
      pose proof (tree_branch_one_file _ _ Hbr) as Hreg.
      pose proof Hreg as (Hn & H0 & Hpos & _).
      specialize (Hpos 0 ltac:(lia)).
      refine (conj eq_refl (conj eq_refl (conj Hreg (conj _ (conj _ _)))));
        [lia | lia | intros _; exact H0].
    - rewrite last_snoc. cbn [ranges getlast last mbind result_bind rpathi entryend].
      destruct (tree_branch _ _ _ _ _ _) as [br |] eqn:Hbr; cbn [mbind result_bind];
        [| discriminate].
      intros [= <- <- <- <-].
      pose proof (tree_branch_one_file _ _ Hbr) as Hreg.
      pose proof Hreg as (Hn & H0 & Hpos & Hstep & Hlast).
      destruct (search_basket_seq br e (Z.to_nat (numbaskets br)) 0%nat basketi
                  ltac:(lia) ltac:(lia)) as (Hb & Hnext & Hprev).
      fold (range (numbaskets br)) in Hb, Hnext, Hprev.
      set (b := search_basket br e (range (numbaskets br)) basketi) in *.
      cbn [Z.of_nat] in Hb, Hprev.
      pose proof (grown_nonneg _ _ _ _ Hg) as Hnn.
      assert (Hlo : basketstart br b <= e).
      { destruct (Z.eq_dec b 0) as [Hz | Hne]; [rewrite Hz; lia |].
        specialize (Hprev (b - 1) ltac:(lia)).
        replace (b - 1 + 1) with b in Hprev by lia. exact Hprev. }
      assert (Hhi : e < basketstart br b + basketentries br b).
      { destruct Hmore as [Hnil | Hlt]; [destruct ps; discriminate |].
        destruct (Z.eq_dec (b + 1) (numbaskets br)) as [Hend | Hmid].
        - replace b with (numbaskets br - 1) by lia. lia.
        - destruct Hnext as [Hend | Hgt]; [contradiction |].
          rewrite <- Hstep by lia. lia. }
      refine (conj eq_refl (conj eq_refl (conj Hreg (conj _ (conj _ _)))));
        [lia | lia | intros Hnil; destruct ps; discriminate]. }
  destruct (growth_start _ _ _ _ _ _ _) as [[[[pathi b0] entryi] branch] |];
    cbn [mbind result_bind]; [| discriminate].
  destruct (Hstart _ _ _ _ eq_refl) as (-> & -> & Hreg & Hb0 & Hin & Hfirst).
  clear Hstart.
  destruct (accumulate _ _ _ _ _ _ _ _ _ _ _ _) as [[[pathi' basketi1] out] |] eqn:Hacc;
    cbn [mbind result_bind]; [| discriminate].
  destruct (accumulate_run branchname dt branch b0
              (accumulate_fuel [(F, t)] branch 0 b0) 0%nat pathi' basketi1 out)
    as (k & -> & Hk).
  { cbn [Z.of_nat]. rewrite Z.add_0_r. exact Hacc. }
  { cbn [Z.of_nat]. lia. }
  destruct k as [| k].
  { cbn [basket_run seq map len length Z.of_nat Z.eqb].
    destruct (getitem _ _); discriminate. }
  replace (len (basket_run F branchname dt branch 0 b0 (S k)) =? 0) with false
    by (unfold basket_run, len; rewrite length_map, length_seq; reflexivity).
  unfold basket_run. cbn [seq map make_ranges last app].
  rewrite <- seq_shift, map_map.
  cbn [basket_datum bd_path bd_entrystart bd_entryend bd_pathi Z.of_nat].
  rewrite Z.add_0_r.
  destruct (make_ranges_one_file
              (map (fun j => basket_datum F branchname dt branch 0 (b0 + Z.of_nat (S j)))
                   (seq 0 k))
              (mkRange F (basketstart branch b0)
                 (basketstart branch b0 + basketentries branch b0) 0)
              (basketstart branch b0 + basketentries branch b0) (t_numentries t))
    as (e & -> & He).
  { intros x Hx. apply list_elem_of_fmap in Hx as (j & -> & Hj).
    apply elem_of_seq in Hj. cbn [basket_datum bd_pathi bd_entryend rpathi].
    split; [reflexivity |]. split.
    - apply (basketend_mono branch (t_numentries t)); [exact Hreg | lia | lia | lia].
    - apply (basketend_le branch (t_numentries t)); [exact Hreg | lia]. }
  { cbn [entryend]. split; [lia |].
    apply (basketend_le branch (t_numentries t)); [exact Hreg | lia]. }
  cbn [path entrystart rpathi].
  assert (Halign : align_first ps [mkRange F (basketstart branch b0) e 0]
                   = Ok [mkRange F e0 e 0]).
  { unfold align_first. destruct Hgrown as [| ps e0 i e1 Hg He1].
    - cbn [last]. rewrite (Hfirst eq_refl). reflexivity.
    - rewrite last_snoc. reflexivity. }
  rewrite Halign. cbn [mbind result_bind List.filter entrystart entryend].
  replace (e0 =? e) with false by (symmetry; apply Z.eqb_neq; lia).
  cbn [negb]. intros [= <- <-]. exists e. split; [reflexivity | lia].
Qed.

Lemma candidates_one_file ps e0 partitioni (branches : dict dtype) :
  grown F (t_numentries t) ps e0 ->
  ps = [] \/ e0 < t_numentries t ->
  forall basketi acc out basketi',
  candidates [(F, t)] branchdtypes_arg under toget counters ps partitioni basketi
    branches acc = Ok (out, basketi') ->
  (forall c, c ∈ acc ->
     exists e, c = mkPartition partitioni [mkRange F e0 e 0]
               /\ e0 < e <= t_numentries t) ->
  forall c, c ∈ out ->
    exists e, c = mkPartition partitioni [mkRange F e0 e 0]
              /\ e0 < e <= t_numentries t.
Proof using regular.
  intros Hgrown Hmore.
  induction branches as [| [branchname dt] branches IH]; intros basketi acc out basketi';
    cbn [candidates].
  - intros [= <- <-] Hacc. exact Hacc.
  - destruct (candidate _ _ _ _ _ _ _ _ _ _) as [[c0 b0] |] eqn:Hc;
      cbn [mbind result_bind]; [| discriminate].
    intros Hrun Hacc. eapply IH; [exact Hrun |].
    intros c Hin. apply elem_of_app in Hin as [Hin | Hin]; [auto |].
    apply list_elem_of_singleton in Hin as ->.
    eapply candidate_one_file; eassumption.
Qed.

Lemma more_to_do_one_file ps e0 :
  grown F (t_numentries t) ps e0 ->
  exists more,
    more_to_do [(F, t)] branchdtypes_arg toget counters ps = Ok more
    /\ (more = true -> ps = [] \/ e0 < t_numentries t)
    /\ (more = false -> e0 = t_numentries t).
Proof.
  intros Hgrown. unfold more_to_do. destruct Hgrown as [| ps e0 i e Hg He].
  - exists true. cbn [last]. split; [reflexivity |]. split; [auto | discriminate].
  - rewrite last_snoc. cbn [ranges getlast last mbind result_bind path entryend].
    change (getlast (paths [(F, t)])) with (@Ok string F). cbn [mbind result_bind].
    rewrite String.eqb_refl. cbn [negb].
    change (tree [(F, t)] branchdtypes_arg toget counters (len (paths [(F, t)]) - 1))
      with (@Ok TTree t).
    cbn [mbind result_bind].
    exists (e <? t_numentries t). split; [reflexivity |]. split.
    + intros H. apply Z.ltb_lt in H. auto.
    + intros H. apply Z.ltb_ge in H. lia.
Qed.

Lemma fill_loop_one_file (fuel : nat) :
  forall ps e0 partitioni basketi out,
  grown F (t_numentries t) ps e0 ->
  fill_loop [(F, t)] branchdtypes_arg by_ under fuel toget counters
    ps partitioni basketi = Ok out ->
  grown F (t_numentries t) out (t_numentries t).
Proof using by_picks regular.
  induction fuel as [| fuel IH]; intros ps e0 partitioni basketi out Hgrown;
    cbn [fill_loop];
    destruct (more_to_do_one_file ps e0 Hgrown) as (more & -> & Hyes & Hno);
    cbn [mbind result_bind]; destruct more.
  - discriminate.
  - intros [= <-]. specialize (Hno eq_refl). subst e0. exact Hgrown.
  - destruct (candidates _ _ _ _ _ _ _ _ _ _) as [[possiblenext basketi'] |] eqn:Hcs;
      cbn [mbind result_bind]; [| discriminate].
    destruct (by_ possiblenext) as [chosen |] eqn:Hby; cbn [mbind result_bind];
      [| discriminate].
    destruct (getitem (ranges chosen) 0); cbn [mbind result_bind]; [| discriminate].
    destruct (candidates_one_file ps e0 partitioni toget Hgrown (Hyes eq_refl)
                _ _ _ _ Hcs ltac:(intros c Hc; inversion Hc) chosen (by_picks _ _ Hby))
      as (e & -> & He).
    apply IH with (e0 := e). apply grown_snoc; assumption.
  - intros [= <-]. specialize (Hno eq_refl). subst e0. exact Hgrown.
Qed.

End OneFile.

(** X20: On one file whose branches have their baskets one after the other from
    entry 0 to [numentries], none empty, every partition set that [fill]
    returns tiles the file: the ranges start at 0, each starts where the one
    before ended, and the last ends at [numentries]; the entries of the set
    are those of the file.  [by] may be any function that returns one of the
    candidates, [under] any constraint. *)
Theorem fill_one_file_tiles (F : string) (t : TTree) (treepath : string)
    (branchdtypes_arg : Branch -> option dtype)
    (by_ : list Partition -> result Partition) (under : list BasketData -> bool)
    (fuel : nat) (pset : PartitionSet) :
  (forall choices c, by_ choices = Ok c -> c ∈ choices) ->
  (forall b, b ∈ allbranches t -> consecutive_baskets b (t_numentries t)) ->
  fill [(F, t)] treepath branchdtypes_arg by_ under fuel = Ok pset ->
  tiling [(F, t)] pset = true /\ numentries pset = t_numentries t.
Proof.
  intros Hby Hreg. unfold fill.
  change (getitem [(F, t)] 0) with (@Ok (string * TTree) (F, t)).
  cbn [mbind result_bind].
  destruct (fill_loop _ _ _ _ _ _ _ _ _ _) as [ps |] eqn:Hloop; cbn [mbind result_bind];
    [| discriminate].
  apply (fill_loop_one_file F t branchdtypes_arg by_ under _ _ Hby Hreg) with (e0 := 0)
    in Hloop; [| constructor].
  destruct (grown_tiles _ _ _ _ Hloop) as [Hfilter Htiles].
  destruct (PartitionSet_init_iff treepath (selection branchdtypes_arg t) (counters_of t)
              (len ps) (sumZ (map partition_numentries ps)) ps) as [_ [-> | ->]];
    [| discriminate].
  intros [= <-]. split; [| apply (grown_numentries _ _ _ _ Hloop)].
  unfold tiling, ranges_of_path.
  cbn [forallb fst snd partitions]. rewrite Hfilter, Htiles. reflexivity.
Qed.

End PlannerExtras.

(** The planner's further properties on concrete files. *)
Module PlannerExtrasRuns.
Import Planner PlannerSpec PlannerRuns PlannerExtras.

Lemma search_basket_spec_witness :
  0 < numbaskets branch_D
  /\ (let b := search_basket branch_D 15 (range (numbaskets branch_D)) 0 in
      0 <= b < numbaskets branch_D
      /\ (b + 1 = numbaskets branch_D \/ basketstart branch_D (b + 1) > 15)
      /\ forall b', 0 <= b' < b -> basketstart branch_D (b' + 1) <= 15).
Proof.
  assert (H : 0 < numbaskets branch_D) by (vm_compute; reflexivity).
  exact (conj H (search_basket_spec branch_D 15 0 H)).
Defined.

Lemma tree_accepts_witness :
  let toget := selection default_branchdtypes (snd file_A) in
  let counters := counters_of (snd file_A) in
  1 <> 0
  /\ getitem [file_A; file_B] 1 = Ok file_B
  /\ NoDup (dict_keys toget) /\ NoDup (dict_keys counters)
  /\ tree [file_A; file_B] default_branchdtypes toget counters 1 = Ok (snd file_B).
Proof.
  intros toget counters.
  assert (H1 : 1 <> 0) by lia.
  assert (H2 : getitem [file_A; file_B] 1 = Ok ("B.root"%string, snd file_B))
    by reflexivity.
  assert (H3 : NoDup (dict_keys toget)).
  { apply (bool_decide_unpack _). vm_compute. exact I. }
  assert (H4 : NoDup (dict_keys counters)).
  { apply (bool_decide_unpack _). vm_compute. exact I. }
  refine (conj H1 (conj H2 (conj H3 (conj H4 _)))).
  apply (proj1 (tree_accepts [file_A; file_B] default_branchdtypes toget counters 1
                  "B.root" (snd file_B) H1 H2 H3 H4)).
  split; intros k v H; exact H.
Defined.

Lemma accumulate_greedy_witness :
  accumulate [file_D] default_branchdtypes under_two 10 [] [] "x" "int32" branch_D 0 0 []
  = Ok (0, 2, basket_run "D.root" "x" "int32" branch_D 0 0 2)
  /\ accepted under_two (basket_run "D.root" "x" "int32" branch_D 0 0 2)
  /\ (len (paths [file_D]) <= 0
      \/ exists p, getitem (paths [file_D]) 0 = Ok p
           /\ under_two (basket_run "D.root" "x" "int32" branch_D 0 0 2
                         ++ [basket_datum p "x" "int32" branch_D 0 2]) = false).
Proof.
  assert (H : accumulate [file_D] default_branchdtypes under_two 10 [] [] "x" "int32"
                branch_D 0 0 []
              = Ok (0, 2, basket_run "D.root" "x" "int32" branch_D 0 0 2))
    by (vm_compute; reflexivity).
  exact (conj H (accumulate_greedy [file_D] default_branchdtypes under_two [] []
                   "x" "int32" branch_D 10 0 0 0 2 _ H)).
Defined.

Lemma fill_checks_the_chain_witness :
  let ps := partitions partitionset_AB in
  (forall choices c, default_by choices = Ok c -> c ∈ choices)
  /\ getitem [file_A; file_B] 0 = Ok file_A
  /\ fill_loop [file_A; file_B] default_branchdtypes default_by default_under 5
       (selection default_branchdtypes (snd file_A)) (counters_of (snd file_A)) [] 0 0
     = Ok ps
  /\ (forall p, p ∈ ps -> solid p)
  /\ map index ps = range (len ps).
Proof.
  intros ps.
  assert (H1 : getitem [file_A; file_B] 0 = Ok ("A.root"%string, snd file_A))
    by reflexivity.
  assert (H2 : fill_loop [file_A; file_B] default_branchdtypes default_by default_under 5
                 (selection default_branchdtypes (snd file_A))
                 (counters_of (snd file_A)) [] 0 0 = Ok ps)
    by (vm_compute; reflexivity).
  destruct (fill_checks_the_chain [file_A; file_B] "tree" default_branchdtypes
              default_by default_under 5 "A.root" (snd file_A) ps
              default_by_picks H1 H2) as (H3 & H4 & _).
  exact (conj default_by_picks (conj H1 (conj H2 (conj H3 H4)))).
Defined.

Lemma iterator_stops_silently_witness :
  let st := iterator (list Z) (dict (list Z)) (@concat Z) (fun _ => []) silent_reader
              (fun arrays => arrays) partitionset_AB in
  failure _ _ st = None
  /\ (len (yields _ _ st) = len (partitions partitionset_AB)
      \/ len (yields _ _ st) < len (partitions partitionset_AB)
         /\ complete (list Z) partitionset_AB (treedata_ _ _ st) (len (yields _ _ st))
            = Ok false).
Proof.
  intros st.
  assert (H : failure _ _ st = None) by (vm_compute; reflexivity).
  exact (conj H (iterator_stops_silently (list Z) (dict (list Z)) (@concat Z)
                   (fun _ => []) silent_reader (fun arrays => arrays)
                   partitionset_AB H)).
Defined.

Lemma output_one_range_witness :
  let r := mkRange "A.root" 0 100 0 in
  let treedata := [("A.root"%string, [reported_A])] in
  getitem (partitions partitionset_A) 0 = Ok (mkPartition 0 [r])
  /\ dict_get treedata (path r) = Some ([] ++ reported_A :: [])
  /\ matches (list Z) r reported_A = true
  /\ output (list Z) (dict (list Z)) (@concat Z) (fun _ => []) (fun arrays => arrays)
       partitionset_A treedata 0
     = Ok (treedata_left (list Z) treedata (path r) [],
           arrays_of_range (list Z) partitionset_A (fun _ => []) (snd reported_A)).
Proof.
  intros r treedata.
  assert (H1 : getitem (partitions partitionset_A) 0 = Ok (mkPartition 0 [r]))
    by reflexivity.
  assert (H2 : dict_get treedata (path r) = Some ([] ++ reported_A :: []))
    by reflexivity.
  assert (H3 : forall y, y ∈ @nil (Z * Z * dict (list Z)) -> matches (list Z) r y = false)
    by (intros y Hy; inversion Hy).
  assert (H4 : matches (list Z) r reported_A = true) by reflexivity.
  assert (H5 : NoDup (dict_keys (branchdtypes partitionset_A))).
  { apply (bool_decide_unpack _). vm_compute. exact I. }
  assert (H6 : NoDup (dict_keys (snd reported_A))).
  { apply (bool_decide_unpack _). vm_compute. exact I. }
  assert (H7 : forall k, k ∈ dict_keys (snd reported_A) ->
                         k ∈ dict_keys (branchdtypes partitionset_A))
    by (intros k Hk; exact Hk).
  exact (conj H1 (conj H2 (conj H4
           (output_one_range (list Z) (dict (list Z)) (@concat Z) (fun _ => [])
              (fun arrays => arrays) partitionset_A treedata 0 0 r [] [] reported_A
              H1 H2 H3 H4 H5 H6 H7)))).
Defined.

Lemma fill_no_selection_witness :
  getitem [file_A; file_B] 0 = Ok file_A
  /\ selection select_nothing (snd file_A) = []
  /\ fill [file_A; file_B] "tree" select_nothing default_by default_under 1
     = Raise EmptyChoices.
Proof.
  assert (H1 : getitem [file_A; file_B] 0 = Ok ("A.root"%string, snd file_A))
    by reflexivity.
  assert (H2 : selection select_nothing (snd file_A) = []) by reflexivity.
  exact (conj H1 (conj H2
           (fill_no_selection [file_A; file_B] "tree" select_nothing default_under
              0 "A.root" (snd file_A) H1 H2))).
Defined.

Lemma fill_no_baskets_witness :
  selection default_branchdtypes (snd file_E) = [("x", "int32")]%string
  /\ tree_getitem (allbranches (snd file_E)) "x" = Ok branch_E
  /\ numbaskets branch_E <= 0
  /\ fill [file_E] "tree" default_branchdtypes default_by default_under 1
     = Raise IndexError.
Proof.
  assert (H1 : selection default_branchdtypes (snd file_E) = [("x", "int32")]%string)
    by reflexivity.
  assert (H2 : tree_getitem (allbranches (snd file_E)) "x" = Ok branch_E) by reflexivity.
  assert (H3 : numbaskets branch_E <= 0) by (vm_compute; discriminate).
  exact (conj H1 (conj H2 (conj H3
           (fill_no_baskets "E.root" (snd file_E) "tree" default_branchdtypes default_by
              default_under 0 "x" "int32" [] branch_E H1 H2 H3)))).
Defined.

Lemma fill_one_file_tiles_witness :
  (forall choices c, default_by choices = Ok c -> c ∈ choices)
  /\ (forall b, b ∈ allbranches (snd file_D) -> consecutive_baskets b 60)
  /\ fill [file_D] "tree" default_branchdtypes default_by under_two 5 = Ok partitionset_D
  /\ tiling [file_D] partitionset_D = true
  /\ numentries partitionset_D = t_numentries (snd file_D).
Proof.
  assert (H1 : forall b, b ∈ allbranches (snd file_D) -> consecutive_baskets b 60).
  { intros b Hb. apply list_elem_of_singleton in Hb as ->.
    split; [vm_compute; reflexivity |]. split; [reflexivity |].
    split; [| split; [| reflexivity]].
    - intros i Hi. change (numbaskets branch_D) with 3 in Hi.
      assert (Hcase : i = 0 \/ i = 1 \/ i = 2) by lia.
      destruct Hcase as [-> | [-> | ->]]; vm_compute; reflexivity.
    - intros i Hi Hlt. change (numbaskets branch_D) with 3 in Hlt.
      assert (Hcase : i = 0 \/ i = 1) by lia.
      destruct Hcase as [-> | ->]; vm_compute; reflexivity. }
  assert (H2 : fill [file_D] "tree" default_branchdtypes default_by under_two 5
               = Ok partitionset_D) by (vm_compute; reflexivity).
  exact (conj default_by_picks (conj H1 (conj H2
           (fill_one_file_tiles "D.root" (snd file_D) "tree" default_branchdtypes
              default_by under_two 5 partitionset_D default_by_picks H1 H2)))).
Defined.

End PlannerExtrasRuns.
